(** * MCPGen intelligence layer: specification compressor, response cache,
      and enhancement orchestrator.

    A shallow embedding of the TypeScript sources
      packages/intelligence/src/pipeline/minifier.ts
      packages/intelligence/src/cache/semantic-cache.ts
      packages/intelligence/src/services/documentation-generator.ts
      packages/intelligence/src/intelligence-service.ts
    together with the part of the JavaScript run time they rely on
    (UTF-16 strings, JSON.stringify, SHA-256). *)

From Stdlib Require Import String Ascii.
From Stdlib Require Import ZArith NArith List Bool Lia Permutation QArith.
Import ListNotations.

Set Warnings "-register-all".
Local Open Scope Z_scope.

(* ================================================================== *)
(** ** JavaScript strings

    A JavaScript string is a sequence of UTF-16 code units; [length] of the
    list is the string's [.length]. *)

Definition jsstring := list N.

(** Literals are written as Rocq strings (one code unit per byte). *)
Definition js (s : string) : jsstring :=
  List.map N_of_ascii (list_ascii_of_string s).

Fixpoint jsstring_eqb (a b : jsstring) : bool :=
  match a, b with
  | [], [] => true
  | x :: a', y :: b' => (x =? y)%N && jsstring_eqb a' b'
  | _, _ => false
  end.

(** [s.substring(0, n)] for [0 <= n]. *)
Definition substring0 (n : nat) (s : jsstring) : jsstring := firstn n s.

(** A string is truthy when it is not empty. *)
Definition truthy (s : jsstring) : bool :=
  match s with [] => false | _ :: _ => true end.

(** [Array.prototype.join] on already rendered pieces. *)
Fixpoint join (sep : jsstring) (l : list jsstring) : jsstring :=
  match l with
  | [] => []
  | [x] => x
  | x :: rest => x ++ sep ++ join sep rest
  end.

(* ================================================================== *)
(** ** JSON values and JSON.stringify *)

(** [JNum m e] is the number [m / 10^e] (so [JNum 7 1] is 0.7 and
    [JNum 19 0] is 19).  Properties whose value is [undefined] are not part
    of a [JObj]: JSON.stringify skips them. *)
Inductive json : Type :=
| JNull
| JBool (b : bool)
| JNum (m : Z) (e : nat)
| JStr (s : jsstring)
| JArr (xs : list json)
| JObj (kvs : list (jsstring * json)).

Definition hexdigit (n : N) : N :=
  if (n <? 10)%N then (48 + n)%N else (87 + n)%N.

(** The six characters of a [\uXXXX] escape (lower-case hex). *)
Definition unicode_escape (c : N) : jsstring :=
  [92; 117;
   hexdigit (N.land (N.shiftr c 12) 15); hexdigit (N.land (N.shiftr c 8) 15);
   hexdigit (N.land (N.shiftr c 4) 15); hexdigit (N.land c 15)]%N.

Definition is_high_surrogate (c : N) : bool := ((55296 <=? c) && (c <=? 56319))%N.
Definition is_low_surrogate (c : N) : bool := ((56320 <=? c) && (c <=? 57343))%N.

(** One code unit that is not part of a surrogate pair. *)
Definition quote_unit (c : N) : jsstring :=
  if (c =? 8)%N then [92; 98]%N
  else if (c =? 9)%N then [92; 116]%N
  else if (c =? 10)%N then [92; 110]%N
  else if (c =? 12)%N then [92; 102]%N
  else if (c =? 13)%N then [92; 114]%N
  else if (c =? 34)%N then [92; 34]%N
  else if (c =? 92)%N then [92; 92]%N
  else if (c <? 32)%N then unicode_escape c
  else if is_high_surrogate c || is_low_surrogate c then unicode_escape c
  else [c].

Fixpoint quote_units (s : jsstring) : jsstring :=
  match s with
  | [] => []
  | c :: rest =>
      match rest with
      | d :: rest' =>
          if is_high_surrogate c && is_low_surrogate d
          then c :: d :: quote_units rest'
          else quote_unit c ++ quote_units rest
      | [] => quote_unit c
      end
  end.

(** QuoteJSONString of ECMAScript 2019. *)
Definition quoteJSON (s : jsstring) : jsstring :=
  (34%N :: quote_units s) ++ [34%N].

Fixpoint uint_digits (d : Decimal.uint) : jsstring :=
  match d with
  | Decimal.Nil => []
  | Decimal.D0 d => 48%N :: uint_digits d
  | Decimal.D1 d => 49%N :: uint_digits d
  | Decimal.D2 d => 50%N :: uint_digits d
  | Decimal.D3 d => 51%N :: uint_digits d
  | Decimal.D4 d => 52%N :: uint_digits d
  | Decimal.D5 d => 53%N :: uint_digits d
  | Decimal.D6 d => 54%N :: uint_digits d
  | Decimal.D7 d => 55%N :: uint_digits d
  | Decimal.D8 d => 56%N :: uint_digits d
  | Decimal.D9 d => 57%N :: uint_digits d
  end.

Definition nat_digits (n : N) : jsstring := uint_digits (N.to_uint n).

(** The digits of [a] without its trailing zeros, and the number of zeros
    removed. *)
Fixpoint strip_zeros (fuel : nat) (a : N) : N * nat :=
  match fuel with
  | O => (a, O)
  | S fuel' =>
      if ((0 <? a) && (a mod 10 =? 0))%N
      then let (s, z) := strip_zeros fuel' (a / 10)%N in (s, S z)
      else (a, O)
  end.

(** Number::toString (ECMAScript 2019, 7.1.12.1) for the number [m / 10^e],
    given by decimal digits as JavaScript prints it: with [digits] the [k]
    digits of the number without trailing zeros and [n] the place of the
    decimal point (the number is [0.digits * 10^n]), plain notation for
    [-6 < n <= 21] and exponent notation otherwise.  Zero is printed as 0
    whatever its sign. *)
Definition number_to_string (m : Z) (e : nat) : jsstring :=
  let a := Z.to_N (Z.abs m) in
  if (a =? 0)%N then [48%N]
  else
    let sign := if m <? 0 then [45%N] else [] in
    let (s, z) := strip_zeros (N.size_nat a) a in
    let digits := nat_digits s in
    let k := Z.of_nat (length digits) in
    let n := k + Z.of_nat z - Z.of_nat e in
    sign ++
    (if (k <=? n) && (n <=? 21)
     then digits ++ repeat 48%N (Z.to_nat (n - k))
     else if (0 <? n) && (n <=? 21)
     then firstn (Z.to_nat n) digits ++ [46%N] ++ skipn (Z.to_nat n) digits
     else if (-6 <? n) && (n <=? 0)
     then [48%N; 46%N] ++ repeat 48%N (Z.to_nat (- n)) ++ digits
     else
       let exponent :=
         (if n - 1 <? 0 then [45%N] else [43%N])
         ++ nat_digits (Z.to_N (Z.abs (n - 1))) in
       match digits with
       | [] => []
       | [d] => [d; 101%N] ++ exponent
       | d :: rest => [d; 46%N] ++ rest ++ [101%N] ++ exponent
       end).

Fixpoint stringify (j : json) : jsstring :=
  match j with
  | JNull => js "null"
  | JBool true => js "true"
  | JBool false => js "false"
  | JNum m e => number_to_string m e
  | JStr s => quoteJSON s
  | JArr xs => (91%N :: join [44%N] (List.map stringify xs)) ++ [93%N]
  | JObj kvs =>
      (123%N :: join [44%N]
         (List.map (fun kv => quoteJSON (fst kv) ++ 58%N :: stringify (snd kv)) kvs))
      ++ [125%N]
  end.

(** [estimateTokens(content) = Math.ceil(content.length / 4)]. *)
Definition estimateTokens (content : jsstring) : Z :=
  (Z.of_nat (length content) + 3) / 4.

(* ================================================================== *)
(** ** The compressed specification (types/index.ts)

    Records ([Record<string, T>]) are association lists in the order in which
    JavaScript enumerates the object's own keys; keys are pairwise
    distinct.  An optional field is an [option]; [None] is [undefined]. *)

Inductive MinifiedSchema : Type :=
  mkSchema {
    s_type : jsstring;
    s_ref : option jsstring;
    s_properties : option (list (jsstring * MinifiedSchema));
    s_items : option MinifiedSchema;
    s_required : option (list jsstring);
    s_enum : option (list json);
    s_format : option jsstring }.

Record MinifiedParameter : Type :=
  mkParameter {
    param_name : jsstring;
    param_in : jsstring;
    param_required : option bool;
    param_type : jsstring;
    param_description : option jsstring }.

Record MinifiedRequestBody : Type :=
  mkRequestBody {
    body_required : option bool;
    body_schema : MinifiedSchema }.

Record MinifiedResponse : Type :=
  mkResponse {
    resp_description : option jsstring;
    resp_schema : option MinifiedSchema }.

Record MinifiedOperation : Type :=
  mkOperation {
    method : jsstring;
    operationId : option jsstring;
    summary : option jsstring;
    parameters : option (list MinifiedParameter);
    requestBody : option MinifiedRequestBody;
    responses : list (jsstring * MinifiedResponse) }.

Record MinifiedPath : Type :=
  mkPath {
    path : jsstring;
    operations : list MinifiedOperation }.

Record MinifiedInfo : Type :=
  mkInfo {
    title : jsstring;
    version : jsstring;
    description : option jsstring }.

Record MinifiedSpec : Type :=
  mkSpec {
    info : MinifiedInfo;
    paths : list MinifiedPath;
    schemas : list (jsstring * MinifiedSchema);
    tokenCount : Z }.

(** *** The JSON value of a compressed specification

    What JSON.stringify sees: the fields in the order the minifier creates
    them, a field whose value is [undefined] left out. *)

Definition field (k : string) (v : json) : list (jsstring * json) := [(js k, v)].

Definition optfield {A} (k : string) (f : A -> json) (o : option A)
  : list (jsstring * json) :=
  match o with
  | Some a => [(js k, f a)]
  | None => []
  end.

Definition strings_toJSON (l : list jsstring) : json := JArr (List.map JStr l).

Fixpoint schema_toJSON (s : MinifiedSchema) : json :=
  match s with
  | mkSchema ty rf props items req en fmt =>
      JObj (field "type" (JStr ty)
            ++ optfield "ref" JStr rf
            ++ match props with
               | Some ps =>
                   field "properties"
                     (JObj (List.map (fun kv => (fst kv, schema_toJSON (snd kv))) ps))
               | None => []
               end
            ++ match items with
               | Some i => field "items" (schema_toJSON i)
               | None => []
               end
            ++ optfield "required" strings_toJSON req
            ++ optfield "enum" JArr en
            ++ optfield "format" JStr fmt)
  end.

Definition parameter_toJSON (p : MinifiedParameter) : json :=
  JObj (field "name" (JStr (param_name p))
        ++ field "in" (JStr (param_in p))
        ++ optfield "required" JBool (param_required p)
        ++ field "type" (JStr (param_type p))
        ++ optfield "description" JStr (param_description p)).

Definition requestBody_toJSON (b : MinifiedRequestBody) : json :=
  JObj (optfield "required" JBool (body_required b)
        ++ field "schema" (schema_toJSON (body_schema b))).

Definition response_toJSON (r : MinifiedResponse) : json :=
  JObj (optfield "description" JStr (resp_description r)
        ++ optfield "schema" schema_toJSON (resp_schema r)).

Definition operation_toJSON (o : MinifiedOperation) : json :=
  JObj (field "method" (JStr (method o))
        ++ optfield "operationId" JStr (operationId o)
        ++ optfield "summary" JStr (summary o)
        ++ optfield "parameters"
             (fun ps => JArr (List.map parameter_toJSON ps)) (parameters o)
        ++ optfield "requestBody" requestBody_toJSON (requestBody o)
        ++ field "responses"
             (JObj (List.map (fun kv => (fst kv, response_toJSON (snd kv)))
                      (responses o)))).

Definition path_toJSON (p : MinifiedPath) : json :=
  JObj (field "path" (JStr (path p))
        ++ field "operations" (JArr (List.map operation_toJSON (operations p)))).

Definition info_toJSON (i : MinifiedInfo) : json :=
  JObj (field "title" (JStr (title i))
        ++ field "version" (JStr (version i))
        ++ optfield "description" JStr (description i)).

Definition schemas_toJSON (ss : list (jsstring * MinifiedSchema)) : json :=
  JObj (List.map (fun kv => (fst kv, schema_toJSON (snd kv))) ss).

Definition spec_toJSON (m : MinifiedSpec) : json :=
  JObj (field "info" (info_toJSON (info m))
        ++ field "paths" (JArr (List.map path_toJSON (paths m)))
        ++ field "schemas" (schemas_toJSON (schemas m))
        ++ field "tokenCount" (JNum (tokenCount m) 0)).

(** [estimateTokens(JSON.stringify(spec))]: the token estimate of a
    specification as the optimizer recomputes it. *)
Definition tokenEstimate (m : MinifiedSpec) : Z :=
  estimateTokens (stringify (spec_toJSON m)).

(* ================================================================== *)
(** ** The input document (the part of OpenAPIV3.Document the minifier reads) *)

(** [ReferenceObject | A]: the object is a reference when it has a [$ref] key. *)
Inductive RefOr (A : Type) : Type :=
| Ref (ref : jsstring)
| Obj (a : A).
Arguments Ref {A} ref.
Arguments Obj {A} a.

(** [ReferenceObject | SchemaObject]; every other key of a schema object
    (examples, xml, externalDocs, description, ...) is never read. *)
Inductive SchemaObject : Type :=
| SchemaRef (ref : jsstring)
| Schema (type : option jsstring)
         (properties : option (list (jsstring * SchemaObject)))
         (items : option SchemaObject)
         (required : option (list jsstring))
         (enum : option (list json))
         (format : option jsstring).

Record ParameterObject : Type :=
  mkParameterObject {
    po_name : jsstring;
    po_in : jsstring;
    po_required : option bool;
    po_schema : option SchemaObject;
    po_description : option jsstring }.

(** [content] maps a media type to the schema of its MediaTypeObject. *)
Record RequestBodyObject : Type :=
  mkRequestBodyObject {
    rb_content : option (list (jsstring * option SchemaObject));
    rb_required : option bool }.

Record ResponseObject : Type :=
  mkResponseObject {
    ro_description : option jsstring;
    ro_content : option (list (jsstring * option SchemaObject)) }.

Record OperationObject : Type :=
  mkOperationObject {
    op_operationId : option jsstring;
    op_summary : option jsstring;
    op_parameters : option (list (RefOr ParameterObject));
    op_requestBody : option (RefOr RequestBodyObject);
    op_responses : list (jsstring * RefOr ResponseObject) }.

(** The entries of a PathItemObject: the key and, when the value is an
    operation, that operation ([None]: a falsy value, or the value of a key
    that is no HTTP method, which is skipped before it is looked at). *)
Definition PathItemObject := list (jsstring * option OperationObject).

Record Document : Type :=
  mkDocument {
    doc_title : jsstring;
    doc_version : jsstring;
    doc_description : option jsstring;
    doc_paths : option (list (jsstring * option PathItemObject));
    doc_schemas : option (list (jsstring * SchemaObject)) }.

(** [obj[key]] on a record. *)
Fixpoint lookup {A} (k : jsstring) (l : list (jsstring * A)) : option A :=
  match l with
  | [] => None
  | (k', v) :: rest => if jsstring_eqb k k' then Some v else lookup k rest
  end.

(** [o || []] and [o || {}]. *)
Definition orEmpty {A} (o : option (list A)) : list A :=
  match o with Some l => l | None => [] end.

(** [o || d] on strings. *)
Definition orElse (o : option jsstring) (d : jsstring) : jsstring :=
  match o with
  | Some s => if truthy s then s else d
  | None => d
  end.

(** ASCII case mapping; on the strings the minifier compares and prints
    (names of HTTP methods) it agrees with toLowerCase / toUpperCase. *)
Definition ascii_lower (c : N) : N :=
  if ((65 <=? c) && (c <=? 90))%N then (c + 32)%N else c.
Definition ascii_upper (c : N) : N :=
  if ((97 <=? c) && (c <=? 122))%N then (c - 32)%N else c.

Module OpenAPIMinifier.

(** [truncateDescription(description, maxLength)]; the callers that leave
    [maxLength] out pass its default, 200. *)
Definition truncateDescription (description : option jsstring) (maxLength : nat)
  : option jsstring :=
  match description with
  | None => None
  | Some d =>
      if truthy d
      then Some (if (maxLength <? length d)%nat
                 then substring0 maxLength d ++ js "..."
                 else d)
      else None
  end.

Definition isHttpMethod (m : jsstring) : bool :=
  existsb (jsstring_eqb (List.map ascii_lower m))
    [js "get"; js "post"; js "put"; js "patch"; js "delete"; js "head"; js "options"].

(** [obj[key] = value] on an object created by [{}]: the key [__proto__]
    reaches the inherited setter, so that no own property is added for it. *)
Definition assigned {A} (l : list (jsstring * A)) : list (jsstring * A) :=
  filter (fun kv => negb (jsstring_eqb (fst kv) (js "__proto__"))) l.

Fixpoint minifySchemaObj (schema : SchemaObject) : MinifiedSchema :=
  match schema with
  | SchemaRef r => mkSchema (js "ref") (Some r) None None None None None
  | Schema ty props items req en fmt =>
      mkSchema (orElse ty (js "object")) None
        (match props with
         | Some ps =>
             Some (assigned (List.map (fun kv => (fst kv, minifySchemaObj (snd kv))) ps))
         | None => None
         end)
        (match items with
         | Some i => Some (minifySchemaObj i)
         | None => None
         end)
        req en
        (match fmt with
         | Some f => if truthy f then Some f else None
         | None => None
         end)
  end.

Definition minifySchema (schema : option SchemaObject) : MinifiedSchema :=
  match schema with
  | None => mkSchema (js "any") None None None None None None
  | Some s => minifySchemaObj s
  end.

Definition minifySchemas (ss : list (jsstring * SchemaObject))
  : list (jsstring * MinifiedSchema) :=
  assigned (List.map (fun kv => (fst kv, minifySchemaObj (snd kv))) ss).

Definition getParameterType (schema : option SchemaObject) : jsstring :=
  match schema with
  | None => js "string"
  | Some (SchemaRef _) => js "ref"
  | Some (Schema ty _ _ _ _ _) => orElse ty (js "string")
  end.

Definition minifyParameter (param : RefOr ParameterObject) : MinifiedParameter :=
  match param with
  | Ref _ => mkParameter (js "ref_parameter") (js "query") None (js "string") None
  | Obj p =>
      mkParameter (po_name p) (po_in p) (po_required p)
        (getParameterType (po_schema p))
        (truncateDescription (po_description p) 50)
  end.

Definition minifyParameters (ps : option (list (RefOr ParameterObject)))
  : option (list MinifiedParameter) :=
  match ps with
  | None => None
  | Some l => Some (List.map minifyParameter l)
  end.

Definition jsonContent (content : option (list (jsstring * option SchemaObject)))
  : option (option SchemaObject) :=
  match content with
  | None => None
  | Some c => lookup (js "application/json") c
  end.

Definition minifyRequestBody (rb : option (RefOr RequestBodyObject))
  : option MinifiedRequestBody :=
  match rb with
  | None | Some (Ref _) => None
  | Some (Obj b) =>
      match jsonContent (rb_content b) with
      | Some sch => Some (mkRequestBody (rb_required b) (minifySchema sch))
      | None => None
      end
  end.

Fixpoint responseEntries (rs : list (jsstring * RefOr ResponseObject))
  : list (jsstring * MinifiedResponse) :=
  match rs with
  | [] => []
  | (code, Ref _) :: rest => responseEntries rest
  | (code, Obj r) :: rest =>
      (code,
       mkResponse (truncateDescription (ro_description r) 100)
         (match jsonContent (ro_content r) with
          | Some sch => Some (minifySchema sch)
          | None => None
          end))
      :: responseEntries rest
  end.

Definition minifyResponses (rs : list (jsstring * RefOr ResponseObject))
  : list (jsstring * MinifiedResponse) :=
  assigned (responseEntries rs).

Fixpoint minifyOperations (item : PathItemObject) : list MinifiedOperation :=
  match item with
  | [] => []
  | (m, Some op) :: rest =>
      if isHttpMethod m
      then mkOperation (List.map ascii_upper m) (op_operationId op)
             (truncateDescription (op_summary op) 200)
             (minifyParameters (op_parameters op))
             (minifyRequestBody (op_requestBody op))
             (minifyResponses (op_responses op))
           :: minifyOperations rest
      else minifyOperations rest
  | (_, None) :: rest => minifyOperations rest
  end.

Fixpoint minifyPaths (ps : list (jsstring * option PathItemObject))
  : list MinifiedPath :=
  match ps with
  | [] => []
  | (_, None) :: rest => minifyPaths rest
  | (p, Some item) :: rest =>
      match minifyOperations item with
      | [] => minifyPaths rest
      | ops => mkPath p ops :: minifyPaths rest
      end
  end.

Definition withTokenCount (m : MinifiedSpec) (n : Z) : MinifiedSpec :=
  mkSpec (info m) (paths m) (schemas m) n.

(** [minify(spec)]: the specification is built with [tokenCount: 0], and
    the count is then set from the serialization of that object. *)
Definition minify (spec : Document) : MinifiedSpec :=
  let minified :=
    mkSpec (mkInfo (doc_title spec) (doc_version spec)
              (truncateDescription (doc_description spec) 200))
           (minifyPaths (orEmpty (doc_paths spec)))
           (minifySchemas (orEmpty (doc_schemas spec)))
           0 in
  withTokenCount minified (estimateTokens (stringify (spec_toJSON minified))).

Definition hasOperationId (operationIds : list jsstring) (op : OperationObject) : bool :=
  match op_operationId op with
  | Some i => truthy i && existsb (jsstring_eqb i) operationIds
  | None => false
  end.

Fixpoint filterOperations (operationIds : list jsstring) (item : PathItemObject)
  : PathItemObject :=
  match item with
  | [] => []
  | (m, Some op) :: rest =>
      if isHttpMethod m && hasOperationId operationIds op
      then (m, Some op) :: filterOperations operationIds rest
      else filterOperations operationIds rest
  | (_, None) :: rest => filterOperations operationIds rest
  end.

Fixpoint relevantEntries (ps : list (jsstring * option PathItemObject))
    (operationIds : list jsstring) : list (jsstring * option PathItemObject) :=
  match ps with
  | [] => []
  | (_, None) :: rest => relevantEntries rest operationIds
  | (p, Some item) :: rest =>
      match filterOperations operationIds item with
      | [] => relevantEntries rest operationIds
      | kept => (p, Some kept) :: relevantEntries rest operationIds
      end
  end.

Definition filterPathsByOperations (ps : list (jsstring * option PathItemObject))
    (operationIds : list jsstring) : list (jsstring * option PathItemObject) :=
  assigned (relevantEntries ps operationIds).

(** Returns every schema: no reachability analysis is done. *)
Definition extractRelevantSchemas (ps : list (jsstring * option PathItemObject))
    (allSchemas : list (jsstring * SchemaObject)) : list (jsstring * SchemaObject) :=
  allSchemas.

(** [minifyForOperation(spec, operationIds)]: the returned object literal
    has [tokenCount: 0] and no description. *)
Definition minifyForOperation (spec : Document) (operationIds : list jsstring)
  : MinifiedSpec :=
  let relevantPaths := filterPathsByOperations (orEmpty (doc_paths spec)) operationIds in
  let relevantSchemas := extractRelevantSchemas relevantPaths (orEmpty (doc_schemas spec)) in
  mkSpec (mkInfo (doc_title spec) (doc_version spec) None)
         (minifyPaths relevantPaths)
         (minifySchemas relevantSchemas)
         0.


(** *** optimizeForTokenLimit and its stages *)

(** [delete obj.description] on a record, then [f] on every remaining value. *)
Definition dropDescription {A B} (f : A -> B)
  : list (jsstring * A) -> list (jsstring * B) :=
  fix go l :=
    match l with
    | [] => []
    | kv :: rest =>
        if jsstring_eqb (fst kv) (js "description")
        then go rest
        else (fst kv, f (snd kv)) :: go rest
    end.

(** The local function [removeDescriptionsRecursive] of removeDescriptions,
    as it acts on an arbitrary parsed JSON value. *)
Fixpoint removeDescriptionsRecursive (j : json) : json :=
  match j with
  | JArr xs => JArr (List.map removeDescriptionsRecursive xs)
  | JObj kvs => JObj (dropDescription removeDescriptionsRecursive kvs)
  | _ => j
  end.

(** The same walk over the fields of a compressed specification. *)
Fixpoint cleanSchema (s : MinifiedSchema) : MinifiedSchema :=
  match s with
  | mkSchema ty rf props items req en fmt =>
      mkSchema ty rf
        (match props with
         | Some ps => Some (dropDescription cleanSchema ps)
         | None => None
         end)
        (match items with
         | Some i => Some (cleanSchema i)
         | None => None
         end)
        req
        (match en with
         | Some l => Some (List.map removeDescriptionsRecursive l)
         | None => None
         end)
        fmt
  end.

Definition cleanParameter (p : MinifiedParameter) : MinifiedParameter :=
  mkParameter (param_name p) (param_in p) (param_required p) (param_type p) None.

Definition cleanRequestBody (b : MinifiedRequestBody) : MinifiedRequestBody :=
  mkRequestBody (body_required b) (cleanSchema (body_schema b)).

Definition cleanResponse (r : MinifiedResponse) : MinifiedResponse :=
  mkResponse None (option_map cleanSchema (resp_schema r)).

Definition cleanOperation (o : MinifiedOperation) : MinifiedOperation :=
  mkOperation (method o) (operationId o) (summary o)
    (option_map (List.map cleanParameter) (parameters o))
    (option_map cleanRequestBody (requestBody o))
    (dropDescription cleanResponse (responses o)).

Definition cleanPath (p : MinifiedPath) : MinifiedPath :=
  mkPath (path p) (List.map cleanOperation (operations p)).

Definition cleanInfo (i : MinifiedInfo) : MinifiedInfo :=
  mkInfo (title i) (version i) None.

(** [removeDescriptions(spec)]: a deep copy through JSON with every
    [description] key deleted. *)
Definition removeDescriptions (spec : MinifiedSpec) : MinifiedSpec :=
  mkSpec (cleanInfo (info spec))
         (List.map cleanPath (paths spec))
         (dropDescription cleanSchema (schemas spec))
         (tokenCount spec).

(** One top-level schema: more than 10 properties are cut to the first 5,
    and only [type: 'object'] and those properties are kept. *)
Definition simplifySchema (schema : MinifiedSchema) : MinifiedSchema :=
  match s_properties schema with
  | Some props =>
      if (10 <? length props)%nat
      then mkSchema (js "object") None (Some (firstn 5 props)) None None None None
      else schema
  | None => schema
  end.

Definition simplifySchemas (spec : MinifiedSpec) : MinifiedSpec :=
  mkSpec (info spec) (paths spec)
         (List.map (fun kv => (fst kv, simplifySchema (snd kv))) (schemas spec))
         (tokenCount spec).

Definition isSome {A} (f : A -> bool) (o : option A) : bool :=
  match o with Some a => f a | None => false end.

(** The priority of a path: 2 per GET operation, 1 per other operation,
    1 more per operation with a (non-empty) operationId. *)
Definition pathScore (p : MinifiedPath) : Z :=
  fold_left
    (fun score op =>
       score + (if jsstring_eqb (method op) (js "GET") then 2 else 1)
             + (if isSome truthy (operationId op) then 1 else 0))
    (operations p) 0.

(** [paths.sort((a, b) => bScore - aScore)]: the sort is stable, so the
    result is the one of inserting each path before the first path of lower
    or equal score among those that followed it. *)
Fixpoint insertPath (p : MinifiedPath) (l : list MinifiedPath) : list MinifiedPath :=
  match l with
  | [] => [p]
  | q :: rest =>
      if pathScore p <? pathScore q then q :: insertPath p rest else p :: q :: rest
  end.

Definition sortPaths (l : list MinifiedPath) : list MinifiedPath :=
  fold_right insertPath [] l.

(** The loop of reduceOperations: paths are kept, in sorted order, while
    [currentTokens + pathTokens <= maxTokens * 0.9]; the first path that
    does not fit ends the loop.  [maxTokens] is an integer, for which the
    comparison with [maxTokens * 0.9] is the one of the tenfold values. *)
Fixpoint keepPaths (maxTokens currentTokens : Z) (sortedPaths : list MinifiedPath)
  : list MinifiedPath :=
  match sortedPaths with
  | [] => []
  | p :: rest =>
      let pathTokens := estimateTokens (stringify (path_toJSON p)) in
      if 10 * (currentTokens + pathTokens) <=? 9 * maxTokens
      then p :: keepPaths maxTokens (currentTokens + pathTokens) rest
      else []
  end.

Definition reduceOperations (spec : MinifiedSpec) (maxTokens : Z) : MinifiedSpec :=
  let sortedPaths := sortPaths (paths spec) in
  let currentTokens :=
    estimateTokens
      (stringify (JObj (field "info" (info_toJSON (info spec))
                        ++ field "schemas" (schemas_toJSON (schemas spec))))) in
  mkSpec (info spec) (keepPaths maxTokens currentTokens sortedPaths)
         (schemas spec) (tokenCount spec).

Definition optimizeForTokenLimit (minified : MinifiedSpec) (maxTokens : Z)
  : MinifiedSpec :=
  if tokenCount minified <=? maxTokens then minified
  else
    let optimized := removeDescriptions minified in
    if tokenEstimate optimized <=? maxTokens
    then withTokenCount optimized (tokenEstimate optimized)
    else
      let optimized := simplifySchemas optimized in
      if tokenEstimate optimized <=? maxTokens
      then withTokenCount optimized (tokenEstimate optimized)
      else
        let optimized := reduceOperations optimized maxTokens in
        withTokenCount optimized (tokenEstimate optimized).

End OpenAPIMinifier.

(* ================================================================== *)
(** ** SHA-256 and UTF-8 (node:crypto's createHash('sha256').update(s).digest('hex')) *)

Module SHA256.

(** [Buffer.from(s, 'utf8')]: the UTF-8 bytes of a string; a surrogate that
    is not part of a pair is encoded as U+FFFD. *)
Definition utf8_codepoint (c : N) : list N :=
  (if c <? 128 then [c]
   else if c <? 2048 then [192 + c / 64; 128 + c mod 64]
   else if c <? 65536 then [224 + c / 4096; 128 + (c / 64) mod 64; 128 + c mod 64]
   else [240 + c / 262144; 128 + (c / 4096) mod 64; 128 + (c / 64) mod 64;
         128 + c mod 64])%N.

Fixpoint utf8 (s : jsstring) : list N :=
  match s with
  | [] => []
  | c :: rest =>
      match rest with
      | d :: rest' =>
          if is_high_surrogate c && is_low_surrogate d
          then utf8_codepoint (65536 + (c - 55296) * 1024 + (d - 56320))%N
                 ++ utf8 rest'
          else utf8_codepoint
                 (if is_high_surrogate c || is_low_surrogate c then 65533%N else c)
               ++ utf8 rest
      | [] =>
          utf8_codepoint
            (if is_high_surrogate c || is_low_surrogate c then 65533%N else c)
      end
  end.

(** 32-bit words are integers in [0, 2^32). *)
Definition w32 (x : Z) : Z := x mod 4294967296.
Definition add32 (x y : Z) : Z := w32 (x + y).
Definition rotr (n x : Z) : Z := Z.lor (Z.shiftr x n) (w32 (Z.shiftl x (32 - n))).
Definition not32 (x : Z) : Z := Z.lxor x 4294967295.
Definition Ch (x y z : Z) : Z := Z.lxor (Z.land x y) (Z.land (not32 x) z).
Definition Maj (x y z : Z) : Z :=
  Z.lxor (Z.lxor (Z.land x y) (Z.land x z)) (Z.land y z).
Definition Sigma0 (x : Z) : Z := Z.lxor (Z.lxor (rotr 2 x) (rotr 13 x)) (rotr 22 x).
Definition Sigma1 (x : Z) : Z := Z.lxor (Z.lxor (rotr 6 x) (rotr 11 x)) (rotr 25 x).
Definition sigma0 (x : Z) : Z := Z.lxor (Z.lxor (rotr 7 x) (rotr 18 x)) (Z.shiftr x 3).
Definition sigma1 (x : Z) : Z := Z.lxor (Z.lxor (rotr 17 x) (rotr 19 x)) (Z.shiftr x 10).

(** The round constants: the first 32 bits of the fractional parts of the
    cube roots of the first 64 primes. *)
Definition K : list Z :=
  [1116352408; 1899447441; 3049323471; 3921009573; 961987163; 1508970993;
   2453635748; 2870763221; 3624381080; 310598401; 607225278; 1426881987;
   1925078388; 2162078206; 2614888103; 3248222580; 3835390401; 4022224774;
   264347078; 604807628; 770255983; 1249150122; 1555081692; 1996064986;
   2554220882; 2821834349; 2952996808; 3210313671; 3336571891; 3584528711;
   113926993; 338241895; 666307205; 773529912; 1294757372; 1396182291;
   1695183700; 1986661051; 2177026350; 2456956037; 2730485921; 2820302411;
   3259730800; 3345764771; 3516065817; 3600352804; 4094571909; 275423344;
   430227734; 506948616; 659060556; 883997877; 958139571; 1322822218;
   1537002063; 1747873779; 1955562222; 2024104815; 2227730452; 2361852424;
   2428436474; 2756734187; 3204031479; 3329325298].

Record state : Type :=
  mkState { ha : Z; hb : Z; hc : Z; hd : Z; he : Z; hf : Z; hg : Z; hh : Z }.

Definition H0 : state :=
  mkState 1779033703 3144134277 1013904242 2773480762
          1359893119 2600822924 528734635 1541459225.

(** Padding: 0x80, zeros up to 56 mod 64, and the bit length on 8 bytes. *)
Definition pad (msg : list N) : list N :=
  let len := length msg in
  let zeros := ((64 - (len + 9) mod 64) mod 64)%nat in
  let bits := (8 * N.of_nat len)%N in
  msg ++ [128%N] ++ repeat 0%N zeros
      ++ List.map (fun i => (N.shiftr bits (8 * i)) mod 256)%N [7; 6; 5; 4; 3; 2; 1; 0]%N.

Fixpoint words (bytes : list N) : list Z :=
  match bytes with
  | a :: b :: c :: d :: rest =>
      Z.of_N (a * 16777216 + b * 65536 + c * 256 + d)%N :: words rest
  | _ => []
  end.

(** The message schedule: [w] holds the words so far, latest first. *)
Fixpoint schedule (n : nat) (w : list Z) : list Z :=
  match n with
  | O => w
  | S n' =>
      let nth i := nth i w 0 in
      schedule n' (add32 (add32 (sigma1 (nth 1%nat)) (nth 6%nat))
                         (add32 (sigma0 (nth 14%nat)) (nth 15%nat)) :: w)
  end.

Definition round (s : state) (kw : Z * Z) : state :=
  let t1 := add32 (add32 (add32 (hh s) (Sigma1 (he s))) (Ch (he s) (hf s) (hg s)))
                  (add32 (fst kw) (snd kw)) in
  let t2 := add32 (Sigma0 (ha s)) (Maj (ha s) (hb s) (hc s)) in
  mkState (add32 t1 t2) (ha s) (hb s) (hc s) (add32 (hd s) t1) (he s) (hf s) (hg s).

Definition compress (s : state) (block : list Z) : state :=
  let w := rev (schedule 48 (rev block)) in
  let r := fold_left round (combine K w) s in
  mkState (add32 (ha s) (ha r)) (add32 (hb s) (hb r)) (add32 (hc s) (hc r))
          (add32 (hd s) (hd r)) (add32 (he s) (he r)) (add32 (hf s) (hf r))
          (add32 (hg s) (hg r)) (add32 (hh s) (hh r)).

Fixpoint blocks (n : nat) (ws : list Z) (s : state) : state :=
  match n with
  | O => s
  | S n' =>
      match ws with
      | [] => s
      | _ => blocks n' (skipn 16 ws) (compress s (firstn 16 ws))
      end
  end.

Definition hex8 (w : Z) : jsstring :=
  List.map (fun i => hexdigit (Z.to_N (Z.land (Z.shiftr w (4 * i)) 15)))
    [7; 6; 5; 4; 3; 2; 1; 0].

Definition digest_hex (s : state) : jsstring :=
  hex8 (ha s) ++ hex8 (hb s) ++ hex8 (hc s) ++ hex8 (hd s)
  ++ hex8 (he s) ++ hex8 (hf s) ++ hex8 (hg s) ++ hex8 (hh s).

Definition sha256 (msg : list N) : state :=
  let ws := words (pad msg) in
  blocks (length ws) ws H0.

(** The hex digest of the UTF-8 encoding of a string. *)
Definition sha256_hex (s : jsstring) : jsstring := digest_hex (sha256 (utf8 s)).

End SHA256.

(* ================================================================== *)
(** ** The response cache (cache/semantic-cache.ts) *)

(** Costs and rates are JavaScript numbers used in arithmetic: they are
    rationals here, and [+] and [/] are the exact operations.  Counters and
    clock readings (milliseconds) are integers. *)

Record Usage : Type :=
  mkUsage {
    promptTokens : Z;
    completionTokens : Z;
    totalTokens : Z;
    cost : Q }.

Record LLMResponse : Type :=
  mkResponseValue {
    content : jsstring;
    usage : Usage;
    model : jsstring }.

Record Metadata : Type :=
  mkMetadata {
    created : Z;
    accessed : Z;
    entry_hits : Z;
    entry_cost : Q }.

Record CacheEntry : Type :=
  mkEntry {
    key : jsstring;
    value : LLMResponse;
    metadata : Metadata }.

Record CacheStats : Type :=
  mkStats {
    totalRequests : Z;
    hits : Z;
    misses : Z;
    hitRate : Q;
    costSavings : Q;
    storageUsed : Z }.

Definition freshStats : CacheStats := mkStats 0 0 0 0%Q 0%Q 0.

(** *** Own-property order of an ordinary object

    Keys that are array indices come first, in ascending order; the other
    keys follow in the order of their creation. *)

Fixpoint digits_val (acc : N) (s : jsstring) : option N :=
  match s with
  | [] => Some acc
  | c :: r =>
      if ((48 <=? c) && (c <=? 57))%N then digits_val (10 * acc + (c - 48))%N r
      else None
  end.

Definition array_index (k : jsstring) : option N :=
  match k with
  | [] => None
  | [48%N] => Some 0%N
  | 48%N :: _ => None
  | _ =>
      match digits_val 0 k with
      | Some n => if (n <? 4294967295)%N then Some n else None
      | None => None
      end
  end.

Fixpoint has_key {A} (k : jsstring) (l : list (jsstring * A)) : bool :=
  match l with
  | [] => false
  | (k', _) :: r => jsstring_eqb k k' || has_key k r
  end.

Fixpoint replace_value {A} (k : jsstring) (v : A) (l : list (jsstring * A))
  : list (jsstring * A) :=
  match l with
  | [] => []
  | (k', v') :: r =>
      if jsstring_eqb k k' then (k', v) :: r else (k', v') :: replace_value k v r
  end.

Fixpoint insert_index {A} (i : N) (k : jsstring) (v : A) (l : list (jsstring * A))
  : list (jsstring * A) :=
  match l with
  | [] => [(k, v)]
  | (k', v') :: r =>
      match array_index k' with
      | Some j => if (j <? i)%N then (k', v') :: insert_index i k v r
                  else (k, v) :: l
      | None => (k, v) :: l
      end
  end.

(** [obj[k] = v]. *)
Definition obj_set {A} (k : jsstring) (v : A) (l : list (jsstring * A))
  : list (jsstring * A) :=
  if has_key k l then replace_value k v l
  else match array_index k with
       | Some i => insert_index i k v l
       | None => l ++ [(k, v)]
       end.

(** [{ ...obj, ...more }] *)
Definition obj_spread {A} (obj : list (jsstring * A)) (more : list (jsstring * A))
  : list (jsstring * A) :=
  fold_left (fun o kv => obj_set (fst kv) (snd kv) o) more obj.

(** The members JSON.stringify prints: those whose value is not [undefined]. *)
Fixpoint defined_members (l : list (jsstring * option json)) : list (jsstring * json) :=
  match l with
  | [] => []
  | (k, Some v) :: r => (k, v) :: defined_members r
  | (_, None) :: r => defined_members r
  end.

(** *** Key derivation *)

(** The code units matched by [\s] and removed by [trim]. *)
Definition is_whitespace (c : N) : bool :=
  ((9 <=? c) && (c <=? 13) || (c =? 32) || (c =? 160) || (c =? 5760)
   || (8192 <=? c) && (c <=? 8202) || (c =? 8232) || (c =? 8233) || (c =? 8239)
   || (c =? 8287) || (c =? 12288) || (c =? 65279))%N.

Fixpoint trimStart (s : jsstring) : jsstring :=
  match s with
  | c :: r => if is_whitespace c then trimStart r else s
  | [] => []
  end.

Definition trim (s : jsstring) : jsstring := rev (trimStart (rev (trimStart s))).

(** [s.replace(/\s+/g, ' ')]: [inRun] tells that the previous code unit was
    white space. *)
Fixpoint collapseWhitespace (inRun : bool) (s : jsstring) : jsstring :=
  match s with
  | [] => []
  | c :: r =>
      if is_whitespace c
      then if inRun then collapseWhitespace true r
           else 32%N :: collapseWhitespace true r
      else c :: collapseWhitespace false r
  end.

(** ASCII letters only; the instance of [toLowerCase] used on sample inputs. *)
Definition asciiLowerCase (s : jsstring) : jsstring := List.map ascii_lower s.

Definition number_toJSON (n : Z * nat) : json := JNum (fst n) (snd n).

(** The default of the [temperature] parameter of get and set: 0.7. *)
Definition defaultTemperature : Z * nat := (7, 1%nat).

Definition orDefault {A} (o : option A) (d : A) : A :=
  match o with Some a => a | None => d end.

Section KeyDerivation.

(** [String.prototype.toLowerCase]: the Unicode case mapping is a parameter. *)
Variable toLowerCase : jsstring -> jsstring.

Definition normalizePrompt (prompt : jsstring) : jsstring :=
  toLowerCase (collapseWhitespace false (trim prompt)).

(** [{ prompt: normalizePrompt(prompt), model, temperature, ...additionalParams }] *)
Definition keyData (prompt model : jsstring) (temperature : option (Z * nat))
    (additionalParams : option (list (jsstring * json)))
  : list (jsstring * option json) :=
  obj_spread
    [(js "prompt", Some (JStr (normalizePrompt prompt)));
     (js "model", Some (JStr model));
     (js "temperature", option_map number_toJSON temperature)]
    (List.map (fun kv => (fst kv, Some (snd kv))) (orEmpty additionalParams)).

(** The digest both caches derive; MemoryCache.generateKey returns it as
    is, SemanticCache.generateKey prefixes it. *)
Definition keyDigest (prompt model : jsstring) (temperature : option (Z * nat))
    (additionalParams : option (list (jsstring * json))) : jsstring :=
  SHA256.sha256_hex
    (stringify (JObj (defined_members (keyData prompt model temperature additionalParams)))).

End KeyDerivation.

(** *** Map<string, CacheEntry>: entries in insertion order, keys distinct *)

Fixpoint map_delete {A} (k : jsstring) (l : list (jsstring * A)) : list (jsstring * A) :=
  match l with
  | [] => []
  | (k', v) :: r => if jsstring_eqb k k' then r else (k', v) :: map_delete k r
  end.

(** [map.set(k, v)]: an existing key keeps its place. *)
Definition map_set {A} (k : jsstring) (v : A) (l : list (jsstring * A))
  : list (jsstring * A) :=
  if has_key k l then replace_value k v l else l ++ [(k, v)].

Module MemoryCache.

Record t : Type :=
  mkCache {
    cache : list (jsstring * CacheEntry);
    stats : CacheStats;
    maxSize : Z;
    defaultTTL : Z }.

(** [new MemoryCache(maxSize = 1000, defaultTTL = 3600000)] *)
Definition create (maxSize defaultTTL : option Z) : t :=
  mkCache [] freshStats (orDefault maxSize 1000) (orDefault defaultTTL 3600000).

Definition withCache (c : t) (l : list (jsstring * CacheEntry)) : t :=
  mkCache l (stats c) (maxSize c) (defaultTTL c).

Definition withStats (c : t) (s : CacheStats) : t :=
  mkCache (cache c) s (maxSize c) (defaultTTL c).

Definition isEntryValid (c : t) (now : Z) (entry : CacheEntry) : bool :=
  now - created (metadata entry) <? defaultTTL c.

(** The loop of evictLRU: the first entry whose access time is strictly
    below every earlier candidate, starting from [Date.now()]. *)
Definition oldest (acc : option jsstring * Z) (kv : jsstring * CacheEntry)
  : option jsstring * Z :=
  if accessed (metadata (snd kv)) <? snd acc
  then (Some (fst kv), accessed (metadata (snd kv)))
  else acc.

Definition updateHitRate (s : CacheStats) : CacheStats :=
  mkStats (totalRequests s) (hits s) (misses s)
    (if 0 <? totalRequests s
     then (inject_Z (hits s) / inject_Z (totalRequests s))%Q
     else 0%Q)
    (costSavings s) (storageUsed s).

Definition addStorage (s : CacheStats) (d : Z) : CacheStats :=
  mkStats (totalRequests s) (hits s) (misses s) (hitRate s) (costSavings s)
    (storageUsed s + d).

Definition resetStorage (s : CacheStats) : CacheStats :=
  mkStats (totalRequests s) (hits s) (misses s) (hitRate s) (costSavings s) 0.

Definition countRequest (s : CacheStats) : CacheStats :=
  mkStats (totalRequests s + 1) (hits s) (misses s) (hitRate s) (costSavings s)
    (storageUsed s).

Definition countHitOnly (s : CacheStats) : CacheStats :=
  mkStats (totalRequests s) (hits s + 1) (misses s) (hitRate s) (costSavings s)
    (storageUsed s).

(** [hits++] and [costSavings += cost]. *)
Definition countHit (s : CacheStats) (c : Q) : CacheStats :=
  mkStats (totalRequests s) (hits s + 1) (misses s) (hitRate s)
    (costSavings s + c)%Q (storageUsed s).

Definition countMiss (s : CacheStats) : CacheStats :=
  mkStats (totalRequests s) (hits s) (misses s + 1) (hitRate s) (costSavings s)
    (storageUsed s).

(** What one [get] must do to the statistics, given what it returned. *)
Definition accounted (before : CacheStats) (result : option LLMResponse)
    (after : CacheStats) : Prop :=
  totalRequests after = totalRequests before + 1
  /\ match result with
     | Some v =>
         hits after = hits before + 1
         /\ misses after = misses before
         /\ costSavings after = (costSavings before + cost (usage v))%Q
     | None =>
         hits after = hits before
         /\ misses after = misses before + 1
         /\ costSavings after = costSavings before
     end.

Section Runtime.

Variable toLowerCase : jsstring -> jsstring.

(** [estimateEntrySize(entry) = JSON.stringify(entry).length]; the
    rendering of dates and of fractional numbers is not modelled. *)
Variable estimateEntrySize : CacheEntry -> Z.

Definition generateKey (prompt model : jsstring) (temperature : option (Z * nat))
    (additionalParams : option (list (jsstring * json))) : jsstring :=
  keyDigest toLowerCase prompt model temperature additionalParams.

(** [now] is the reading of the clock during the call. *)
Definition get (now : Z) (prompt model : jsstring) (temperature : option (Z * nat))
    (additionalParams : option (list (jsstring * json))) (c : t)
  : option LLMResponse * t :=
  let s := countRequest (stats c) in
  let k := generateKey prompt model
             (Some (orDefault temperature defaultTemperature)) additionalParams in
  match lookup k (cache c) with
  | Some entry =>
      if isEntryValid c now entry
      then
        let touched :=
          mkEntry (key entry) (value entry)
            (mkMetadata (created (metadata entry)) now
               (entry_hits (metadata entry) + 1) (entry_cost (metadata entry))) in
        (Some (value entry),
         mkCache (replace_value k touched (cache c))
           (countHit s (cost (usage (value entry)))) (maxSize c) (defaultTTL c))
      else
        (None, mkCache (map_delete k (cache c)) (countMiss s) (maxSize c) (defaultTTL c))
  | None => (None, withStats c (countMiss s))
  end.

Definition evictLRU (now : Z) (c : t) : t :=
  match fst (fold_left oldest (cache c) (None, now)) with
  | Some oldestKey =>
      if truthy oldestKey
      then
        mkCache (map_delete oldestKey (cache c))
          (match lookup oldestKey (cache c) with
           | Some entry => addStorage (stats c) (- estimateEntrySize entry)
           | None => stats c
           end)
          (maxSize c) (defaultTTL c)
      else c
  | None => c
  end.

Definition set (now : Z) (prompt model : jsstring) (response : LLMResponse)
    (temperature : option (Z * nat))
    (additionalParams : option (list (jsstring * json))) (c : t) : t :=
  let k := generateKey prompt model
             (Some (orDefault temperature defaultTemperature)) additionalParams in
  let entry := mkEntry k response (mkMetadata now now 0 (cost (usage response))) in
  let c := if maxSize c <=? Z.of_nat (length (cache c)) then evictLRU now c else c in
  mkCache (map_set k entry (cache c)) (addStorage (stats c) (estimateEntrySize entry))
    (maxSize c) (defaultTTL c).

Definition getStats (c : t) : CacheStats * t :=
  let s := updateHitRate (stats c) in (s, withStats c s).

Definition clear (c : t) : t :=
  mkCache [] (resetStorage (stats c)) (maxSize c) (defaultTTL c).

(** *** Sequences of calls: each call with the clock reading it sees *)

Record request : Type :=
  mkRequest {
    req_prompt : jsstring;
    req_model : jsstring;
    req_temperature : option (Z * nat);
    req_params : option (list (jsstring * json));
    req_response : LLMResponse }.

Definition keyOf (r : request) : jsstring :=
  generateKey (req_prompt r) (req_model r)
    (Some (orDefault (req_temperature r) defaultTemperature)) (req_params r).

(** The entry [set] creates for a call. *)
Definition entryOf (call : Z * request) : CacheEntry :=
  mkEntry (keyOf (snd call)) (req_response (snd call))
    (mkMetadata (fst call) (fst call) 0 (cost (usage (req_response (snd call))))).

Definition setAll (calls : list (Z * request)) (c : t) : t :=
  fold_left
    (fun c call =>
       set (fst call) (req_prompt (snd call)) (req_model (snd call))
         (req_response (snd call)) (req_temperature (snd call))
         (req_params (snd call)) c)
    calls c.

Definition getAll (calls : list (Z * request)) (c : t) : t :=
  fold_left
    (fun c call =>
       snd (get (fst call) (req_prompt (snd call)) (req_model (snd call))
              (req_temperature (snd call)) (req_params (snd call)) c))
    calls c.

(** The periodic sweep. *)
Definition cleanup (now : Z) (c : t) : t :=
  fold_left
    (fun c kv =>
       if isEntryValid c now (snd kv) then c
       else mkCache (map_delete (fst kv) (cache c))
              (match lookup (fst kv) (cache c) with
               | Some entry => addStorage (stats c) (- estimateEntrySize entry)
               | None => stats c
               end)
              (maxSize c) (defaultTTL c))
    (cache c) c.

End Runtime.
End MemoryCache.

(** An awaited call either returns or throws (a rejected promise). *)
Inductive outcome (A : Type) : Type :=
| Returned (a : A)
| Thrown.
Arguments Returned {A} a.
Arguments Thrown {A}.

(** A call that is awaited settles, by returning or by throwing, or never
    does: its promise stays pending and the caller does not go on. *)
Inductive awaited (A : Type) : Type :=
| Settled (o : outcome A)
| Pending.
Arguments Settled {A} o.
Arguments Pending {A}.

Coercion Settled : outcome >-> awaited.

Module SemanticCache.

(** A string held by the store, by what JSON.parse makes of it: an entry
    or statistics written by this class, or text that does not parse
    (the empty string is the only falsy one). *)
Inductive stored : Type :=
| StoredEntry (e : CacheEntry)
| StoredStats (s : CacheStats)
| StoredText (s : jsstring).

(** The client and the store behind it.  [expires] is the time at which a
    key set by setEx is gone.  [faults] is the environment's plan: each
    command, and each attempt to connect, takes the head and fails when it
    is [true]; with no plan left they succeed.  A command that fails is a
    rejected promise (an error reply: the connection stays up). *)
Record Redis : Type :=
  mkRedis {
    isOpen : bool;
    store : list (jsstring * (stored * option Z));
    faults : list bool }.

Definition command (r : Redis) : bool * Redis :=
  match faults r with
  | [] => (false, r)
  | f :: rest => (f, mkRedis (isOpen r) (store r) rest)
  end.

Definition live (now : Z) (kv : jsstring * (stored * option Z)) : bool :=
  match snd (snd kv) with
  | Some expires => now <? expires
  | None => true
  end.

(** The attempts that follow a failed attempt to connect: the plan that is
    left once one succeeds, and the number of those that failed before. *)
Fixpoint retry (plan : list bool) : option (list bool) * nat :=
  match plan with
  | [] => (None, O)
  | false :: rest => (Some rest, O)
  | true :: rest => let (plan', failed) := retry rest in (plan', S failed)
  end.

(** [connect()] of the client that [createClient({ url })] builds (redis
    4.x).  [isOpen] is true from the call on.  With the default reconnect
    strategy a failed attempt is not a rejection: it emits an 'error' event
    and the client tries again, so the call settles with the first attempt
    that succeeds, and never settles when none does: a plan that ends on
    failed attempts stands for a store that stays out of reach.  The second
    component counts the 'error' events. *)
Definition redis_connect (r : Redis) : awaited unit * (Redis * nat) :=
  let (failed, r1) := command r in
  if failed
  then match retry (faults r1) with
       | (Some plan, n) => (Settled (Returned tt), (mkRedis true (store r1) plan, S n))
       | (None, n) => (Pending, (mkRedis true (store r1) [], S n))
       end
  else (Settled (Returned tt), (mkRedis true (store r1) (faults r1), O)).

Definition redis_get (now : Z) (k : jsstring) (r : Redis)
  : outcome (option stored) * Redis :=
  let (failed, r) := command r in
  if failed then (Thrown, r)
  else (Returned (option_map fst (lookup k (filter (live now) (store r)))), r).

Definition redis_setEx (now : Z) (k : jsstring) (seconds : Z) (v : stored) (r : Redis)
  : outcome unit * Redis :=
  let (failed, r) := command r in
  if failed then (Thrown, r)
  else (Returned tt,
        mkRedis (isOpen r) (map_set k (v, Some (now + seconds * 1000)) (store r))
          (faults r)).

Fixpoint starts_with (prefix s : jsstring) : bool :=
  match prefix, s with
  | [], _ => true
  | p :: prefix', c :: s' => (p =? c)%N && starts_with prefix' s'
  | _ :: _, [] => false
  end.

(** [keys(prefix + '*')] *)
Definition redis_keys (now : Z) (prefix : jsstring) (r : Redis)
  : outcome (list jsstring) * Redis :=
  let (failed, r) := command r in
  if failed then (Thrown, r)
  else (Returned (List.map fst
                    (filter (fun kv => live now kv && starts_with prefix (fst kv))
                       (store r))), r).

Definition redis_del (ks : list jsstring) (r : Redis) : outcome unit * Redis :=
  let (failed, r) := command r in
  if failed then (Thrown, r)
  else (Returned tt,
        mkRedis (isOpen r)
          (filter (fun kv => negb (existsb (jsstring_eqb (fst kv)) ks)) (store r))
          (faults r)).

Record t : Type :=
  mkCache {
    redis : Redis;
    stats : CacheStats;
    defaultTTL : Z;
    log : list jsstring }.

Definition keyPrefix : jsstring := js "mcpgen:cache:".
Definition statsKey : jsstring := js "mcpgen:cache:stats".

(** [new SemanticCache(redisUrl, defaultTTL = 3600)]: a closed client for
    the store [r].  The listener the constructor registers for the client's
    'error' events is [onError] below. *)
Definition create (r : Redis) (defaultTTL : option Z) : t :=
  mkCache (mkRedis false (store r) (faults r)) freshStats (orDefault defaultTTL 3600) [].

Definition withRedis (c : t) (r : Redis) : t :=
  mkCache r (stats c) (defaultTTL c) (log c).

Definition withStats (c : t) (s : CacheStats) : t :=
  mkCache (redis c) s (defaultTTL c) (log c).

(** [console.error(message, error)] *)
Definition logError (c : t) (message : string) : t :=
  mkCache (redis c) (stats c) (defaultTTL c) (log c ++ [js message]).

(** The constructor's listener,
    [this.redis.on('error', err => console.error('Redis Cache Error:', err))],
    run for [events] events. *)
Definition onError (c : t) (events : nat) : t :=
  Nat.iter events (fun c => logError c "Redis Cache Error:") c.

Definition stored_truthy (v : stored) : bool :=
  match v with
  | StoredText s => truthy s
  | _ => true
  end.

(** [{ ...this.stats, ...savedStats }]: saved statistics replace every
    field; any other object leaves the six fields as they are. *)
Definition loadStats (now : Z) (c : t) : t :=
  match redis_get now statsKey (redis c) with
  | (Thrown, r) => logError (withRedis c r) "Error loading cache stats:"
  | (Returned None, r) => withRedis c r
  | (Returned (Some v), r) =>
      if stored_truthy v
      then match v with
           | StoredStats saved => withStats (withRedis c r) saved
           | StoredEntry _ => withRedis c r
           | StoredText _ => logError (withRedis c r) "Error loading cache stats:"
           end
      else withRedis c r
  end.

Definition connect (now : Z) (c : t) : awaited unit * t :=
  if isOpen (redis c) then (Settled (Returned tt), c)
  else match redis_connect (redis c) with
       | (Settled (Returned _), (r, events)) =>
           (Settled (Returned tt), loadStats now (onError (withRedis c r) events))
       | (Settled Thrown, (r, events)) =>
           (Settled Thrown, onError (withRedis c r) events)
       | (Pending, (r, events)) => (Pending, onError (withRedis c r) events)
       end.

(** [await this.connect()] at the head of a method, before its [try]
    block: the method goes on when the call has returned, and ends as the
    call does otherwise. *)
Definition afterConnect {A} (now : Z) (c : t) (rest : t -> outcome A * t)
  : awaited A * t :=
  match connect now c with
  | (Settled (Returned _), c) => (Settled (fst (rest c)), snd (rest c))
  | (Settled Thrown, c) => (Settled Thrown, c)
  | (Pending, c) => (Pending, c)
  end.

Definition updateEntryStats (now : Z) (k : jsstring) (entry : CacheEntry) (c : t)
  : CacheEntry * t :=
  let touched :=
    mkEntry (key entry) (value entry)
      (mkMetadata (created (metadata entry)) now (entry_hits (metadata entry) + 1)
         (entry_cost (metadata entry))) in
  match redis_setEx now k (defaultTTL c) (StoredEntry touched) (redis c) with
  | (Thrown, r) => (touched, logError (withRedis c r) "Error updating entry stats:")
  | (Returned _, r) => (touched, withRedis c r)
  end.

Section Runtime.

Variable toLowerCase : jsstring -> jsstring.
Variable estimateEntrySize : CacheEntry -> Z.

Definition generateKey (prompt model : jsstring) (temperature : option (Z * nat))
    (additionalParams : option (list (jsstring * json))) : jsstring :=
  keyPrefix ++ keyDigest toLowerCase prompt model temperature additionalParams.

Definition miss (c : t) : outcome (option LLMResponse) * t :=
  (Returned None, withStats c (MemoryCache.countMiss (stats c))).

Definition get (now : Z) (prompt model : jsstring) (temperature : option (Z * nat))
    (additionalParams : option (list (jsstring * json))) (c : t)
  : awaited (option LLMResponse) * t :=
  afterConnect now c (fun c =>
      let c := withStats c (MemoryCache.countRequest (stats c)) in
      let k := generateKey prompt model
                 (Some (orDefault temperature defaultTemperature)) additionalParams in
      match redis_get now k (redis c) with
      | (Thrown, r) => miss (logError (withRedis c r) "Cache get error:")
      | (Returned None, r) => miss (withRedis c r)
      | (Returned (Some v), r) =>
          let c := withRedis c r in
          if stored_truthy v
          then match v with
               | StoredEntry entry =>
                   let (entry, c) := updateEntryStats now k entry c in
                   (Returned (Some (value entry)),
                    withStats c
                      (MemoryCache.countHit (stats c) (cost (usage (value entry)))))
               | StoredStats _ =>
                   (* an object with no metadata and no value: the write in
                      updateEntryStats throws and is caught there; after
                      hits++, the read of entry.value.usage throws *)
                   let c := logError c "Error updating entry stats:" in
                   let c := withStats c (MemoryCache.countHitOnly (stats c)) in
                   miss (logError c "Cache get error:")
               | StoredText _ => miss (logError c "Cache get error:")
               end
          else miss c
      end).

Definition set (now : Z) (prompt model : jsstring) (response : LLMResponse)
    (temperature : option (Z * nat))
    (additionalParams : option (list (jsstring * json))) (ttl : option Z) (c : t)
  : awaited unit * t :=
  afterConnect now c (fun c =>
      let k := generateKey prompt model
                 (Some (orDefault temperature defaultTemperature)) additionalParams in
      let entry := mkEntry k response (mkMetadata now now 0 (cost (usage response))) in
      let ttlToUse :=
        match ttl with
        | Some n => if n =? 0 then defaultTTL c else n
        | None => defaultTTL c
        end in
      match redis_setEx now k ttlToUse (StoredEntry entry) (redis c) with
      | (Thrown, r) => (Returned tt, logError (withRedis c r) "Cache set error:")
      | (Returned _, r) =>
          (Returned tt,
           withStats (withRedis c r)
             (MemoryCache.addStorage (stats c) (estimateEntrySize entry)))
      end).

End Runtime.

Definition getStats (c : t) : CacheStats * t :=
  let s := MemoryCache.updateHitRate (stats c) in (s, withStats c s).

(** [clear()] with no pattern. *)
Definition clear (now : Z) (c : t) : awaited unit * t :=
  afterConnect now c (fun c =>
      match redis_keys now keyPrefix (redis c) with
      | (Thrown, r) => (Returned tt, logError (withRedis c r) "Cache clear error:")
      | (Returned ks, r) =>
          match ks with
          | [] =>
              (Returned tt,
               withStats (withRedis c r) (MemoryCache.resetStorage (stats c)))
          | _ =>
              match redis_del ks r with
              | (Thrown, r) =>
                  (Returned tt, logError (withRedis c r) "Cache clear error:")
              | (Returned _, r) =>
                  (Returned tt,
                   withStats (withRedis c r) (MemoryCache.resetStorage (stats c)))
              end
          end
      end).

(** The commands of the next [n] calls to the store succeed. *)
Definition no_fault (n : nat) (r : Redis) : Prop :=
  forallb negb (firstn n (faults r)) = true.

End SemanticCache.

(* ================================================================== *)
(** ** Providers (models/llm-provider.ts) *)

Inductive ProviderKind : Type := OpenAI | Anthropic | Ollama.

Record LLMConfig : Type :=
  mkLLMConfig {
    provider : ProviderKind;
    configModel : option jsstring }.

Record GenerationOptions : Type :=
  mkOptions {
    maxTokens : Z;
    temperature : Z * nat }.

(** A call of [generate]: the prompt and the options it was given. *)
Record Call : Type :=
  mkCall {
    call_prompt : jsstring;
    call_options : GenerationOptions }.

Module LLMProvider.

(** [this.model = config.model || default] *)
Definition modelOf (config : LLMConfig) : jsstring :=
  orElse (configModel config)
    (match provider config with
     | OpenAI => js "gpt-4"
     | Anthropic => js "claude-3-sonnet-20240229"
     | Ollama => js "codellama"
     end).

(** [getCapabilities().costPerToken]: (input, output). *)
Definition costPerToken (config : LLMConfig) : Q * Q :=
  let m := modelOf config in
  match provider config with
  | OpenAI =>
      if jsstring_eqb m (js "gpt-4-turbo") then (1 # 100000, 3 # 100000)
      else if jsstring_eqb m (js "gpt-3.5-turbo") then (15 # 10000000, 2 # 1000000)
      else (3 # 100000, 6 # 100000)
  | Anthropic =>
      if jsstring_eqb m (js "claude-3-opus-20240229") then (15 # 1000000, 75 # 1000000)
      else if jsstring_eqb m (js "claude-3-haiku-20240307")
           then (25 # 100000000, 125 # 100000000)
      else (3 # 1000000, 15 # 1000000)
  | Ollama => (0, 0)
  end%Q.

Definition estimateCost (config : LLMConfig) (promptTokens completionTokens : Q) : Q :=
  match provider config with
  | Ollama => 0
  | _ => promptTokens * fst (costPerToken config)
         + completionTokens * snd (costPerToken config)
  end%Q.

(** [provider.constructor.name] *)
Definition constructorName (config : LLMConfig) : jsstring :=
  match provider config with
  | OpenAI => js "OpenAIProvider"
  | Anthropic => js "AnthropicProvider"
  | Ollama => js "OllamaProvider"
  end.

(** The service behind a provider: [answers] is what the coming calls of
    [generate] will do, in order (a response, or a throw); with no answer
    left the call throws.  [calls] records the calls made. *)
Record t : Type :=
  mkProvider {
    config : LLMConfig;
    answers : list (outcome LLMResponse);
    calls : list Call }.

Definition generate (prompt : jsstring) (options : GenerationOptions) (p : t)
  : outcome LLMResponse * t :=
  let called := calls p ++ [mkCall prompt options] in
  match answers p with
  | [] => (Thrown, mkProvider (config p) [] called)
  | a :: rest => (a, mkProvider (config p) rest called)
  end.

End LLMProvider.

(* ================================================================== *)
(** ** Tools and generated documentation (core types, types/index.ts) *)

Record MCPParameter : Type :=
  mkMCPParameter {
    mcp_name : jsstring;
    mcp_type : jsstring;
    mcp_description : option jsstring;
    mcp_required : bool }.

Record MCPTool : Type :=
  mkTool {
    tool_name : jsstring;
    tool_description : option jsstring;
    tool_parameters : list MCPParameter }.

Record ParameterDoc : Type :=
  mkParameterDoc {
    pd_name : jsstring;
    pd_type : jsstring;
    pd_required : bool;
    pd_description : jsstring;
    pd_example : json }.

Record ToolDocumentation : Type :=
  mkToolDocumentation {
    toolName : jsstring;
    td_description : jsstring;
    td_usage : jsstring;
    td_parameters : list ParameterDoc;
    td_examples : list json;
    td_errorCases : list json;
    bestPractices : list jsstring }.

Record CodeExample : Type :=
  mkCodeExample {
    ce_title : jsstring;
    ce_description : jsstring;
    ce_code : jsstring;
    ce_language : jsstring;
    ce_output : option jsstring }.

Definition parameterDoc_toJSON (p : ParameterDoc) : json :=
  JObj (field "name" (JStr (pd_name p))
        ++ field "type" (JStr (pd_type p))
        ++ field "required" (JBool (pd_required p))
        ++ field "description" (JStr (pd_description p))
        ++ field "example" (pd_example p)).

Definition toolDocumentation_toJSON (d : ToolDocumentation) : json :=
  JObj (field "toolName" (JStr (toolName d))
        ++ field "description" (JStr (td_description d))
        ++ field "usage" (JStr (td_usage d))
        ++ field "parameters" (JArr (List.map parameterDoc_toJSON (td_parameters d)))
        ++ field "examples" (JArr (td_examples d))
        ++ field "errorCases" (JArr (td_errorCases d))
        ++ field "bestPractices" (strings_toJSON (bestPractices d))).

Definition codeExample_toJSON (e : CodeExample) : json :=
  JObj (field "title" (JStr (ce_title e))
        ++ field "description" (JStr (ce_description e))
        ++ field "code" (JStr (ce_code e))
        ++ field "language" (JStr (ce_language e))
        ++ optfield "output" JStr (ce_output e)).

(** [value.key] and the truth value of a parsed JSON value; reading a
    property of [null] throws. *)
Definition json_prop (k : string) (j : json) : outcome (option json) :=
  match j with
  | JNull => Thrown
  | JObj kvs => Returned (lookup (js k) kvs)
  | _ => Returned None
  end.

Definition json_truthy (j : option json) : bool :=
  match j with
  | None | Some JNull => false
  | Some (JBool b) => b
  | Some (JNum m _) => negb (m =? 0)
  | Some (JStr s) => truthy s
  | Some (JArr _) | Some (JObj _) => true
  end.

(** What the generators take from the run time and from templates/prompts.ts:
    JSON.parse (which throws on text that is no JSON), the prompt templates,
    and the regular-expression searches over a response. *)
Record Helpers : Type :=
  mkHelpers {
    JSON_parse : jsstring -> outcome json;
    renderToolDocPrompt : MCPTool -> MinifiedSpec -> jsstring -> jsstring;
    renderExamplePrompt : MCPTool -> jsstring -> jsstring -> jsstring;
    extractUsageFromResponse : jsstring -> jsstring;
    extractBestPracticesFromResponse : jsstring -> list jsstring;
    extractCodeBlock : jsstring -> jsstring;
    extractOutputFromResponse : jsstring -> option jsstring;
    renderReadmePrompt : jsstring -> list MCPTool -> MinifiedSpec -> jsstring -> jsstring;
    renderErrorGuidePrompt : list MCPTool -> MinifiedSpec -> jsstring -> jsstring;
    renderApiReferencePrompt : list MCPTool -> MinifiedSpec -> jsstring -> jsstring;
    fallbackReadme : jsstring -> list MCPTool -> MinifiedSpec -> jsstring;
    fallbackErrorGuide : jsstring -> jsstring;
    fallbackApiReference : MinifiedSpec -> jsstring;
    renderValidationPrompt : jsstring -> nat -> list jsstring -> jsstring;
    renderOptimizationPrompt : jsstring -> list jsstring -> jsstring -> jsstring }.

(* ================================================================== *)
(** ** The documentation generator (services/documentation-generator.ts) *)

Module DocumentationGenerator.

(** The generator with the process-local cache: the constructor builds a
    MemoryCache unless [cacheConfig.enabled] and [cacheConfig.redisUrl] are
    both set.  The generator it builds around a SemanticCache in that case
    is not modelled here: what is proved of a generator is proved of this
    one.  [console] holds the messages of console.warn. *)
Record t : Type :=
  mkGenerator {
    llmProvider : LLMProvider.t;
    cache : MemoryCache.t;
    includeExamples : bool;
    includeErrorCases : bool;
    includeBestPractices : bool;
    includeApiReference : bool;
    console : list jsstring }.

Record GenerationContext : Type :=
  mkContext {
    projectName : jsstring;
    tools : list MCPTool;
    language : jsstring;
    spec : MinifiedSpec }.

Record EnhancedDocumentation : Type :=
  mkDocumentation {
    readme : jsstring;
    toolDocs : list json;
    examples : list json;
    errorGuide : jsstring;
    apiReference : jsstring }.

Definition withProvider (g : t) (p : LLMProvider.t) : t :=
  mkGenerator p (cache g) (includeExamples g) (includeErrorCases g)
    (includeBestPractices g) (includeApiReference g) (console g).

Definition withCache (g : t) (c : MemoryCache.t) : t :=
  mkGenerator (llmProvider g) c (includeExamples g) (includeErrorCases g)
    (includeBestPractices g) (includeApiReference g) (console g).

Definition warn (g : t) (message : jsstring) : t :=
  mkGenerator (llmProvider g) (cache g) (includeExamples g) (includeErrorCases g)
    (includeBestPractices g) (includeApiReference g) (console g ++ [message]).

Section Runtime.

Variable toLowerCase : jsstring -> jsstring.
Variable estimateEntrySize : CacheEntry -> Z.
Variable h : Helpers.

(** [now] is the reading of the clock during the run. *)
Variable now : Z.

Definition cacheGet (k : jsstring) (g : t) : option LLMResponse * t :=
  let (r, c) :=
    MemoryCache.get toLowerCase now k
      (LLMProvider.constructorName (LLMProvider.config (llmProvider g))) None None
      (cache g) in
  (r, withCache g c).

Definition cacheSet (k : jsstring) (response : LLMResponse) (g : t) : t :=
  withCache g
    (MemoryCache.set toLowerCase estimateEntrySize now k
       (LLMProvider.constructorName (LLMProvider.config (llmProvider g))) response
       None None (cache g)).

Definition generate (prompt : jsstring) (options : GenerationOptions) (g : t)
  : outcome LLMResponse * t :=
  let (r, p) := LLMProvider.generate prompt options (llmProvider g) in
  (r, withProvider g p).

Definition generateExampleValue (type : jsstring) : json :=
  let ty := toLowerCase type in
  if jsstring_eqb ty (js "string") then JStr (js "example-value")
  else if jsstring_eqb ty (js "number") then JNum 42 0
  else if jsstring_eqb ty (js "boolean") then JBool true
  else if jsstring_eqb ty (js "array") then JArr [JStr (js "item1"); JStr (js "item2")]
  else if jsstring_eqb ty (js "object") then JObj [(js "key", JStr (js "value"))]
  else JStr (js "example").

Definition convertToolParameters (tool : MCPTool) : list ParameterDoc :=
  List.map
    (fun param =>
       mkParameterDoc (mcp_name param) (mcp_type param) (mcp_required param)
         (orElse (mcp_description param) (mcp_name param ++ js " parameter"))
         (generateExampleValue (mcp_type param)))
    (tool_parameters tool).

(** [s.replace(/([A-Z])/g, ' $1')] *)
Definition spaceBeforeCapitals (s : jsstring) : jsstring :=
  flat_map (fun c => if ((65 <=? c) && (c <=? 90))%N then [32%N; c] else [c]) s.

Definition generateFallbackToolDoc (tool : MCPTool) : ToolDocumentation :=
  mkToolDocumentation (tool_name tool)
    (orElse (tool_description tool) (js "Tool for " ++ tool_name tool))
    (js "Use this tool to " ++ trim (spaceBeforeCapitals (toLowerCase (tool_name tool))))
    (convertToolParameters tool) [] []
    [js "Validate all required parameters before calling";
     js "Handle errors gracefully";
     js "Use appropriate timeout values"].

(** The structure built from the text of a response that is no usable JSON. *)
Definition docFromText (response : jsstring) (tool : MCPTool) : json :=
  toolDocumentation_toJSON
    (mkToolDocumentation (tool_name tool)
       (orElse (tool_description tool) (js "Tool for " ++ tool_name tool))
       (extractUsageFromResponse h response)
       (convertToolParameters tool) [] []
       (extractBestPracticesFromResponse h response)).

Definition parseToolDocumentation (response : jsstring) (tool : MCPTool) : json :=
  match JSON_parse h response with
  | Returned parsed =>
      match json_prop "toolName" parsed with
      | Returned name =>
          if json_truthy name
          then match json_prop "description" parsed with
               | Returned d => if json_truthy d then parsed else docFromText response tool
               | Thrown => docFromText response tool
               end
          else docFromText response tool
      | Thrown => docFromText response tool
      end
  | Thrown => docFromText response tool
  end.

Definition parseCodeExample (response : jsstring) (tool : MCPTool) (lang : jsstring)
  : CodeExample :=
  mkCodeExample (js "Using " ++ tool_name tool)
    (js "Example usage of the " ++ tool_name tool ++ js " tool")
    (extractCodeBlock h response) lang (extractOutputFromResponse h response).

Definition withContent (response : LLMResponse) (text : jsstring) : LLMResponse :=
  mkResponseValue text (usage response) (model response).

(** The state of a loop: the array being filled and the generator. *)
Definition loopState : Type := list json * t.

(** [`tool-doc-${tool.name}-${tool.description?.substring(0, 50)}`] *)
Definition toolDocKey (tool : MCPTool) : jsstring :=
  js "tool-doc-" ++ tool_name tool ++ js "-"
  ++ match tool_description tool with
     | Some d => substring0 50 d
     | None => js "undefined"
     end.

(** One turn of the loop of generateToolDocumentation.  The outcome is
    [Thrown] when the turn throws out of the method. *)
Definition documentTool (context : GenerationContext) (minifiedSpec : MinifiedSpec)
    (tool : MCPTool) (s : loopState) : outcome unit * loopState :=
  let (toolDocs, g) := s in
  let cacheKey := toolDocKey tool in
  match cacheGet cacheKey g with
  | (Some cached, g) =>
      match JSON_parse h (content cached) with
      | Returned doc => (Returned tt, (toolDocs ++ [doc], g))
      | Thrown => (Thrown, (toolDocs, g))
      end
  | (None, g) =>
      let prompt := renderToolDocPrompt h tool minifiedSpec (language context) in
      match generate prompt (mkOptions 1500 (2, 1%nat)) g with
      | (Returned response, g) =>
          let toolDoc := parseToolDocumentation (content response) tool in
          (Returned tt,
           (toolDocs ++ [toolDoc],
            cacheSet cacheKey (withContent response (stringify toolDoc)) g))
      | (Thrown, g) =>
          (Returned tt,
           (toolDocs ++ [toolDocumentation_toJSON (generateFallbackToolDoc tool)],
            warn g (js "Failed to generate docs for tool " ++ tool_name tool ++ js ":")))
      end
  end.

(** One turn of the loop of generateCodeExamples. *)
Definition exampleForTool (context : GenerationContext) (tool : MCPTool) (s : loopState)
  : outcome unit * loopState :=
  let (examples, g) := s in
  let cacheKey := js "example-" ++ tool_name tool ++ js "-" ++ language context in
  match cacheGet cacheKey g with
  | (Some cached, g) =>
      match JSON_parse h (content cached) with
      | Returned example => (Returned tt, (examples ++ [example], g))
      | Thrown => (Thrown, (examples, g))
      end
  | (None, g) =>
      let prompt := renderExamplePrompt h tool (language context) (projectName context) in
      match generate prompt (mkOptions 800 (4, 1%nat)) g with
      | (Returned response, g) =>
          let example :=
            codeExample_toJSON
              (parseCodeExample (content response) tool (language context)) in
          (Returned tt,
           (examples ++ [example],
            cacheSet cacheKey (withContent response (stringify example)) g))
      | (Thrown, g) =>
          (Returned tt,
           (examples,
            warn g (js "Failed to generate example for tool " ++ tool_name tool
                    ++ js ":")))
      end
  end.

Fixpoint forEach (body : MCPTool -> loopState -> outcome unit * loopState)
    (ts : list MCPTool) (s : loopState) : outcome unit * loopState :=
  match ts with
  | [] => (Returned tt, s)
  | tool :: rest =>
      match body tool s with
      | (Returned _, s) => forEach body rest s
      | (Thrown, s) => (Thrown, s)
      end
  end.

Definition finish (r : outcome unit * loopState) : outcome (list json) * t :=
  match r with
  | (Returned _, (items, g)) => (Returned items, g)
  | (Thrown, (_, g)) => (Thrown, g)
  end.

Definition generateToolDocumentation (context : GenerationContext)
    (minifiedSpec : MinifiedSpec) (g : t) : outcome (list json) * t :=
  finish (forEach (documentTool context minifiedSpec) (tools context) ([], g)).

(** At most [maxExamples = 5] tools. *)
Definition generateCodeExamples (context : GenerationContext)
    (minifiedSpec : MinifiedSpec) (g : t) : outcome (list json) * t :=
  finish (forEach (exampleForTool context) (firstn 5 (tools context)) ([], g)).

(** The shape shared by generateReadme, generateErrorGuide and
    generateApiReference: the cached text, or the generated one (stored),
    or the fallback with a warning. *)
Definition generateText (cacheKey prompt : jsstring) (options : GenerationOptions)
    (fallback warning : jsstring) (g : t) : jsstring * t :=
  match cacheGet cacheKey g with
  | (Some cached, g) => (content cached, g)
  | (None, g) =>
      match generate prompt options g with
      | (Returned response, g) => (content response, cacheSet cacheKey response g)
      | (Thrown, g) => (fallback, warn g warning)
      end
  end.

Definition generateReadme (context : GenerationContext) (minifiedSpec : MinifiedSpec)
    (g : t) : jsstring * t :=
  generateText
    (js "readme-" ++ projectName context ++ js "-" ++ version (info minifiedSpec))
    (renderReadmePrompt h (projectName context) (tools context) minifiedSpec
       (language context))
    (mkOptions 2000 (3, 1%nat))
    (fallbackReadme h (projectName context) (tools context) minifiedSpec)
    (js "Failed to generate enhanced README, using fallback:") g.

Definition generateErrorGuide (context : GenerationContext) (minifiedSpec : MinifiedSpec)
    (g : t) : jsstring * t :=
  generateText (js "error-guide-" ++ projectName context)
    (renderErrorGuidePrompt h (tools context) minifiedSpec (language context))
    (mkOptions 1500 (2, 1%nat))
    (fallbackErrorGuide h (projectName context))
    (js "Failed to generate error guide:") g.

Definition generateApiReference (context : GenerationContext)
    (minifiedSpec : MinifiedSpec) (g : t) : jsstring * t :=
  generateText
    (js "api-ref-" ++ title (info minifiedSpec) ++ js "-" ++ version (info minifiedSpec))
    (renderApiReferencePrompt h (tools context) minifiedSpec (language context))
    (mkOptions 2500 (1, 1%nat))
    (fallbackApiReference h minifiedSpec)
    (js "Failed to generate API reference:") g.

(** [OpenAPIMinifier.minify(context.spec as any)]: the context's
    specification is a compressed one already; read as a document, its path
    array has no entry with HTTP methods and it has no components. *)
Definition minifyAgain (m : MinifiedSpec) : MinifiedSpec :=
  OpenAPIMinifier.minify
    (mkDocument (title (info m)) (version (info m)) (description (info m)) (Some [])
       None).

Definition generateEnhancedDocs (context : GenerationContext) (g : t)
  : outcome EnhancedDocumentation * t :=
  let minifiedSpec := minifyAgain (spec context) in
  let (readme, g) := generateReadme context minifiedSpec g in
  match generateToolDocumentation context minifiedSpec g with
  | (Thrown, g) => (Thrown, g)
  | (Returned toolDocs, g) =>
      match (if includeExamples g then generateCodeExamples context minifiedSpec g
             else (Returned [], g)) with
      | (Thrown, g) => (Thrown, g)
      | (Returned examples, g) =>
          let (errorGuide, g) :=
            if includeErrorCases g then generateErrorGuide context minifiedSpec g
            else ([], g) in
          let (apiReference, g) :=
            if includeApiReference g then generateApiReference context minifiedSpec g
            else ([], g) in
          (Returned (mkDocumentation readme toolDocs examples errorGuide apiReference), g)
      end
  end.

End Runtime.

(** [getStats()]: the statistics of the cache, its hit rate brought up to date. *)
Definition getStats (g : t) : CacheStats * t :=
  let (s, c) := MemoryCache.getStats (cache g) in (s, withCache g c).

End DocumentationGenerator.

(* ================================================================== *)
(** ** The enhancement service (intelligence-service.ts) *)

Module IntelligenceService.

Record Features : Type :=
  mkFeatures {
    documentation : bool;
    examples : bool;
    implementation : bool;
    validation : bool }.

Record Costs : Type :=
  mkCosts {
    maxMonthly : Q;
    alertThreshold : Q }.

Record IntelligenceConfig : Type :=
  mkConfig {
    primary : LLMConfig;
    validator : option LLMConfig;
    local : option LLMConfig;
    features : Features;
    costs : Costs }.

(** [files] is [None] for a project object without that property. *)
Record GeneratedProject : Type :=
  mkProject {
    packageName : jsstring;
    name : option jsstring;
    tools : list MCPTool;
    files : option (list jsstring) }.

(** The options of enhanceProject; [None] is a property left out. *)
Record Options : Type :=
  mkEnhanceOptions {
    opt_enhanceDocumentation : option bool;
    opt_generateExamples : option bool;
    opt_validateImplementation : option bool;
    opt_optimizePerformance : option bool }.

Record Metrics : Type :=
  mkMetrics {
    requestCount : Z;
    successRate : Q;
    totalCost : Q;
    featureUsage : list (jsstring * Z) }.

Record EnhancedProject : Type :=
  mkEnhanced {
    ep_documentation : option DocumentationGenerator.EnhancedDocumentation;
    ep_examples : option json;
    ep_validation : option json;
    ep_optimizations : option json;
    ep_features : list jsstring;
    ep_cost : Q;
    ep_cacheHits : Z }.

Record CostEstimation : Type :=
  mkEstimation {
    estimatedTokens : Q;
    estimatedCost : Q;
    cacheHitProbability : Q }.

(** [options?.x !== false] *)
Definition notDisabled (options : option Options) (x : Options -> option bool) : bool :=
  match options with
  | Some o => match x o with Some false => false | _ => true end
  | None => true
  end.

Section Runtime.

Variable toLowerCase : jsstring -> jsstring.
Variable estimateEntrySize : CacheEntry -> Z.
Variable h : Helpers.
Variable now : Z.

(** The example generator (services/example-generator.ts): its state, its
    generateExamples and the statistics of its cache. *)
Variable ExampleGenerator : Type.
Variable generateExamples :
  DocumentationGenerator.GenerationContext -> ExampleGenerator
  -> outcome json * ExampleGenerator.
Variable exampleStats : ExampleGenerator -> CacheStats.

Record t : Type :=
  mkService {
    config : IntelligenceConfig;
    primaryProvider : LLMProvider.t;
    validatorProvider : option LLMProvider.t;
    localProvider : option LLMProvider.t;
    documentationGenerator : DocumentationGenerator.t;
    exampleGenerator : ExampleGenerator;
    metrics : Metrics;
    console : list jsstring }.

Definition includes (x : string) (l : list jsstring) : bool :=
  existsb (jsstring_eqb (js x)) l.

Definition Qmin (a b : Q) : Q := if Qle_bool a b then a else b.

Definition estimateCacheHitRate (project : GeneratedProject) (requested : list jsstring)
  : Q :=
  let complexityFactor := Qmin (inject_Z (Z.of_nat (length (tools project))) / 10) (4 # 10) in
  let featureBonus := (inject_Z (Z.of_nat (length requested)) * (1 # 10))%Q in
  Qmin ((3 # 10) + complexityFactor + featureBonus) (8 # 10).

(** The pre-flight estimate: no provider is called. *)
Definition estimateEnhancementCost (s : t) (project : GeneratedProject) (spec : Document)
    (requested : list jsstring) : CostEstimation :=
  let baseTokens := inject_Z (tokenCount (OpenAPIMinifier.minify spec)) in
  let estimatedTokens :=
    ((if includes "documentation" requested then baseTokens * 2 else 0)
     + (if includes "examples" requested
        then inject_Z (Z.of_nat (length (tools project))) * 500 else 0)
     + (if includes "validation" requested then baseTokens * (5 # 10) else 0))%Q in
  mkEstimation estimatedTokens
    (LLMProvider.estimateCost (LLMProvider.config (primaryProvider s))
       (estimatedTokens * (7 # 10)) (estimatedTokens * (3 # 10)))
    (estimateCacheHitRate project requested).

Definition withMetrics (s : t) (m : Metrics) : t :=
  mkService (config s) (primaryProvider s) (validatorProvider s) (localProvider s)
    (documentationGenerator s) (exampleGenerator s) m (console s).

Definition logLine (s : t) (message : string) : t :=
  mkService (config s) (primaryProvider s) (validatorProvider s) (localProvider s)
    (documentationGenerator s) (exampleGenerator s) (metrics s)
    (console s ++ [js message]).

Definition trackFeatureUsage (feature : string) (s : t) : t :=
  let m := metrics s in
  withMetrics s
    (mkMetrics (requestCount m) (successRate m) (totalCost m)
       (obj_set (js feature)
          (orDefault (lookup (js feature) (featureUsage m)) 0 + 1) (featureUsage m))).

(** The latency average is left out (it depends on two clock readings). *)
Definition updateMetrics (success : bool) (c : Q) (s : t) : t :=
  let m := metrics s in
  withMetrics s
    (mkMetrics (requestCount m)
       (if success then (successRate m + 1) / 2 else successRate m / 2)%Q
       (totalCost m + c)%Q (featureUsage m)).

(** The validator provider when there is one, else the primary provider;
    the call is made on that instance. *)
Definition validateImplementation (project : GeneratedProject) (s : t)
  : outcome json * t :=
  match files project with
  | None => (Thrown, s) (* Object.keys(undefined), before the try block *)
  | Some fs =>
      let prompt :=
        renderValidationPrompt h (orDefault (name project) (js "undefined"))
          (length (tools project)) (firstn 5 fs) in
      let options := mkOptions 1000 (1, 1%nat) in
      let fallback :=
        JObj [(js "isValid", JBool true); (js "confidence", JNum 5 1);
              (js "issues", JArr []);
              (js "suggestions",
               JArr [JStr (js "Unable to perform automated validation")])] in
      let finish (r : outcome LLMResponse) (s : t) :=
        match r with
        | Returned response =>
            match JSON_parse h (content response) with
            | Returned v => (Returned v, s)
            | Thrown => (Returned fallback, logLine s "Validation failed:")
            end
        | Thrown => (Returned fallback, logLine s "Validation failed:")
        end in
      match validatorProvider s with
      | Some p =>
          let (r, p) := LLMProvider.generate prompt options p in
          finish r
            (mkService (config s) (primaryProvider s) (Some p) (localProvider s)
               (documentationGenerator s) (exampleGenerator s) (metrics s) (console s))
      | None =>
          let (r, p) := LLMProvider.generate prompt options (primaryProvider s) in
          finish r
            (mkService (config s) p (validatorProvider s) (localProvider s)
               (documentationGenerator s) (exampleGenerator s) (metrics s) (console s))
      end
  end.

Definition generateOptimizationHints (project : GeneratedProject) (title : jsstring)
    (s : t) : json * t :=
  let prompt :=
    renderOptimizationPrompt h (orDefault (name project) (js "undefined"))
      (List.map tool_name (tools project)) title in
  let options := mkOptions 800 (3, 1%nat) in
  let finish (r : outcome LLMResponse) (s : t) :=
    match r with
    | Returned response =>
        match JSON_parse h (content response) with
        | Returned v => (v, s)
        | Thrown => (JArr [], logLine s "Optimization analysis failed:")
        end
    | Thrown => (JArr [], logLine s "Optimization analysis failed:")
    end in
  match localProvider s with
  | Some p =>
      let (r, p) := LLMProvider.generate prompt options p in
      finish r
        (mkService (config s) (primaryProvider s) (validatorProvider s) (Some p)
           (documentationGenerator s) (exampleGenerator s) (metrics s) (console s))
  | None =>
      let (r, p) := LLMProvider.generate prompt options (primaryProvider s) in
      finish r
        (mkService (config s) p (validatorProvider s) (localProvider s)
           (documentationGenerator s) (exampleGenerator s) (metrics s) (console s))
  end.

(** The body of the [try] block of enhanceProject, step by step; [e] is the
    result being filled. *)
Definition documentationStep (options : option Options)
    (context : DocumentationGenerator.GenerationContext) (es : EnhancedProject * t)
  : outcome unit * (EnhancedProject * t) :=
  let (e, s) := es in
  if documentation (features (config s)) && notDisabled options opt_enhanceDocumentation
  then
    let s := trackFeatureUsage "documentation" s in
    match DocumentationGenerator.generateEnhancedDocs toLowerCase estimateEntrySize h
            now context (documentationGenerator s) with
    | (Thrown, g) =>
        (Thrown,
         (e, mkService (config s) (primaryProvider s) (validatorProvider s)
               (localProvider s) g (exampleGenerator s) (metrics s) (console s)))
    | (Returned docs, g) =>
        let (stats, g) := DocumentationGenerator.getStats g in
        (Returned tt,
         (mkEnhanced (Some docs) (ep_examples e) (ep_validation e) (ep_optimizations e)
            (ep_features e ++ [js "enhanced-documentation"])
            (ep_cost e + costSavings stats)%Q (ep_cacheHits e + hits stats),
          mkService (config s) (primaryProvider s) (validatorProvider s)
            (localProvider s) g (exampleGenerator s) (metrics s) (console s)))
    end
  else (Returned tt, es).

Definition examplesStep (options : option Options)
    (context : DocumentationGenerator.GenerationContext) (es : EnhancedProject * t)
  : outcome unit * (EnhancedProject * t) :=
  let (e, s) := es in
  if examples (features (config s)) && notDisabled options opt_generateExamples
  then
    let s := trackFeatureUsage "examples" s in
    match generateExamples context (exampleGenerator s) with
    | (Thrown, g) =>
        (Thrown,
         (e, mkService (config s) (primaryProvider s) (validatorProvider s)
               (localProvider s) (documentationGenerator s) g (metrics s) (console s)))
    | (Returned ex, g) =>
        (Returned tt,
         (mkEnhanced (ep_documentation e) (Some ex) (ep_validation e)
            (ep_optimizations e) (ep_features e ++ [js "code-examples"]) (ep_cost e)
            (ep_cacheHits e + hits (exampleStats g)),
          mkService (config s) (primaryProvider s) (validatorProvider s)
            (localProvider s) (documentationGenerator s) g (metrics s) (console s)))
    end
  else (Returned tt, es).

Definition validationStep (options : option Options) (project : GeneratedProject)
    (es : EnhancedProject * t) : outcome unit * (EnhancedProject * t) :=
  let (e, s) := es in
  if validation (features (config s)) && notDisabled options opt_validateImplementation
  then
    match validateImplementation project (trackFeatureUsage "validation" s) with
    | (Thrown, s) => (Thrown, (e, s))
    | (Returned v, s) =>
        (Returned tt,
         (mkEnhanced (ep_documentation e) (ep_examples e) (Some v) (ep_optimizations e)
            (ep_features e ++ [js "implementation-validation"]) (ep_cost e)
            (ep_cacheHits e), s))
    end
  else (Returned tt, es).

Definition optimizationStep (options : option Options) (project : GeneratedProject)
    (title : jsstring) (es : EnhancedProject * t) : EnhancedProject * t :=
  let (e, s) := es in
  if implementation (features (config s)) && notDisabled options opt_optimizePerformance
  then
    let (v, s) :=
      generateOptimizationHints project title (trackFeatureUsage "optimization" s) in
    (mkEnhanced (ep_documentation e) (ep_examples e) (ep_validation e) (Some v)
       (ep_features e ++ [js "performance-optimization"]) (ep_cost e) (ep_cacheHits e),
     s)
  else es.

(** [catch (error) { updateMetrics(false); console.error(...); throw error }] *)
Definition rethrow (s : t) : outcome EnhancedProject * t :=
  (Thrown, logLine (updateMetrics false 0 s) "Intelligence enhancement failed:").

Definition enhanceProject (project : GeneratedProject) (spec : Document)
    (options : option Options) (s : t) : outcome EnhancedProject * t :=
  let m := metrics s in
  let s :=
    withMetrics s
      (mkMetrics (requestCount m + 1) (successRate m) (totalCost m) (featureUsage m)) in
  let minified := OpenAPIMinifier.minify spec in
  let context :=
    DocumentationGenerator.mkContext (packageName project) (tools project)
      (js "typescript") minified in
  let enhanced := mkEnhanced None None None None [] 0 0 in
  match documentationStep options context (enhanced, s) with
  | (Thrown, (_, s)) => rethrow s
  | (Returned _, es) =>
      match examplesStep options context es with
      | (Thrown, (_, s)) => rethrow s
      | (Returned _, es) =>
          match validationStep options project es with
          | (Thrown, (_, s)) => rethrow s
          | (Returned _, es) =>
              let (e, s) := optimizationStep options project (title (info minified)) es in
              (Returned e, updateMetrics true (ep_cost e) s)
          end
      end
  end.

(** The same service under another cost configuration. *)
Definition withCosts (s : t) (c : Costs) : t :=
  mkService
    (mkConfig (primary (config s)) (validator (config s)) (local (config s))
       (features (config s)) c)
    (primaryProvider s) (validatorProvider s) (localProvider s)
    (documentationGenerator s) (exampleGenerator s) (metrics s) (console s).

(** A step's result, seen under another cost configuration. *)
Definition recost {A B} (c : Costs) (r : A * (B * t))
  : A * (B * t) :=
  (fst r, (fst (snd r), withCosts (snd (snd r)) c)).

(** Every call of [generate] made so far through the service's providers
    and through its documentation generator. *)
Definition providerCalls (s : t) : list Call :=
  LLMProvider.calls (primaryProvider s)
  ++ match validatorProvider s with Some p => LLMProvider.calls p | None => [] end
  ++ match localProvider s with Some p => LLMProvider.calls p | None => [] end
  ++ LLMProvider.calls (DocumentationGenerator.llmProvider (documentationGenerator s)).

End Runtime.
End IntelligenceService.


(* ================================================================== *)
(** ** Measures of a serialization, and induction over nested values *)

(** The characters a list of pieces takes when every piece is followed by
    a one-character separator. *)
Definition pieces_len (l : list jsstring) : nat :=
  fold_right (fun x n => (length x + 1 + n)%nat) 0%nat l.

Definition jlen (j : json) : nat := length (stringify j).

Definition piece (kv : jsstring * json) : jsstring :=
  quoteJSON (fst kv) ++ 58%N :: stringify (snd kv).

(** Characters of the members of an object, separators included. *)
Definition olen (kvs : list (jsstring * json)) : nat :=
  pieces_len (List.map piece kvs).

(** Characters of the elements of an array, separators included. *)
Definition alen (xs : list json) : nat :=
  pieces_len (List.map stringify xs).

Section JsonInduction.
Variable P : json -> Prop.
Hypothesis Hnull : P JNull.
Hypothesis Hbool : forall b, P (JBool b).
Hypothesis Hnum : forall m e, P (JNum m e).
Hypothesis Hstr : forall s, P (JStr s).
Hypothesis Harr : forall xs, Forall P xs -> P (JArr xs).
Hypothesis Hobj : forall kvs, Forall (fun kv => P (snd kv)) kvs -> P (JObj kvs).

Fixpoint json_induction (j : json) : P j :=
  match j with
  | JNull => Hnull
  | JBool b => Hbool b
  | JNum m e => Hnum m e
  | JStr s => Hstr s
  | JArr xs =>
      Harr xs ((fix go (l : list json) : Forall P l :=
                  match l with
                  | [] => Forall_nil P
                  | x :: r => Forall_cons x (json_induction x) (go r)
                  end) xs)
  | JObj kvs =>
      Hobj kvs ((fix go (l : list (jsstring * json))
                   : Forall (fun kv => P (snd kv)) l :=
                   match l with
                   | [] => Forall_nil _
                   | kv :: r => Forall_cons kv (json_induction (snd kv)) (go r)
                   end) kvs)
  end.
End JsonInduction.

Section SchemaInduction.
Variable P : MinifiedSchema -> Prop.
Hypothesis Hschema :
  forall ty rf props items req en fmt,
    (forall ps, props = Some ps -> Forall (fun kv => P (snd kv)) ps) ->
    (forall i, items = Some i -> P i) ->
    P (mkSchema ty rf props items req en fmt).

Fixpoint schema_induction (s : MinifiedSchema) : P s :=
  match s with
  | mkSchema ty rf props items req en fmt =>
      Hschema ty rf props items req en fmt
        (match props as o
               return forall ps, o = Some ps -> Forall (fun kv => P (snd kv)) ps with
         | Some l =>
             fun ps (E : Some l = Some ps) =>
               match E in _ = y
                     return match y with
                            | Some ps' => Forall (fun kv => P (snd kv)) ps'
                            | None => True
                            end with
               | eq_refl =>
                   (fix go (l : list (jsstring * MinifiedSchema))
                      : Forall (fun kv => P (snd kv)) l :=
                      match l with
                      | [] => Forall_nil _
                      | kv :: r => Forall_cons kv (schema_induction (snd kv)) (go r)
                      end) l
               end
         | None => fun ps E => match E with end
         end)
        (match items as o return forall i, o = Some i -> P i with
         | Some i0 =>
             fun i (E : Some i0 = Some i) =>
               match E in _ = y
                     return match y with Some i' => P i' | None => True end with
               | eq_refl => schema_induction i0
               end
         | None => fun i E => match E with end
         end)
  end.
End SchemaInduction.

(* ================================================================== *)
(** ** Sample inputs *)

Module Samples.
Import OpenAPIMinifier.

(** A document with a title and a version only. *)
Definition doc_ab : Document := mkDocument (js "ab") (js "1") None None None.

(** A specification whose recorded count (5) understates its size. *)
Definition spec_understated : MinifiedSpec :=
  mkSpec (mkInfo (js "ab") (js "1") None) [] [] 5.

Definition xs (n : nat) : jsstring := repeat 120%N n.

(** One path with three descriptions of 500 characters each: of the
    document, of the operation's parameter, and of its response. *)
Definition doc_pets : Document :=
  mkDocument (js "Pets") (js "1.0") (Some (xs 500))
    (Some [(js "/pets",
            Some [(js "get",
                   Some (mkOperationObject (Some (js "listPets")) (Some (xs 201))
                           (Some [Obj (mkParameterObject (js "limit") (js "query")
                                         (Some false)
                                         (Some (Schema (Some (js "integer")) None None
                                                  None None None))
                                         (Some (xs 500)))])
                           None
                           [(js "200", Obj (mkResponseObject (Some (xs 500)) None))]))])])
    None.

(** A stand-in for [JSON.stringify(entry).length] on sample runs. *)
Definition entrySize (e : CacheEntry) : Z :=
  150 + Z.of_nat (length (content (value e))).

Definition response (text : string) (c : Q) : LLMResponse :=
  mkResponseValue (js text) (mkUsage 10 20 30 c) (js "gpt-4").

Definition askWeather : MemoryCache.request :=
  MemoryCache.mkRequest (js "Get Weather") (js "OpenAIProvider") None None
    (response "sunny" (3 # 1000)).

Definition askTime : MemoryCache.request :=
  MemoryCache.mkRequest (js "What time is it?") (js "OpenAIProvider") None None
    (response "noon" (1 # 1000)).

Definition askName : MemoryCache.request :=
  MemoryCache.mkRequest (js "Who are you?") (js "OpenAIProvider") None None
    (response "a server" (2 # 1000)).

(** A store that holds statistics saved by an earlier process. *)
Definition savedStats : CacheStats := mkStats 10 5 5 (1 # 2) (3 # 100) 40.

Definition storeWithStats : SemanticCache.Redis :=
  SemanticCache.mkRedis false
    [(SemanticCache.statsKey, (SemanticCache.StoredStats savedStats, None))] [].

(** An open client with one entry stored, 40 characters accounted for, and
    a store whose next command fails. *)
Definition failingCache : SemanticCache.t :=
  SemanticCache.mkCache
    (SemanticCache.mkRedis true
       [(SemanticCache.generateKey asciiLowerCase (js "Get Weather")
           (js "OpenAIProvider") (Some defaultTemperature) None,
         (SemanticCache.StoredEntry
            (mkEntry (js "k") (response "sunny" (3 # 1000))
               (mkMetadata 1000 1000 0 (3 # 1000))),
          Some 3601000))]
       [true])
    (mkStats 3 1 2 0 (3 # 1000) 40) 3600 [].

(** A client that is not connected yet, and a store that cannot be reached. *)
Definition unreachable : SemanticCache.t :=
  SemanticCache.create (SemanticCache.mkRedis false [] [true]) None.

(** Stand-ins for the templates and regular expressions: a prompt is the
    task's name and the tool's, no text parses as JSON, and a response is
    taken whole. *)
Definition helpers : Helpers :=
  mkHelpers (fun _ => Thrown)
    (fun tool _ _ => js "document " ++ tool_name tool)
    (fun tool _ _ => js "example for " ++ tool_name tool)
    (fun r => r) (fun _ => []) (fun r => r) (fun _ => None)
    (fun p _ _ _ => js "readme for " ++ p)
    (fun _ _ _ => js "error guide")
    (fun _ _ _ => js "api reference")
    (fun p _ _ => js "# " ++ p)
    (fun p => js "# Error Handling Guide")
    (fun _ => js "# API Reference")
    (fun p _ _ => js "review " ++ p)
    (fun p _ _ => js "optimize " ++ p).

Definition tool (n : string) : MCPTool :=
  mkTool (js n) (Some (js "A tool"))
    [mkMCPParameter (js "city") (js "string") None true].

Definition threeTools : list MCPTool := [tool "getWeather"; tool "getTime"; tool "getName"].

Definition gpt4 : LLMConfig := mkLLMConfig OpenAI (Some (js "gpt-4")).

(** A generator with an empty cache whose provider answers the first call,
    throws on the second, and answers the third. *)
Definition generator : DocumentationGenerator.t :=
  DocumentationGenerator.mkGenerator
    (LLMProvider.mkProvider gpt4
       [Returned (response "first" (1 # 1000)); Thrown;
        Returned (response "third" (1 # 1000))] [])
    (MemoryCache.create None None) true true true true [].

Definition context : DocumentationGenerator.GenerationContext :=
  DocumentationGenerator.mkContext (js "pets") threeTools (js "typescript")
    (OpenAPIMinifier.minify doc_pets).

(** A service limited to one cent, with documentation as its only feature;
    every call of its providers is answered. *)
Definition answered : LLMProvider.t :=
  LLMProvider.mkProvider gpt4 (repeat (Returned (response "text" (1 # 1000))) 10) [].

Definition service : IntelligenceService.t unit :=
  IntelligenceService.mkService unit
    (IntelligenceService.mkConfig gpt4 None None
       (IntelligenceService.mkFeatures true false false false)
       (IntelligenceService.mkCosts (1 # 100) (8 # 10)))
    answered None None
    (DocumentationGenerator.mkGenerator answered (MemoryCache.create None None)
       false true true true [])
    tt (IntelligenceService.mkMetrics 0 0 0 []) [].

Definition project : IntelligenceService.GeneratedProject :=
  IntelligenceService.mkProject (js "pets") None [tool "listPets"] None.

End Samples.

(* ================================================================== *)
(** ** Notions used to state properties of the compressor *)

(** Some object of the value, at any depth, has a [description] key. *)
Fixpoint hasDescription (j : json) : bool :=
  match j with
  | JArr xs => existsb hasDescription xs
  | JObj kvs =>
      existsb
        (fun kv => jsstring_eqb (fst kv) (js "description") || hasDescription (snd kv))
        kvs
  | _ => false
  end.

(** [estimateTokens(JSON.stringify(path))], summed over a list of paths. *)
Definition pathsTokens (l : list MinifiedPath) : Z :=
  fold_right (fun p n => estimateTokens (stringify (path_toJSON p)) + n) 0 l.

(** Paths in the order of their priority, highest first. *)
Fixpoint descending (l : list MinifiedPath) : Prop :=
  match l with
  | [] => True
  | p :: rest =>
      Forall (fun q => OpenAPIMinifier.pathScore q <= OpenAPIMinifier.pathScore p) rest
      /\ descending rest
  end.

(* ================================================================== *)
(** ** Notions used to state properties of the caches *)

(** The sizes, as the cache estimates them, of the entries that are expired
    at [now]. *)
Definition expiredSize (estimateEntrySize : CacheEntry -> Z) (c : MemoryCache.t)
    (now : Z) (l : list (jsstring * CacheEntry)) : Z :=
  fold_right
    (fun kv n =>
       if MemoryCache.isEntryValid c now (snd kv) then n
       else estimateEntrySize (snd kv) + n)
    0 l.


(* ================================================================== *)
(** ** The normal form of a prompt, as the specification words it *)

(** The words of a prompt: its maximal runs of code units that are not
    white space.  [word] is the run being read. *)
Fixpoint words_from (word s : jsstring) : list jsstring :=
  match s with
  | [] => match word with [] => [] | _ :: _ => [word] end
  | c :: rest =>
      if is_whitespace c
      then match word with
           | [] => words_from [] rest
           | _ :: _ => word :: words_from [] rest
           end
      else words_from (word ++ [c]) rest
  end.

Definition words (s : jsstring) : list jsstring := words_from [] s.

(** A prompt trimmed, every maximal run of white space in it collapsed to
    a single space, and lower-cased: its words joined by single spaces, in
    lower case. *)
Definition normalForm (toLowerCase : jsstring -> jsstring) (prompt : jsstring)
  : jsstring :=
  toLowerCase (join [32%N] (words prompt)).

(* ================================================================== *)
(** ** The shared cache: saving the statistics and closing the client *)

Module SemanticCacheLifecycle.
Import SemanticCache.

(** [set(key, value)]: the key is stored without a time to live. *)
Definition redis_set (k : jsstring) (v : stored) (r : Redis) : outcome unit * Redis :=
  let (failed, r) := command r in
  if failed then (Thrown, r)
  else (Returned tt, mkRedis (isOpen r) (map_set k (v, None) (store r)) (faults r)).

(** [disconnect()], and [quit()], close the client. *)
Definition redis_disconnect (r : Redis) : outcome unit * Redis :=
  let (failed, r) := command r in
  if failed then (Thrown, r)
  else (Returned tt, mkRedis false (store r) (faults r)).

Definition saveStats (c : t) : t :=
  let c := withStats c (MemoryCache.updateHitRate (stats c)) in
  match redis_set statsKey (StoredStats (stats c)) (redis c) with
  | (Thrown, r) => logError (withRedis c r) "Error saving cache stats:"
  | (Returned _, r) => withRedis c r
  end.

(** [disconnect()]: when closing fails the error is logged and [quit()] is
    called without being awaited, so that its own failure is not seen. *)
Definition disconnect (c : t) : t :=
  if isOpen (redis c)
  then
    let c := saveStats c in
    match redis_disconnect (redis c) with
    | (Returned _, r) => withRedis c r
    | (Thrown, r) =>
        let c := logError (withRedis c r) "Error during Redis disconnect:" in
        withRedis c (snd (redis_disconnect (redis c)))
    end
  else c.

(** *** prune *)

(** What [get(k)] returns at time [now]. *)
Definition held (now : Z) (r : Redis) (k : jsstring) : option stored :=
  option_map fst (lookup k (filter (live now) (store r))).

(** What [keys(keyPrefix + '*')] returns at time [now]. *)
Definition keysOf (now : Z) (r : Redis) : list jsstring :=
  List.map fst
    (filter (fun kv => live now kv && starts_with keyPrefix (fst kv)) (store r)).

(** The loop over the keys: a value that parses is pushed with its key; one
    that does not parse is deleted; an empty one is passed over. *)
Fixpoint collectEntries (now : Z) (ks : list jsstring)
    (entries : list (jsstring * stored)) (r : Redis)
  : outcome (list (jsstring * stored)) * Redis :=
  match ks with
  | [] => (Returned entries, r)
  | k :: rest =>
      match redis_get now k r with
      | (Thrown, r) => (Thrown, r)
      | (Returned None, r) => collectEntries now rest entries r
      | (Returned (Some v), r) =>
          if stored_truthy v
          then match v with
               | StoredText _ =>
                   match redis_del [k] r with
                   | (Thrown, r) => (Thrown, r)
                   | (Returned _, r) => collectEntries now rest entries r
                   end
               | _ => collectEntries now rest (entries ++ [(k, v)]) r
               end
          else collectEntries now rest entries r
      end
  end.

Definition lastAccess (x : jsstring * CacheEntry) : Z := accessed (metadata (snd x)).

Fixpoint insertByAccess (x : jsstring * CacheEntry) (l : list (jsstring * CacheEntry))
  : list (jsstring * CacheEntry) :=
  match l with
  | [] => [x]
  | y :: rest =>
      if lastAccess x <=? lastAccess y then x :: y :: rest
      else y :: insertByAccess x rest
  end.

(** The stable sort by time of last access, oldest first. *)
Definition sortByAccess (l : list (jsstring * CacheEntry)) : list (jsstring * CacheEntry) :=
  fold_right insertByAccess [] l.

Fixpoint oldestFirst (l : list (jsstring * CacheEntry)) : Prop :=
  match l with
  | [] => True
  | x :: rest =>
      Forall (fun y => lastAccess x <= lastAccess y) rest /\ oldestFirst rest
  end.

Fixpoint entriesOnly (l : list (jsstring * stored)) : option (list (jsstring * CacheEntry)) :=
  match l with
  | [] => Some []
  | (k, StoredEntry e) :: rest => option_map (cons (k, e)) (entriesOnly rest)
  | _ => None
  end.

(** [entries.sort(...)], of which the keys are used afterwards.  The
    comparison reads [entry.metadata.accessed] on both sides, and throws on
    a value that has no metadata, as the saved statistics; fewer than two
    items are not compared. *)
Definition sortEntries (l : list (jsstring * stored)) : outcome (list jsstring) :=
  match l with
  | [] => Returned []
  | [(k, _)] => Returned [k]
  | _ =>
      match entriesOnly l with
      | Some es => Returned (List.map fst (sortByAccess es))
      | None => Thrown
      end
  end.

(** [a.slice(0, end)]: a negative [end] counts from the end of the array. *)
Definition slice_to {A} (end_ : Z) (l : list A) : list A :=
  let len := Z.of_nat (length l) in
  firstn (Z.to_nat (if end_ <? 0 then Z.max (len + end_) 0 else Z.min end_ len)) l.

Definition prune (now : Z) (maxEntries : option Z) (c : t) : awaited unit * t :=
  afterConnect now c (fun c =>
      match redis_keys now keyPrefix (redis c) with
      | (Thrown, r) => (Returned tt, logError (withRedis c r) "Cache prune error:")
      | (Returned ks, r) =>
          match maxEntries with
          | None => (Returned tt, withRedis c r)
          | Some n =>
              if negb (n =? 0) && (n <? Z.of_nat (length ks))
              then
                match collectEntries now ks [] r with
                | (Thrown, r) =>
                    (Returned tt, logError (withRedis c r) "Cache prune error:")
                | (Returned entries, r) =>
                    match sortEntries entries with
                    | Thrown =>
                        (Returned tt, logError (withRedis c r) "Cache prune error:")
                    | Returned sorted =>
                        match slice_to (Z.of_nat (length sorted) - n) sorted with
                        | [] => (Returned tt, withRedis c r)
                        | keysToRemove =>
                            match redis_del keysToRemove r with
                            | (Thrown, r) =>
                                (Returned tt,
                                 logError (withRedis c r) "Cache prune error:")
                            | (Returned _, r) => (Returned tt, withRedis c r)
                            end
                        end
                    end
                end
              else (Returned tt, withRedis c r)
          end
      end).

(** The keys among [ks] that hold an entry at time [now], with the entry,
    and those that hold a text that does not parse. *)
Definition entriesAt (now : Z) (r : Redis) (ks : list jsstring)
  : list (jsstring * CacheEntry) :=
  flat_map (fun k => match held now r k with
                     | Some (StoredEntry e) => [(k, e)]
                     | _ => []
                     end) ks.

Definition holdsText (now : Z) (r : Redis) (k : jsstring) : bool :=
  match held now r k with
  | Some (StoredText s) => truthy s
  | _ => false
  end.

(** Every value under the prefix is an entry or a text that does not parse
    (and is not empty). *)
Definition entriesOrText (now : Z) (r : Redis) : Prop :=
  forall k, In k (keysOf now r) ->
    (exists e, held now r k = Some (StoredEntry e)) \/ holdsText now r k = true.

End SemanticCacheLifecycle.

(* ================================================================== *)
(** ** The shared cache: sequences of calls *)

Module SemanticCacheCalls.
Import SemanticCache.

Section Runtime.

Variable toLowerCase : jsstring -> jsstring.
Variable estimateEntrySize : CacheEntry -> Z.

Definition keyOf (r : MemoryCache.request) : jsstring :=
  SemanticCache.generateKey toLowerCase (MemoryCache.req_prompt r)
    (MemoryCache.req_model r)
    (Some (orDefault (MemoryCache.req_temperature r) defaultTemperature))
    (MemoryCache.req_params r).

(** Calls of [set] (with no [ttl]) and of [get], awaited one after the
    other, each with the clock reading it sees; a call that throws or does
    not settle ends the sequence. *)
Fixpoint setAll (calls : list (Z * MemoryCache.request)) (c : t) : t :=
  match calls with
  | [] => c
  | call :: rest =>
      match SemanticCache.set toLowerCase estimateEntrySize (fst call)
              (MemoryCache.req_prompt (snd call)) (MemoryCache.req_model (snd call))
              (MemoryCache.req_response (snd call))
              (MemoryCache.req_temperature (snd call))
              (MemoryCache.req_params (snd call)) None c with
      | (Settled (Returned _), c) => setAll rest c
      | (_, c) => c
      end
  end.

Fixpoint getAll (calls : list (Z * MemoryCache.request)) (c : t) : t :=
  match calls with
  | [] => c
  | call :: rest =>
      match SemanticCache.get toLowerCase (fst call)
              (MemoryCache.req_prompt (snd call)) (MemoryCache.req_model (snd call))
              (MemoryCache.req_temperature (snd call))
              (MemoryCache.req_params (snd call)) c with
      | (Settled (Returned _), c) => getAll rest c
      | (_, c) => c
      end
  end.

End Runtime.

End SemanticCacheCalls.

(* ================================================================== *)
(** ** Notions used to state properties of the generator *)

(** The entries that the cache holds for the documentation of the tools
    [ts], under the provider's name, hold a serialized JSON value as their
    content, as generateToolDocumentation stores them.  Nothing is asked of
    the other entries, such as the text generateReadme stores. *)
Definition toolDocsAreJSON (toLowerCase : jsstring -> jsstring) (ts : list MCPTool)
    (name : jsstring) (c : MemoryCache.t) : Prop :=
  forall tool e,
    In tool ts ->
    In (MemoryCache.generateKey toLowerCase (DocumentationGenerator.toolDocKey tool)
          name (Some defaultTemperature) None, e)
       (MemoryCache.cache c) ->
    exists j, content (value e) = stringify j.

(* ================================================================== *)
(** ** Notions used to state properties of the providers *)

(** The names every object inherits from Object.prototype.  A table written
    as an object literal finds a function (or the prototype itself) under
    such a name, and not a table entry. *)
Definition onPrototype (name : jsstring) : bool :=
  existsb (jsstring_eqb name)
    [js "constructor"; js "__proto__"; js "hasOwnProperty"; js "isPrototypeOf";
     js "propertyIsEnumerable"; js "toLocaleString"; js "toString"; js "valueOf";
     js "__defineGetter__"; js "__defineSetter__"; js "__lookupGetter__";
     js "__lookupSetter__"].

(** Two metrics agree on everything but the usage counts of the features. *)
Definition sameCounters (m m' : IntelligenceService.Metrics) : Prop :=
  IntelligenceService.requestCount m' = IntelligenceService.requestCount m
  /\ IntelligenceService.successRate m' = IntelligenceService.successRate m
  /\ IntelligenceService.totalCost m' = IntelligenceService.totalCost m.

(* ================================================================== *)
(** ** More sample values *)

Module MoreSamples.

(** A cache of capacity 2 holding the answer to one request, set at
    time 1000. *)
Definition oneEntry : MemoryCache.t :=
  MemoryCache.setAll asciiLowerCase Samples.entrySize [(1000, Samples.askWeather)]
    (MemoryCache.create (Some 2) None).

(** The same cache after a second request was answered at time 1001. *)
Definition twoEntries : MemoryCache.t :=
  MemoryCache.setAll asciiLowerCase Samples.entrySize
    [(1000, Samples.askWeather); (1001, Samples.askTime)]
    (MemoryCache.create (Some 2) None).

(** A generator with an empty cache whose provider fails on every call. *)
Definition offline : DocumentationGenerator.t :=
  DocumentationGenerator.mkGenerator
    (LLMProvider.mkProvider Samples.gpt4 [Thrown; Thrown] [])
    (MemoryCache.create None None) true true true true [].

(** The sample templates with a JSON.parse that accepts every text (and
    reads it as a string). *)
Definition lenient : Helpers :=
  mkHelpers (fun s => Returned (JStr s))
    (renderToolDocPrompt Samples.helpers) (renderExamplePrompt Samples.helpers)
    (extractUsageFromResponse Samples.helpers)
    (extractBestPracticesFromResponse Samples.helpers)
    (extractCodeBlock Samples.helpers) (extractOutputFromResponse Samples.helpers)
    (renderReadmePrompt Samples.helpers) (renderErrorGuidePrompt Samples.helpers)
    (renderApiReferencePrompt Samples.helpers) (fallbackReadme Samples.helpers)
    (fallbackErrorGuide Samples.helpers) (fallbackApiReference Samples.helpers)
    (renderValidationPrompt Samples.helpers)
    (renderOptimizationPrompt Samples.helpers).

(** The sample generator once generateReadme has run: the provider's first
    answer, which is no JSON, is in the cache as the README. *)
Definition afterReadme : DocumentationGenerator.t :=
  snd (DocumentationGenerator.generateReadme asciiLowerCase Samples.entrySize lenient
         1000 Samples.context (OpenAPIMinifier.minify Samples.doc_pets)
         Samples.generator).

(** The document built from the answer "first" for the tool getWeather,
    and the sample templates with a JSON.parse that reads that document
    back from its serialization (and rejects every other text). *)
Definition weatherDoc : json :=
  DocumentationGenerator.docFromText asciiLowerCase Samples.helpers (js "first")
    (Samples.tool "getWeather").

Definition reading : Helpers :=
  mkHelpers
    (fun s => if jsstring_eqb s (stringify weatherDoc) then Returned weatherDoc
              else Thrown)
    (renderToolDocPrompt Samples.helpers) (renderExamplePrompt Samples.helpers)
    (extractUsageFromResponse Samples.helpers)
    (extractBestPracticesFromResponse Samples.helpers)
    (extractCodeBlock Samples.helpers) (extractOutputFromResponse Samples.helpers)
    (renderReadmePrompt Samples.helpers) (renderErrorGuidePrompt Samples.helpers)
    (renderApiReferencePrompt Samples.helpers) (fallbackReadme Samples.helpers)
    (fallbackErrorGuide Samples.helpers) (fallbackApiReference Samples.helpers)
    (renderValidationPrompt Samples.helpers)
    (renderOptimizationPrompt Samples.helpers).

(** An entry of the shared store that was last read at time [t], and an
    open client of a store that executes every command. *)
Definition entryReadAt (t : Z) : SemanticCache.stored :=
  SemanticCache.StoredEntry
    (mkEntry (js "k") (Samples.response "sunny" (3 # 1000))
       (mkMetadata 0 t 0 (3 # 1000))).

Definition clientOf (l : list (jsstring * (SemanticCache.stored * option Z)))
  : SemanticCache.t :=
  SemanticCache.mkCache (SemanticCache.mkRedis true l []) freshStats 3600 [].

Definition threeEntries : SemanticCache.t :=
  clientOf [(js "mcpgen:cache:a", (entryReadAt 30, None));
            (js "mcpgen:cache:b", (entryReadAt 10, None));
            (js "mcpgen:cache:c", (entryReadAt 20, None))].

(** The same store after statistics were saved. *)
Definition withStatistics : SemanticCache.t :=
  clientOf [(js "mcpgen:cache:a", (entryReadAt 30, None));
            (js "mcpgen:cache:b", (entryReadAt 10, None));
            (js "mcpgen:cache:c", (entryReadAt 20, None));
            (SemanticCache.statsKey, (SemanticCache.StoredStats freshStats, None))].

(** Two entries and two texts that do not parse. *)
Definition withBrokenValues : SemanticCache.t :=
  clientOf [(js "mcpgen:cache:a", (entryReadAt 30, None));
            (js "mcpgen:cache:x", (SemanticCache.StoredText (js "oops"), None));
            (js "mcpgen:cache:b", (entryReadAt 10, None));
            (js "mcpgen:cache:y", (SemanticCache.StoredText (js "{"), None))].

End MoreSamples.


(* ================================================================== *)
(** * Properties *)

(** ** Strings and JSON *)

Lemma jsstring_eqb_eq (a b : jsstring) : jsstring_eqb a b = true <-> a = b.
Proof.
  revert b. induction a as [|x a IH]; intros [|y b]; simpl; split;
    try congruence; try discriminate.
  - intros H. apply andb_true_iff in H as [Hx Hab].
    apply N.eqb_eq in Hx. apply IH in Hab. congruence.
  - intros H. injection H as -> ->. rewrite N.eqb_refl. now apply IH.
Qed.

Lemma jsstring_eqb_refl (a : jsstring) : jsstring_eqb a a = true.
Proof. now apply jsstring_eqb_eq. Qed.

Example stringify_sample :
  stringify (JObj [(js "a", JArr [JNum 7 1; JNum (-12) 0; JBool true; JNull]);
                   (js "b", JStr [104; 34; 10; 233]%N)])
  = [123; 34; 97; 34; 58; 91; 48; 46; 55; 44; 45; 49; 50; 44; 116; 114; 117; 101;
     44; 110; 117; 108; 108; 93; 44; 34; 98; 34; 58; 34; 104; 92; 34; 92; 110;
     233; 34; 125]%N.
Proof. reflexivity. Qed.


(** *** The length of a serialization *)

Local Open Scope nat_scope.

Lemma pieces_len_app (a b : list jsstring) :
  pieces_len (a ++ b) = pieces_len a + pieces_len b.
Proof. induction a as [|x a IH]; simpl; [reflexivity | rewrite IH; lia]. Qed.

Lemma join_length (c : N) (l : list jsstring) :
  length (join [c] l) = pred (pieces_len l).
Proof.
  induction l as [|x [|y r] IH].
  - reflexivity.
  - simpl. lia.
  - change (join [c] (x :: y :: r)) with (x ++ [c] ++ join [c] (y :: r)).
    rewrite !length_app, IH. simpl. lia.
Qed.

Lemma pieces_len_perm (l l' : list jsstring) :
  Permutation l l' -> pieces_len l = pieces_len l'.
Proof. induction 1; simpl; lia. Qed.

Lemma pieces_len_length (l : list jsstring) : length l <= pieces_len l.
Proof. induction l; simpl; lia. Qed.

Lemma pieces_len_firstn (k : nat) (l : list jsstring) :
  pieces_len (firstn k l) + (length l - k) <= pieces_len l.
Proof.
  revert k. induction l as [|x l IH]; intros [|k]; simpl; try lia.
  - pose proof (pieces_len_length l). lia.
  - specialize (IH k). lia.
Qed.

Lemma jlen_obj (kvs : list (jsstring * json)) :
  jlen (JObj kvs) = 2 + pred (olen kvs).
Proof.
  unfold jlen, olen.
  change (stringify (JObj kvs))
    with ((123%N :: join [44%N] (List.map piece kvs)) ++ [125%N]).
  rewrite length_app. cbn [length]. rewrite join_length. lia.
Qed.

Lemma jlen_arr (xs : list json) : jlen (JArr xs) = 2 + pred (alen xs).
Proof.
  unfold jlen, alen.
  change (stringify (JArr xs))
    with ((91%N :: join [44%N] (List.map stringify xs)) ++ [93%N]).
  rewrite length_app. cbn [length]. rewrite join_length. lia.
Qed.

Lemma olen_app (a b : list (jsstring * json)) : olen (a ++ b) = olen a + olen b.
Proof. unfold olen. now rewrite map_app, pieces_len_app. Qed.

Lemma olen_cons (k : jsstring) (v : json) (r : list (jsstring * json)) :
  olen ((k, v) :: r) = length (quoteJSON k) + jlen v + 2 + olen r.
Proof.
  unfold olen. cbn [List.map]. unfold pieces_len at 1. cbn [fold_right].
  fold (pieces_len (List.map piece r)). unfold piece at 1, jlen.
  cbn [fst snd]. rewrite length_app. cbn [length]. lia.
Qed.

Lemma alen_cons (x : json) (r : list json) : alen (x :: r) = jlen x + 1 + alen r.
Proof. reflexivity. Qed.

Lemma olen_nil : olen [] = 0.
Proof. reflexivity. Qed.

Lemma estimateTokens_mono (a b : jsstring) :
  length a <= length b -> (estimateTokens a <= estimateTokens b)%Z.
Proof.
  intros H. unfold estimateTokens. apply Z.div_le_mono; lia.
Qed.

(** ** The specification compressor *)

Module MinifierFacts.
Import OpenAPIMinifier.

(** *** Stage 1: removing descriptions *)

Lemma dropDescription_app {A B} (f : A -> B) (a b : list (jsstring * A)) :
  dropDescription f (a ++ b) = dropDescription f a ++ dropDescription f b.
Proof.
  induction a as [|kv a IH]; [reflexivity|].
  cbn [app dropDescription]. destruct (jsstring_eqb (fst kv) (js "description")).
  - exact IH.
  - cbn [app]. now rewrite <- IH.
Qed.

Lemma dropDescription_field (f : json -> json) (k : string) (v : json) :
  jsstring_eqb (js k) (js "description") = false ->
  dropDescription f (field k v) = field k (f v).
Proof. intros H. unfold field. cbn [dropDescription fst snd]. now rewrite H. Qed.

Lemma dropDescription_optfield {A} (f : json -> json) (k : string)
    (g g' : A -> json) (o : option A) :
  jsstring_eqb (js k) (js "description") = false ->
  (forall a, o = Some a -> f (g a) = g' a) ->
  dropDescription f (optfield k g o) = optfield k g' o.
Proof.
  intros H Hg. destruct o as [a|]; [|reflexivity].
  unfold optfield. cbn [dropDescription fst snd]. rewrite H.
  now rewrite (Hg a eq_refl).
Qed.

Lemma dropDescription_description {A} (f : json -> json) (g : A -> json) (o : option A) :
  dropDescription f (optfield "description" g o) = [].
Proof. now destruct o. Qed.

Lemma dropDescription_map {A} (g : A -> json) (h : A -> A) (l : list (jsstring * A)) :
  Forall (fun kv => g (h (snd kv)) = removeDescriptionsRecursive (g (snd kv))) l ->
  List.map (fun kv => (fst kv, g (snd kv))) (dropDescription h l)
  = dropDescription removeDescriptionsRecursive
      (List.map (fun kv => (fst kv, g (snd kv))) l).
Proof.
  induction 1 as [|kv l Hkv _ IH]; [reflexivity|].
  cbn [List.map dropDescription fst snd].
  destruct (jsstring_eqb (fst kv) (js "description")); [exact IH|].
  cbn [List.map fst snd]. now rewrite Hkv, IH.
Qed.

Lemma removeDescriptionsRecursive_strings (l : list jsstring) :
  removeDescriptionsRecursive (strings_toJSON l) = strings_toJSON l.
Proof.
  unfold strings_toJSON. cbn [removeDescriptionsRecursive].
  rewrite map_map. reflexivity.
Qed.

Lemma removeDescriptionsRecursive_obj (kvs : list (jsstring * json)) :
  removeDescriptionsRecursive (JObj kvs)
  = JObj (dropDescription removeDescriptionsRecursive kvs).
Proof. reflexivity. Qed.

Ltac drop_fields :=
  rewrite removeDescriptionsRecursive_obj; f_equal;
  rewrite ?dropDescription_app.

(** The typed walk is the generic one, seen through the serialization. *)
Lemma cleanSchema_toJSON (s : MinifiedSchema) :
  schema_toJSON (cleanSchema s) = removeDescriptionsRecursive (schema_toJSON s).
Proof.
  induction s as [ty rf props items req en fmt IHp IHi] using schema_induction.
  cbn [cleanSchema schema_toJSON]. drop_fields.
  rewrite (dropDescription_field _ "type") by reflexivity.
  rewrite (dropDescription_optfield _ "ref" JStr JStr) by (reflexivity || easy).
  rewrite (dropDescription_optfield _ "required" strings_toJSON strings_toJSON)
    by (reflexivity || (intros; apply removeDescriptionsRecursive_strings)).
  rewrite (dropDescription_optfield _ "format" JStr JStr) by (reflexivity || easy).
  f_equal. f_equal. f_equal; [|f_equal; [|f_equal]].
  - destruct props as [ps|]; [|reflexivity].
    rewrite (dropDescription_field _ "properties") by reflexivity.
    rewrite removeDescriptionsRecursive_obj.
    now rewrite (dropDescription_map schema_toJSON cleanSchema ps (IHp ps eq_refl)).
  - destruct items as [i|]; [|reflexivity].
    rewrite (dropDescription_field _ "items") by reflexivity.
    now rewrite (IHi i eq_refl).
  - destruct en as [l|]; reflexivity.
Qed.

Lemma cleanParameter_toJSON (p : MinifiedParameter) :
  parameter_toJSON (cleanParameter p) = removeDescriptionsRecursive (parameter_toJSON p).
Proof.
  unfold parameter_toJSON, cleanParameter. cbn [param_name param_in param_required
    param_type param_description]. drop_fields.
  rewrite (dropDescription_field _ "name"), (dropDescription_field _ "in"),
    (dropDescription_field _ "type") by reflexivity.
  rewrite (dropDescription_optfield _ "required" JBool JBool) by (reflexivity || easy).
  now rewrite dropDescription_description.
Qed.

Lemma cleanRequestBody_toJSON (b : MinifiedRequestBody) :
  requestBody_toJSON (cleanRequestBody b)
  = removeDescriptionsRecursive (requestBody_toJSON b).
Proof.
  unfold requestBody_toJSON, cleanRequestBody. cbn [body_required body_schema].
  drop_fields.
  rewrite (dropDescription_field _ "schema") by reflexivity.
  rewrite (dropDescription_optfield _ "required" JBool JBool) by (reflexivity || easy).
  now rewrite cleanSchema_toJSON.
Qed.

Lemma cleanResponse_toJSON (r : MinifiedResponse) :
  response_toJSON (cleanResponse r) = removeDescriptionsRecursive (response_toJSON r).
Proof.
  unfold response_toJSON, cleanResponse. cbn [resp_description resp_schema].
  drop_fields. rewrite dropDescription_description.
  destruct (resp_schema r) as [s|]; [|reflexivity].
  cbn [option_map optfield dropDescription fst snd app].
  replace (jsstring_eqb (js "schema") (js "description")) with false by reflexivity.
  now rewrite cleanSchema_toJSON.
Qed.

Lemma cleanOperation_toJSON (o : MinifiedOperation) :
  operation_toJSON (cleanOperation o)
  = removeDescriptionsRecursive (operation_toJSON o).
Proof.
  unfold operation_toJSON, cleanOperation.
  cbn [method operationId summary parameters requestBody responses].
  drop_fields.
  rewrite (dropDescription_field _ "method"), (dropDescription_field _ "responses")
    by reflexivity.
  rewrite (dropDescription_optfield _ "operationId" JStr JStr),
    (dropDescription_optfield _ "summary" JStr JStr) by (reflexivity || easy).
  f_equal. f_equal. f_equal. f_equal; [|f_equal].
  - destruct (parameters o) as [ps|]; [|reflexivity].
    cbn [option_map optfield dropDescription fst snd].
    replace (jsstring_eqb (js "parameters") (js "description")) with false
      by reflexivity.
    cbn [removeDescriptionsRecursive]. rewrite !map_map.
    now rewrite (map_ext _ _ cleanParameter_toJSON).
  - destruct (requestBody o) as [b|]; [|reflexivity].
    cbn [option_map optfield dropDescription fst snd].
    replace (jsstring_eqb (js "requestBody") (js "description")) with false
      by reflexivity.
    now rewrite cleanRequestBody_toJSON.
  - rewrite removeDescriptionsRecursive_obj. unfold field. do 3 f_equal.
    apply (dropDescription_map response_toJSON cleanResponse).
    apply Forall_forall. intros kv _. apply cleanResponse_toJSON.
Qed.

Lemma cleanPath_toJSON (p : MinifiedPath) :
  path_toJSON (cleanPath p) = removeDescriptionsRecursive (path_toJSON p).
Proof.
  unfold path_toJSON, cleanPath. cbn [path operations]. drop_fields.
  rewrite (dropDescription_field _ "path"), (dropDescription_field _ "operations")
    by reflexivity.
  cbn [removeDescriptionsRecursive]. rewrite !map_map.
  now rewrite (map_ext _ _ cleanOperation_toJSON).
Qed.

Lemma removeDescriptions_toJSON (m : MinifiedSpec) :
  spec_toJSON (removeDescriptions m) = removeDescriptionsRecursive (spec_toJSON m).
Proof.
  unfold spec_toJSON, removeDescriptions. cbn [info paths schemas tokenCount].
  drop_fields.
  rewrite (dropDescription_field _ "info"), (dropDescription_field _ "paths"),
    (dropDescription_field _ "schemas"), (dropDescription_field _ "tokenCount")
    by reflexivity.
  f_equal; [|f_equal; [|f_equal]].
  - unfold info_toJSON, cleanInfo. cbn [title version description].
    rewrite removeDescriptionsRecursive_obj, ?dropDescription_app.
    rewrite (dropDescription_field _ "title"), (dropDescription_field _ "version")
      by reflexivity.
    now rewrite dropDescription_description.
  - cbn [removeDescriptionsRecursive]. rewrite !map_map.
    now rewrite (map_ext _ _ cleanPath_toJSON).
  - unfold schemas_toJSON. rewrite removeDescriptionsRecursive_obj.
    unfold field. do 3 f_equal.
    apply (dropDescription_map schema_toJSON cleanSchema).
    apply Forall_forall. intros kv _. apply cleanSchema_toJSON.
Qed.


Lemma dropDescription_olen (f : json -> json) (kvs : list (jsstring * json)) :
  Forall (fun kv => jlen (f (snd kv)) <= jlen (snd kv)) kvs ->
  olen (dropDescription f kvs) <= olen kvs.
Proof.
  induction 1 as [|[k v] kvs Hkv _ IH]; [reflexivity|].
  cbn [dropDescription fst snd] in *.
  destruct (jsstring_eqb k (js "description")); rewrite ?olen_cons; lia.
Qed.

Lemma alen_map_le (f : json -> json) (xs : list json) :
  Forall (fun x => jlen (f x) <= jlen x) xs ->
  alen (List.map f xs) <= alen xs.
Proof.
  induction 1 as [|x xs Hx _ IH]; [reflexivity|].
  cbn [List.map]. rewrite !alen_cons. lia.
Qed.

(** Deleting keys never lengthens the serialization of a JSON value. *)
Lemma removeDescriptionsRecursive_jlen (j : json) :
  jlen (removeDescriptionsRecursive j) <= jlen j.
Proof.
  induction j as [| | | |xs IH|kvs IH] using json_induction; try reflexivity.
  - cbn [removeDescriptionsRecursive]. rewrite !jlen_arr.
    pose proof (alen_map_le _ xs IH). lia.
  - rewrite removeDescriptionsRecursive_obj, !jlen_obj.
    pose proof (dropDescription_olen _ kvs IH). lia.
Qed.

Lemma removeDescriptions_estimate (m : MinifiedSpec) :
  (tokenEstimate (removeDescriptions m) <= tokenEstimate m)%Z.
Proof.
  unfold tokenEstimate. apply estimateTokens_mono.
  rewrite removeDescriptions_toJSON. apply removeDescriptionsRecursive_jlen.
Qed.

(** *** Stage 2: simplifying schemas *)

Lemma olen_field (k : string) (v : json) :
  olen (field k v) = length (quoteJSON (js k)) + jlen v + 2.
Proof. unfold field. rewrite olen_cons, olen_nil. lia. Qed.

Lemma quoteJSON_length_ge (s : jsstring) : 2 <= length (quoteJSON s).
Proof. unfold quoteJSON. rewrite length_app. simpl. lia. Qed.

Lemma olen_firstn (k : nat) (kvs : list (jsstring * json)) :
  olen (firstn k kvs) + (length kvs - k) <= olen kvs.
Proof.
  unfold olen. rewrite <- firstn_map.
  pose proof (pieces_len_firstn k (List.map piece kvs)) as H.
  now rewrite length_map in H.
Qed.

Lemma simplifySchema_jlen (s : MinifiedSchema) :
  jlen (schema_toJSON (simplifySchema s)) <= jlen (schema_toJSON s).
Proof.
  destruct s as [ty rf props items req en fmt]. unfold simplifySchema.
  cbn [s_properties]. destruct props as [ps|]; [|reflexivity].
  destruct (Nat.ltb_spec 10 (length ps)) as [Hlen|]; [|reflexivity].
  cbn [schema_toJSON]. rewrite !jlen_obj, !olen_app, !olen_field.
  cbn [optfield app]. rewrite !olen_nil, !jlen_obj.
  set (g := fun kv : jsstring * MinifiedSchema => (fst kv, schema_toJSON (snd kv))).
  rewrite <- firstn_map.
  pose proof (olen_firstn 5 (List.map g ps)) as H. rewrite length_map in H.
  pose proof (quoteJSON_length_ge ty).
  pose proof (pieces_len_length (List.map piece (firstn 5 (List.map g ps)))) as H5.
  rewrite length_map, length_firstn, length_map in H5.
  fold (olen (firstn 5 (List.map g ps))) in H5.
  change (jlen (JStr ty)) with (length (quoteJSON ty)).
  change (jlen (JStr (js "object"))) with 8.
  lia.
Qed.

Lemma olen_map_le {A} (g : A -> json) (h : A -> A) (l : list (jsstring * A)) :
  (forall a, jlen (g (h a)) <= jlen (g a)) ->
  olen (List.map (fun kv => (fst kv, g (snd kv)))
          (List.map (fun kv => (fst kv, h (snd kv))) l))
  <= olen (List.map (fun kv => (fst kv, g (snd kv))) l).
Proof.
  intros H. induction l as [|[k a] l IH]; [reflexivity|].
  cbn [List.map fst snd]. rewrite !olen_cons. specialize (H a). lia.
Qed.

Lemma simplifySchemas_estimate (m : MinifiedSpec) :
  (tokenEstimate (simplifySchemas m) <= tokenEstimate m)%Z.
Proof.
  unfold tokenEstimate. apply estimateTokens_mono. fold (jlen (spec_toJSON m)).
  fold (jlen (spec_toJSON (simplifySchemas m))).
  unfold spec_toJSON, simplifySchemas. cbn [info paths schemas tokenCount].
  rewrite !jlen_obj, !olen_app, !olen_field. unfold schemas_toJSON.
  rewrite !jlen_obj.
  pose proof (olen_map_le schema_toJSON simplifySchema (schemas m)
                simplifySchema_jlen).
  lia.
Qed.

(** *** Stage 3: reducing operations *)

Lemma insertPath_perm (p : MinifiedPath) (l : list MinifiedPath) :
  Permutation (insertPath p l) (p :: l).
Proof.
  induction l as [|q l IH]; [reflexivity|].
  cbn [insertPath]. destruct (pathScore p <? pathScore q)%Z; [|reflexivity].
  rewrite IH. apply perm_swap.
Qed.

Lemma sortPaths_perm (l : list MinifiedPath) : Permutation (sortPaths l) l.
Proof.
  induction l as [|p l IH]; [reflexivity|].
  cbn [sortPaths fold_right]. fold (sortPaths l).
  rewrite insertPath_perm. now constructor.
Qed.

(** The kept paths are an initial segment of the sorted ones. *)
Lemma keepPaths_prefix (maxTokens cur : Z) (l : list MinifiedPath) :
  exists k, keepPaths maxTokens cur l = firstn k l.
Proof.
  revert cur. induction l as [|p l IH]; intros cur.
  - now exists 0.
  - cbn [keepPaths].
    destruct (_ <=? _)%Z.
    + destruct (IH (cur + estimateTokens (stringify (path_toJSON p)))%Z) as [k Hk].
      exists (S k). cbn [firstn]. now rewrite Hk.
    + now exists 0.
Qed.

Lemma alen_firstn (k : nat) (xs : list json) : alen (firstn k xs) <= alen xs.
Proof.
  unfold alen. rewrite <- firstn_map.
  pose proof (pieces_len_firstn k (List.map stringify xs)). lia.
Qed.

Lemma reduceOperations_estimate (m : MinifiedSpec) (maxTokens : Z) :
  (tokenEstimate (reduceOperations m maxTokens) <= tokenEstimate m)%Z.
Proof.
  unfold tokenEstimate. apply estimateTokens_mono. fold (jlen (spec_toJSON m)).
  fold (jlen (spec_toJSON (reduceOperations m maxTokens))).
  unfold spec_toJSON, reduceOperations. cbn [info paths schemas tokenCount].
  rewrite !jlen_obj, !olen_app, !olen_field, !jlen_arr.
  match goal with |- context [keepPaths ?a ?b ?c] =>
    destruct (keepPaths_prefix a b c) as [k ->] end.
  pose proof (alen_firstn k (List.map path_toJSON (sortPaths (paths m)))) as H.
  rewrite firstn_map in H.
  assert (E : alen (List.map path_toJSON (sortPaths (paths m)))
              = alen (List.map path_toJSON (paths m))).
  { unfold alen. apply pieces_len_perm. do 2 apply Permutation_map.
    apply sortPaths_perm. }
  lia.
Qed.


(** *** optimizeForTokenLimit *)

Lemma withTokenCount_same (m : MinifiedSpec) : withTokenCount m (tokenCount m) = m.
Proof. now destruct m. Qed.

(** C1, as amended.  Each stage (description removal, schema
    simplification, path reduction) never increases the estimate
    [estimateTokens(JSON.stringify(spec))].  A specification whose
    [tokenCount] is within the budget is returned unchanged.  Otherwise the
    result is the output [r] of the first stage whose estimate fits the
    budget, or of the last stage when none fits (no error is raised), with
    [tokenCount] set to the estimate of [r]; that count is at most the
    estimate of the serialized input. *)
Theorem optimizeForTokenLimit_monotone (m : MinifiedSpec) (maxTokens : Z) :
  ((tokenEstimate (removeDescriptions m) <= tokenEstimate m)%Z
   /\ (tokenEstimate (simplifySchemas m) <= tokenEstimate m)%Z
   /\ (tokenEstimate (reduceOperations m maxTokens) <= tokenEstimate m)%Z)
  /\ ((tokenCount m <= maxTokens)%Z -> optimizeForTokenLimit m maxTokens = m)
  /\ ((maxTokens < tokenCount m)%Z ->
      exists r,
        optimizeForTokenLimit m maxTokens = withTokenCount r (tokenEstimate r)
        /\ (tokenCount (optimizeForTokenLimit m maxTokens) <= tokenEstimate m)%Z
        /\ ((r = removeDescriptions m /\ (tokenEstimate r <= maxTokens)%Z)
            \/ (r = simplifySchemas (removeDescriptions m)
                /\ (maxTokens < tokenEstimate (removeDescriptions m))%Z
                /\ (tokenEstimate r <= maxTokens)%Z)
            \/ (r = reduceOperations (simplifySchemas (removeDescriptions m)) maxTokens
                /\ (maxTokens < tokenEstimate (removeDescriptions m))%Z
                /\ (maxTokens
                    < tokenEstimate (simplifySchemas (removeDescriptions m)))%Z))).
Proof.
  split; [|split].
  - auto using removeDescriptions_estimate, simplifySchemas_estimate,
      reduceOperations_estimate.
  - intros H. unfold optimizeForTokenLimit.
    now destruct (Z.leb_spec (tokenCount m) maxTokens); [|lia].
  - intros H. unfold optimizeForTokenLimit.
    destruct (Z.leb_spec (tokenCount m) maxTokens) as [|_]; [lia|].
    pose proof (removeDescriptions_estimate m) as H1.
    pose proof (simplifySchemas_estimate (removeDescriptions m)) as H2.
    pose proof (reduceOperations_estimate
                  (simplifySchemas (removeDescriptions m)) maxTokens) as H3.
    cbv zeta.
    destruct (Z.leb_spec (tokenEstimate (removeDescriptions m)) maxTokens) as [F1|F1];
      [|destruct (Z.leb_spec (tokenEstimate (simplifySchemas (removeDescriptions m)))
                             maxTokens) as [F2|F2]];
      eexists; (split; [reflexivity|]); cbn [withTokenCount tokenCount];
      (split; [lia|]); auto.
Qed.

(** The amended statement at a specification that is over its budget. *)
Lemma optimizeForTokenLimit_monotone_witness :
  exists r,
    optimizeForTokenLimit (minify Samples.doc_pets) 50
    = withTokenCount r (tokenEstimate r)
    /\ (tokenCount (optimizeForTokenLimit (minify Samples.doc_pets) 50)
        <= tokenEstimate (minify Samples.doc_pets))%Z.
Proof.
  destruct (proj2 (proj2 (optimizeForTokenLimit_monotone
                            (minify Samples.doc_pets) 50)))
    as (r & E & H & _).
  - vm_compute. reflexivity.
  - exists r. split; assumption.
Defined.

(** C1 as stated fails: the count recorded by [minify] is 19, the count
    after optimizing for a budget of 10 is 20; and for a specification whose
    recorded count understates its size, the estimate of the output's
    serialization (20) exceeds the one of the input's (19). *)
Lemma optimizeForTokenLimit_count_can_grow :
  (tokenCount (minify Samples.doc_ab)
   < tokenCount (optimizeForTokenLimit (minify Samples.doc_ab) 10))%Z
  /\ (tokenEstimate Samples.spec_understated
      < tokenEstimate (optimizeForTokenLimit Samples.spec_understated 1))%Z.
Proof. split; vm_compute; reflexivity. Qed.

(** Scenario A: three long descriptions and a budget of 50.  The output
    has no description left, its count does not exceed the estimate of the
    input, and the budget is still exceeded. *)
Example scenario_A :
  let m := minify Samples.doc_pets in
  let r := optimizeForTokenLimit m 50 in
  tokenCount m = 220%Z
  /\ description (info r) = None
  /\ paths r = []
  /\ tokenCount r = 21%Z.
Proof. vm_compute. repeat split. Qed.

(** *** The recorded token count *)

Lemma tokenEstimate_pos (m : MinifiedSpec) : (0 < tokenEstimate m)%Z.
Proof.
  unfold tokenEstimate, estimateTokens. fold (jlen (spec_toJSON m)).
  unfold spec_toJSON. rewrite jlen_obj.
  apply Z.div_str_pos. lia.
Qed.

(** [minify] records the estimate of the specification serialized with
    [tokenCount: 0]. *)
Lemma minify_tokenCount (spec : Document) :
  tokenCount (minify spec) = tokenEstimate (withTokenCount (minify spec) 0).
Proof. reflexivity. Qed.

(** C3 fails for minifyForOperation: whatever the input, the recorded
    count is the placeholder 0, and the estimate of the returned
    specification's serialization is positive. *)
Theorem minifyForOperation_tokenCount (spec : Document) (operationIds : list jsstring) :
  tokenCount (minifyForOperation spec operationIds) = 0%Z
  /\ (0 < tokenEstimate (minifyForOperation spec operationIds))%Z.
Proof. split; [reflexivity | apply tokenEstimate_pos]. Qed.

(** For [minify] the recorded count is the estimate taken before the count
    was stored: 19 here, against 20 for the returned object's own
    serialization (77 characters). *)
Example minify_count_of_placeholder :
  tokenCount (minify Samples.doc_ab) = 19%Z
  /\ length (stringify (spec_toJSON (minify Samples.doc_ab))) = 77
  /\ tokenEstimate (minify Samples.doc_ab) = 20%Z.
Proof. vm_compute. repeat split. Qed.

(** *** Truncation *)

Lemma truncateDescription_length (d : option jsstring) (maxLength : nat) (r : jsstring) :
  truncateDescription d maxLength = Some r ->
  length r <= maxLength + 3
  /\ (forall s, d = Some s -> length s <= maxLength -> r = s)
  /\ (forall s, d = Some s -> maxLength < length s -> length r = maxLength + 3).
Proof.
  unfold truncateDescription. destruct d as [s|]; [|discriminate].
  destruct (truthy s); [|discriminate].
  destruct (Nat.ltb_spec maxLength (length s)) as [H|H]; intros [= <-].
  - unfold substring0. rewrite length_app, length_firstn.
    change (length (js "...")) with 3.
    split; [lia|]. split; intros s' [= <-] ?; lia.
  - split; [lia|]. split; intros s' [= <-] ?; [reflexivity | lia].
Qed.

(** C9 fails as stated: a summary of 201 characters and descriptions of 500
    characters come out of [minify] with 203, 53 and 103 characters (the cut
    at the limit, followed by three dots). *)
Theorem truncation_overshoots :
  List.map
    (fun o =>
       (option_map (@length N) (summary o),
        List.map (fun p => option_map (@length N) (param_description p))
          (orEmpty (parameters o)),
        List.map (fun r => option_map (@length N) (resp_description (snd r)))
          (responses o)))
    (flat_map operations (paths (minify Samples.doc_pets)))
  = [(Some 203, [Some 53], [Some 103])].
Proof. vm_compute. reflexivity. Qed.

End MinifierFacts.

(** ** The response cache *)

Module CacheFacts.

(** *** Key derivation *)

Lemma sha256_hex_length (s : jsstring) : length (SHA256.sha256_hex s) = 64.
Proof.
  unfold SHA256.sha256_hex, SHA256.digest_hex. rewrite !length_app.
  reflexivity.
Qed.

(** *** The normal form of a prompt *)

Lemma trimStart_rev_snoc (s : jsstring) (c : N) :
  is_whitespace c = false ->
  trimStart (rev s ++ [c]) = trimStart (rev s) ++ [c].
Proof.
  intros Hc. induction (rev s) as [|x l IH]; cbn [app trimStart].
  - now rewrite Hc.
  - destruct (is_whitespace x); [exact IH | reflexivity].
Qed.

(** [trim] keeps a leading code unit that is not white space, and goes
    through the leading white space. *)
Lemma trim_keep (c : N) (s : jsstring) :
  is_whitespace c = false -> trim (c :: s) = c :: rev (trimStart (rev s)).
Proof.
  intros Hc. unfold trim. cbn [trimStart]. rewrite Hc. cbn [rev].
  rewrite (trimStart_rev_snoc s c Hc), rev_app_distr. reflexivity.
Qed.

Lemma trim_skip (c : N) (s : jsstring) :
  is_whitespace c = true -> trim (c :: s) = trim s.
Proof. intros Hc. unfold trim. cbn [trimStart]. now rewrite Hc. Qed.

Lemma trimStart_rev_space (s : jsstring) (c : N) :
  is_whitespace c = true ->
  trimStart (rev s ++ [c])
  = match trimStart (rev s) with [] => [] | _ :: _ => trimStart (rev s) ++ [c] end.
Proof.
  intros Hc. induction (rev s) as [|x l IH]; cbn [app trimStart].
  - now rewrite Hc.
  - destruct (is_whitespace x); [exact IH | reflexivity].
Qed.

(** What is left of [s] without its trailing white space, after a run of
    white space ([inRun]) or after something else. *)
Lemma collapse_trimEnd_cons (inRun : bool) (c : N) (s : jsstring) :
  collapseWhitespace inRun (rev (trimStart (rev (c :: s))))
  = if is_whitespace c
    then match rev (trimStart (rev s)) with
         | [] => []
         | _ :: _ =>
             (if inRun then [] else [32%N])
             ++ collapseWhitespace true (rev (trimStart (rev s)))
         end
    else c :: collapseWhitespace false (rev (trimStart (rev s))).
Proof.
  cbn [rev]. destruct (is_whitespace c) eqn:Hc.
  - rewrite (trimStart_rev_space s c Hc).
    destruct (trimStart (rev s)) as [|x l] eqn:E; [reflexivity|].
    rewrite rev_app_distr. cbn [rev app collapseWhitespace]. rewrite Hc.
    destruct (rev l ++ [x]) eqn:E'; [now destruct (rev l)|].
    now destruct inRun.
  - rewrite (trimStart_rev_snoc s c Hc), rev_app_distr.
    cbn [rev app collapseWhitespace]. now rewrite Hc.
Qed.

Lemma trimStart_nil (s : jsstring) :
  trimStart s = [] <-> forallb is_whitespace s = true.
Proof.
  induction s as [|c s IH]; cbn [trimStart forallb]; [easy|].
  destruct (is_whitespace c); cbn [andb]; [exact IH | easy].
Qed.

Lemma forallb_rev {A} (f : A -> bool) (l : list A) :
  forallb f (rev l) = forallb f l.
Proof.
  induction l as [|a l IH]; [reflexivity|].
  cbn [rev forallb]. rewrite forallb_app, IH. cbn [forallb].
  now rewrite andb_true_r, andb_comm.
Qed.

Lemma trimEnd_nil (s : jsstring) :
  rev (trimStart (rev s)) = [] <-> forallb is_whitespace s = true.
Proof.
  rewrite <- (forallb_rev is_whitespace s), <- trimStart_nil.
  split; [|now intros ->].
  intros H. apply (f_equal (@rev N)) in H. now rewrite rev_involutive in H.
Qed.

Lemma words_from_word (word s : jsstring) :
  word <> [] -> words_from word s <> [].
Proof.
  revert word. induction s as [|c s IH]; intros word Hw; cbn [words_from].
  - now destruct word.
  - destruct (is_whitespace c); [now destruct word|].
    apply IH. now destruct word.
Qed.

Lemma words_nil (s : jsstring) :
  words_from [] s = [] <-> forallb is_whitespace s = true.
Proof.
  induction s as [|c s IH]; cbn [words_from forallb]; [easy|].
  destruct (is_whitespace c); cbn [andb app]; [exact IH|].
  split; [|easy]. intros H. now apply words_from_word in H.
Qed.

Lemma join_cons (sep x : jsstring) (l : list jsstring) :
  join sep (x :: l) = x ++ match l with [] => [] | _ :: _ => sep ++ join sep l end.
Proof. destruct l; cbn [join]; [now rewrite app_nil_r | reflexivity]. Qed.

(** The words joined by single spaces are the prompt without its white
    space at the end, with runs collapsed, read after a word or after white
    space. *)
Lemma join_words_from (s : jsstring) :
  forall word,
    join [32%N] (words_from word s)
    = match word with
      | [] => collapseWhitespace true (rev (trimStart (rev s)))
      | _ :: _ => word ++ collapseWhitespace false (rev (trimStart (rev s)))
      end.
Proof.
  induction s as [|c s IH]; intros word.
  - destruct word; cbn; [reflexivity | now rewrite app_nil_r].
  - cbn [words_from]. rewrite !collapse_trimEnd_cons.
    destruct (is_whitespace c) eqn:Hc.
    + specialize (IH []). cbn beta iota in IH.
      destruct (rev (trimStart (rev s))) as [|x l] eqn:E.
      * assert (Hw : words_from [] s = [])
          by now apply words_nil, trimEnd_nil.
        rewrite Hw. destruct word; cbn; [reflexivity | now rewrite app_nil_r].
      * destruct word as [|w word].
        -- rewrite IH. reflexivity.
        -- rewrite join_cons, IH.
           destruct (words_from [] s) eqn:Hw; [|reflexivity].
           apply words_nil, trimEnd_nil in Hw. congruence.
    + rewrite (IH (word ++ [c])).
      destruct word as [|w word]; cbn [app]; [reflexivity|].
      now rewrite <- app_assoc.
Qed.

Lemma collapse_trim (s : jsstring) :
  collapseWhitespace false (trim s)
  = collapseWhitespace true (rev (trimStart (rev s))).
Proof.
  induction s as [|c s IH]; [reflexivity|].
  rewrite collapse_trimEnd_cons. destruct (is_whitespace c) eqn:Hc.
  - rewrite (trim_skip c s Hc), IH.
    now destruct (rev (trimStart (rev s))).
  - rewrite (trim_keep c s Hc). cbn [collapseWhitespace]. now rewrite Hc.
Qed.

(** The code's normalization is the specification's normal form. *)
Lemma normalizePrompt_normalForm (toLowerCase : jsstring -> jsstring) (p : jsstring) :
  normalizePrompt toLowerCase p = normalForm toLowerCase p.
Proof.
  unfold normalizePrompt, normalForm, words.
  now rewrite collapse_trim, (join_words_from p []).
Qed.

(** White space around a prompt, and the length of a run of white space
    inside it, do not change its words. *)
Lemma words_from_space (w s : jsstring) :
  w <> [] -> forallb is_whitespace w = true ->
  forall word,
    words_from word (w ++ s)
    = match word with [] => [] | _ :: _ => [word] end ++ words_from [] s.
Proof.
  intros Hne Hw word. destruct w as [|c w]; [easy|].
  cbn [forallb] in Hw. apply andb_true_iff in Hw as [Hc Hw].
  cbn [app words_from]. rewrite Hc.
  assert (H : words_from [] (w ++ s) = words_from [] s).
  { clear Hne Hc. induction w as [|d w IH]; [reflexivity|].
    cbn [forallb] in Hw. apply andb_true_iff in Hw as [Hd Hw].
    cbn [app words_from]. rewrite Hd. now apply IH. }
  rewrite H. now destruct word.
Qed.

Lemma words_from_app (a s s' : jsstring) :
  (forall word, words_from word s = words_from word s') ->
  forall word, words_from word (a ++ s) = words_from word (a ++ s').
Proof.
  intros H. induction a as [|c a IH]; intros word; [apply H|].
  cbn [app words_from]. now rewrite !IH.
Qed.

Lemma words_run (a w w' b : jsstring) :
  w <> [] -> forallb is_whitespace w = true ->
  w' <> [] -> forallb is_whitespace w' = true ->
  words (a ++ w ++ b) = words (a ++ w' ++ b).
Proof.
  intros H1 H2 H3 H4. unfold words. apply words_from_app.
  intros word. now rewrite !words_from_space.
Qed.

Lemma words_around (w p w' : jsstring) :
  forallb is_whitespace w = true -> forallb is_whitespace w' = true ->
  words (w ++ p ++ w') = words p.
Proof.
  intros Hw Hw'. unfold words.
  assert (H : forall word, words_from word (p ++ w') = words_from word p).
  { intros word. rewrite <- (app_nil_r p) at 2. revert word.
    apply words_from_app. intros word.
    destruct w' as [|c w']; [reflexivity|].
    rewrite <- (app_nil_r (c :: w')).
    rewrite (words_from_space (c :: w') []) by easy. cbn [words_from].
    destruct word; [reflexivity | now rewrite app_nil_r]. }
  destruct w as [|c w]; [apply H|].
  rewrite (words_from_space (c :: w)) by easy. apply H.
Qed.

(** C2.  Prompts with the same normal form in the specification's sense
    (trimmed, every maximal run of white space collapsed to a single space,
    lower-cased), with the same model and parameters, get the same key from
    both caches; the key has a fixed length (64 hex digits, 77 characters
    with the shared cache's prefix); keys differ only when the normal form
    of the prompt, the model or the parameters differ; and in particular
    white space around a prompt, and the length and the kind of a run of
    white space inside it, make no difference to the key. *)
Theorem generateKey_normalized
    (toLowerCase : jsstring -> jsstring) (p1 p2 model : jsstring)
    (temperature : option (Z * nat))
    (additionalParams : option (list (jsstring * json))) :
  normalForm toLowerCase p1 = normalForm toLowerCase p2 ->
  (MemoryCache.generateKey toLowerCase p1 model temperature additionalParams
   = MemoryCache.generateKey toLowerCase p2 model temperature additionalParams
   /\ SemanticCache.generateKey toLowerCase p1 model temperature additionalParams
      = SemanticCache.generateKey toLowerCase p2 model temperature additionalParams)
  /\ (length (MemoryCache.generateKey toLowerCase p1 model temperature additionalParams)
      = 64
      /\ length (SemanticCache.generateKey toLowerCase p1 model temperature
                   additionalParams) = 77)
  /\ (forall model' temperature' additionalParams',
        (MemoryCache.generateKey toLowerCase p1 model temperature additionalParams
         <> MemoryCache.generateKey toLowerCase p2 model' temperature' additionalParams'
         \/ SemanticCache.generateKey toLowerCase p1 model temperature additionalParams
            <> SemanticCache.generateKey toLowerCase p2 model' temperature'
                 additionalParams') ->
        ~ (model = model' /\ temperature = temperature'
           /\ additionalParams = additionalParams'))
  /\ (forall w w',
        forallb is_whitespace w = true -> forallb is_whitespace w' = true ->
        MemoryCache.generateKey toLowerCase (w ++ p1 ++ w') model temperature
          additionalParams
        = MemoryCache.generateKey toLowerCase p1 model temperature additionalParams
        /\ SemanticCache.generateKey toLowerCase (w ++ p1 ++ w') model temperature
             additionalParams
           = SemanticCache.generateKey toLowerCase p1 model temperature
               additionalParams)
  /\ (forall a b w w',
        w <> [] -> forallb is_whitespace w = true ->
        w' <> [] -> forallb is_whitespace w' = true ->
        MemoryCache.generateKey toLowerCase (a ++ w ++ b) model temperature
          additionalParams
        = MemoryCache.generateKey toLowerCase (a ++ w' ++ b) model temperature
            additionalParams
        /\ SemanticCache.generateKey toLowerCase (a ++ w ++ b) model temperature
             additionalParams
           = SemanticCache.generateKey toLowerCase (a ++ w' ++ b) model temperature
               additionalParams).
Proof.
  intros H.
  assert (E : forall q1 q2 m t a,
             normalForm toLowerCase q1 = normalForm toLowerCase q2 ->
             keyDigest toLowerCase q1 m t a = keyDigest toLowerCase q2 m t a).
  { intros q1 q2 m t a Hq. unfold keyDigest, keyData.
    now rewrite !normalizePrompt_normalForm, Hq. }
  unfold MemoryCache.generateKey, SemanticCache.generateKey.
  split; [split|split; [split|split; [|split]]].
  - now apply E.
  - now rewrite (E p1 p2).
  - apply sha256_hex_length.
  - rewrite length_app. unfold keyDigest. rewrite sha256_hex_length. reflexivity.
  - intros m' t' a' Hne (-> & -> & ->). rewrite (E p1 p2 _ _ _ H) in Hne.
    destruct Hne as [Hne|Hne]; now apply Hne.
  - intros w w' Hw Hw'.
    assert (Hq : normalForm toLowerCase (w ++ p1 ++ w') = normalForm toLowerCase p1)
      by (unfold normalForm; now rewrite words_around).
    now rewrite (E _ _ _ _ _ Hq).
  - intros a b w w' H1 H2 H3 H4.
    assert (Hq : normalForm toLowerCase (a ++ w ++ b)
                 = normalForm toLowerCase (a ++ w' ++ b))
      by (unfold normalForm; now rewrite (words_run a w w' b)).
    now rewrite (E _ _ _ _ _ Hq).
Qed.

(** Scenario B, with white space around the prompt and a tab and a line
    feed between the words: "  Get \t\n WEATHER " and "get weather". *)
Lemma generateKey_normalized_witness :
  MemoryCache.generateKey asciiLowerCase
    ([32; 32]%N ++ js "Get" ++ [32; 9; 10; 32]%N ++ js "WEATHER" ++ [32]%N)
    (js "OpenAIProvider") (Some defaultTemperature) None
  = MemoryCache.generateKey asciiLowerCase (js "get weather") (js "OpenAIProvider")
      (Some defaultTemperature) None.
Proof.
  refine (proj1 (proj1
            (generateKey_normalized asciiLowerCase
               ([32; 32]%N ++ js "Get" ++ [32; 9; 10; 32]%N ++ js "WEATHER" ++ [32]%N)
               (js "get weather") (js "OpenAIProvider") (Some defaultTemperature) None
               _))).
  vm_compute. reflexivity.
Defined.

Example normalizePrompt_sample :
  normalizePrompt asciiLowerCase (js "  Get   Weather ") = js "get weather".
Proof. reflexivity. Qed.

(** The key of [{"prompt":"get weather","model":"m","temperature":0.7}]. *)
Example generateKey_sample :
  MemoryCache.generateKey asciiLowerCase (js " Get  Weather") (js "m")
    (Some defaultTemperature) None
  = js "cbab915b9a7a0127f91a00a654446ae8f14195ad6610be182fb0420894fb9d0f".
Proof. vm_compute. reflexivity. Qed.


(** *** Records as association lists *)

Local Open Scope Z_scope.

Lemma jsstring_eqb_sym (a b : jsstring) : jsstring_eqb a b = jsstring_eqb b a.
Proof.
  destruct (jsstring_eqb a b) eqn:E.
  - apply jsstring_eqb_eq in E. subst. symmetry. apply jsstring_eqb_refl.
  - destruct (jsstring_eqb b a) eqn:E'; [|reflexivity].
    apply jsstring_eqb_eq in E'. subst. now rewrite jsstring_eqb_refl in E.
Qed.

Lemma jsstring_eqb_neq (a b : jsstring) : a <> b -> jsstring_eqb a b = false.
Proof.
  intros H. destruct (jsstring_eqb a b) eqn:E; [|reflexivity].
  now apply jsstring_eqb_eq in E.
Qed.

Lemma has_key_In {A} (k : jsstring) (l : list (jsstring * A)) :
  has_key k l = true <-> In k (List.map fst l).
Proof.
  induction l as [|[k' v] l IH]; simpl; [easy|].
  rewrite orb_true_iff, IH, jsstring_eqb_eq. intuition congruence.
Qed.

Lemma has_key_false {A} (k : jsstring) (l : list (jsstring * A)) :
  ~ In k (List.map fst l) -> has_key k l = false.
Proof.
  intros H. destruct (has_key k l) eqn:E; [|reflexivity].
  now apply has_key_In in E.
Qed.

Lemma lookup_none {A} (k : jsstring) (l : list (jsstring * A)) :
  ~ In k (List.map fst l) -> lookup k l = None.
Proof.
  induction l as [|[k' v] l IH]; simpl; [easy|]. intros H.
  rewrite jsstring_eqb_neq by intuition congruence. apply IH. intuition.
Qed.

Lemma lookup_app {A} (k : jsstring) (l l' : list (jsstring * A)) :
  lookup k (l ++ l') = match lookup k l with
                       | Some v => Some v
                       | None => lookup k l'
                       end.
Proof.
  induction l as [|[k' v] l IH]; simpl; [reflexivity|].
  now destruct (jsstring_eqb k k').
Qed.

Lemma lookup_replace_value {A} (k k' : jsstring) (v : A) (l : list (jsstring * A)) :
  lookup k' (replace_value k v l)
  = if jsstring_eqb k' k then option_map (fun _ => v) (lookup k' l) else lookup k' l.
Proof.
  induction l as [|[k0 v0] l IH]; simpl.
  - now destruct (jsstring_eqb k' k).
  - destruct (jsstring_eqb k k0) eqn:E0.
    + apply jsstring_eqb_eq in E0. subst k0. simpl.
      now destruct (jsstring_eqb k' k).
    + simpl. destruct (jsstring_eqb k' k0) eqn:E1; [|exact IH].
      apply jsstring_eqb_eq in E1. subst k0.
      now rewrite jsstring_eqb_sym, E0.
Qed.

(** *** The process-local cache *)

Section MemoryCacheFacts.

Variable toLowerCase : jsstring -> jsstring.
Variable estimateEntrySize : CacheEntry -> Z.

Local Abbreviation generateKey := (MemoryCache.generateKey toLowerCase).
Local Abbreviation get := (MemoryCache.get toLowerCase).
Local Abbreviation set := (MemoryCache.set toLowerCase estimateEntrySize).
Local Abbreviation keyOf := (MemoryCache.keyOf toLowerCase).
Local Abbreviation setAll := (MemoryCache.setAll toLowerCase estimateEntrySize).
Local Abbreviation getAll := (MemoryCache.getAll toLowerCase).

Local Open Scope Z_scope.

Local Abbreviation entryOf := (MemoryCache.entryOf toLowerCase).

Lemma get_counts (now : Z) (prompt model : jsstring) (temperature : option (Z * nat))
    (params : option (list (jsstring * json))) (c : MemoryCache.t) :
  MemoryCache.accounted (MemoryCache.stats c)
    (fst (get now prompt model temperature params c))
    (MemoryCache.stats (snd (get now prompt model temperature params c)))
  /\ (forall v,
        fst (get now prompt model temperature params c) = Some v ->
        exists entry,
          lookup (generateKey prompt model
                    (Some (orDefault temperature defaultTemperature)) params)
            (MemoryCache.cache c) = Some entry
          /\ value entry = v
          /\ now - created (metadata entry) < MemoryCache.defaultTTL c).
Proof.
  unfold MemoryCache.get, MemoryCache.accounted.
  destruct (lookup _ (MemoryCache.cache c)) as [entry|] eqn:E;
    [destruct (MemoryCache.isEntryValid c now entry) eqn:V|]; cbn;
    (split; [repeat split|]); try discriminate.
  intros v [= <-]. exists entry. repeat split. unfold MemoryCache.isEntryValid in V.
  now apply Z.ltb_lt.
Qed.

Lemma set_fresh (call : Z * MemoryCache.request) (c : MemoryCache.t) :
  ~ In (keyOf (snd call)) (List.map fst (MemoryCache.cache c)) ->
  Z.of_nat (length (MemoryCache.cache c)) < MemoryCache.maxSize c ->
  set (fst call) (MemoryCache.req_prompt (snd call)) (MemoryCache.req_model (snd call))
    (MemoryCache.req_response (snd call)) (MemoryCache.req_temperature (snd call))
    (MemoryCache.req_params (snd call)) c
  = MemoryCache.mkCache (MemoryCache.cache c ++ [(keyOf (snd call), entryOf call)])
      (MemoryCache.addStorage (MemoryCache.stats c) (estimateEntrySize (entryOf call)))
      (MemoryCache.maxSize c) (MemoryCache.defaultTTL c).
Proof.
  intros Hk Hsize. unfold MemoryCache.set.
  destruct (Z.leb_spec (MemoryCache.maxSize c) (Z.of_nat (length (MemoryCache.cache c))));
    [lia|].
  unfold map_set. fold (keyOf (snd call)). now rewrite has_key_false.
Qed.

Lemma setAll_cons (call : Z * MemoryCache.request)
    (calls : list (Z * MemoryCache.request)) (c : MemoryCache.t) :
  setAll (call :: calls) c
  = setAll calls
      (set (fst call) (MemoryCache.req_prompt (snd call))
         (MemoryCache.req_model (snd call)) (MemoryCache.req_response (snd call))
         (MemoryCache.req_temperature (snd call)) (MemoryCache.req_params (snd call)) c).
Proof. reflexivity. Qed.

Lemma getAll_cons (call : Z * MemoryCache.request)
    (calls : list (Z * MemoryCache.request)) (c : MemoryCache.t) :
  getAll (call :: calls) c
  = getAll calls
      (snd (get (fst call) (MemoryCache.req_prompt (snd call))
              (MemoryCache.req_model (snd call))
              (MemoryCache.req_temperature (snd call))
              (MemoryCache.req_params (snd call)) c)).
Proof. reflexivity. Qed.

Lemma setAll_fresh (calls : list (Z * MemoryCache.request)) (c : MemoryCache.t) :
  NoDup (List.map fst (MemoryCache.cache c) ++ List.map keyOf (List.map snd calls)) ->
  Z.of_nat (length (MemoryCache.cache c) + length calls) <= MemoryCache.maxSize c ->
  MemoryCache.cache (setAll calls c)
  = MemoryCache.cache c ++ List.map (fun call => (keyOf (snd call), entryOf call)) calls
  /\ MemoryCache.defaultTTL (setAll calls c) = MemoryCache.defaultTTL c
  /\ totalRequests (MemoryCache.stats (setAll calls c))
     = totalRequests (MemoryCache.stats c)
  /\ hits (MemoryCache.stats (setAll calls c)) = hits (MemoryCache.stats c)
  /\ misses (MemoryCache.stats (setAll calls c)) = misses (MemoryCache.stats c).
Proof.
  revert c. induction calls as [|call calls IH]; intros c Hnd Hsize.
  - cbn. now rewrite app_nil_r.
  - cbn [List.map] in Hnd. rewrite setAll_cons, set_fresh.
    + match goal with |- context [setAll calls ?c'] => specialize (IH c') end.
      cbn [MemoryCache.cache MemoryCache.stats MemoryCache.maxSize
             MemoryCache.defaultTTL] in IH.
      destruct IH as (E & ? & ? & ? & ?).
      * rewrite map_app. cbn [List.map fst]. rewrite <- app_assoc. exact Hnd.
      * rewrite length_app. cbn [length] in *. lia.
      * rewrite E, <- app_assoc. cbn. auto.
    + apply NoDup_remove_2 in Hnd. intros Hin. apply Hnd.
      apply in_or_app. now left.
    + cbn [length] in Hsize. lia.
Qed.

Lemma get_hit (now : Z) (r : MemoryCache.request) (c : MemoryCache.t) (e : CacheEntry) :
  lookup (keyOf r) (MemoryCache.cache c) = Some e ->
  now - created (metadata e) < MemoryCache.defaultTTL c ->
  snd (get now (MemoryCache.req_prompt r) (MemoryCache.req_model r)
         (MemoryCache.req_temperature r) (MemoryCache.req_params r) c)
  = MemoryCache.mkCache
      (replace_value (keyOf r)
         (mkEntry (key e) (value e)
            (mkMetadata (created (metadata e)) now (entry_hits (metadata e) + 1)
               (entry_cost (metadata e))))
         (MemoryCache.cache c))
      (MemoryCache.countHit (MemoryCache.countRequest (MemoryCache.stats c))
         (cost (usage (value e))))
      (MemoryCache.maxSize c) (MemoryCache.defaultTTL c).
Proof.
  intros E V. unfold MemoryCache.get. fold (keyOf r). rewrite E.
  unfold MemoryCache.isEntryValid.
  now destruct (Z.ltb_spec (now - created (metadata e)) (MemoryCache.defaultTTL c));
    [|lia].
Qed.

(** Gets on cached keys, each within the time to live of every entry. *)
Lemma getAll_hits (calls : list (Z * MemoryCache.request)) (c : MemoryCache.t) :
  (forall call, In call calls ->
     exists e, lookup (keyOf (snd call)) (MemoryCache.cache c) = Some e) ->
  (forall k e call, lookup k (MemoryCache.cache c) = Some e -> In call calls ->
     fst call - created (metadata e) < MemoryCache.defaultTTL c) ->
  totalRequests (MemoryCache.stats (getAll calls c))
  = totalRequests (MemoryCache.stats c) + Z.of_nat (length calls)
  /\ hits (MemoryCache.stats (getAll calls c))
     = hits (MemoryCache.stats c) + Z.of_nat (length calls)
  /\ misses (MemoryCache.stats (getAll calls c)) = misses (MemoryCache.stats c).
Proof.
  revert c. induction calls as [|call calls IH]; intros c Hk Ht.
  - cbn. lia.
  - rewrite getAll_cons.
    destruct (Hk call (or_introl eq_refl)) as [e E].
    rewrite (get_hit (fst call) (snd call) c e E)
      by (apply (Ht _ e call E); now left).
    match goal with |- context [getAll calls ?c'] => specialize (IH c') end.
    cbn [MemoryCache.cache MemoryCache.stats MemoryCache.defaultTTL] in IH.
    destruct IH as (? & ? & ?).
    + intros call' Hin. destruct (Hk call' (or_intror Hin)) as [e' E'].
      rewrite lookup_replace_value, E'.
      destruct (jsstring_eqb _ _); cbn; eauto.
    + intros k e' call' E' Hin. rewrite lookup_replace_value in E'.
      destruct (jsstring_eqb k (keyOf (snd call))) eqn:Ek.
      * apply jsstring_eqb_eq in Ek. subst k. rewrite E in E'.
        injection E' as <-. cbn. apply (Ht _ e call' E). now right.
      * apply (Ht k e' call' E'). now right.
    + cbn [MemoryCache.countHit MemoryCache.countRequest totalRequests hits misses]
        in *. cbn [length]. lia.
Qed.

Lemma lookup_own_entry (calls : list (Z * MemoryCache.request))
    (call : Z * MemoryCache.request) :
  In (snd call) (List.map snd calls) ->
  exists call',
    In call' calls
    /\ lookup (keyOf (snd call))
         (List.map (fun call => (keyOf (snd call), entryOf call)) calls)
       = Some (entryOf call').
Proof.
  induction calls as [|c0 calls IH]; cbn [List.map In lookup]; [easy|].
  intros Hin. destruct (jsstring_eqb (keyOf (snd call)) (keyOf (snd c0))) eqn:E.
  - exists c0. auto.
  - destruct Hin as [Heq|Hin]; [now rewrite Heq, jsstring_eqb_refl in E|].
    destruct (IH Hin) as (call' & ? & ?). exists call'. auto.
Qed.

Lemma lookup_some_entry (calls : list (Z * MemoryCache.request)) (k : jsstring)
    (e : CacheEntry) :
  lookup k (List.map (fun call => (keyOf (snd call), entryOf call)) calls) = Some e ->
  exists call', In call' calls /\ e = entryOf call'.
Proof.
  induction calls as [|c0 calls IH]; cbn [List.map In lookup]; [discriminate|].
  destruct (jsstring_eqb k (keyOf (snd c0))).
  - intros [= <-]. exists c0. auto.
  - intros H. destruct (IH H) as (call' & ? & ?). exists call'. auto.
Qed.


(** The statistics of the process-local cache.  Every get counts one
    request and either one hit or one miss, a hit adding the cost of the
    returned entry to [costSavings]; the reported hit rate is
    [hits / totalRequests], and 0 with no request; and after sets on
    distinct keys of a fresh cache, within its capacity, gets on the same
    keys within the time to live report a hit rate of 1. *)
Theorem memory_cache_statistics :
  (forall now prompt model temperature params c,
     MemoryCache.accounted (MemoryCache.stats c)
       (fst (get now prompt model temperature params c))
       (MemoryCache.stats (snd (get now prompt model temperature params c)))
     /\ (forall v,
           fst (get now prompt model temperature params c) = Some v ->
           exists entry,
             lookup (generateKey prompt model
                       (Some (orDefault temperature defaultTemperature)) params)
               (MemoryCache.cache c) = Some entry
             /\ value entry = v
             /\ now - created (metadata entry) < MemoryCache.defaultTTL c))
  /\ (forall c,
        hitRate (fst (MemoryCache.getStats c))
        = if 0 <? totalRequests (MemoryCache.stats c)
          then (inject_Z (hits (MemoryCache.stats c))
                / inject_Z (totalRequests (MemoryCache.stats c)))%Q
          else 0%Q)
  /\ (forall maxSize ttl sets gets,
        sets <> [] ->
        NoDup (List.map keyOf (List.map snd sets)) ->
        Z.of_nat (length sets) <= maxSize ->
        List.map snd gets = List.map snd sets ->
        (forall s g, In s (List.map fst sets) -> In g (List.map fst gets) ->
                     g - s < ttl) ->
        (hitRate
           (fst (MemoryCache.getStats
                   (getAll gets
                      (setAll sets (MemoryCache.mkCache [] freshStats maxSize ttl)))))
         == 1)%Q).
Proof.
  split; [exact get_counts | split; [reflexivity|]].
  intros maxSize ttl sets gets Hne Hnd Hsize Hsame Httl.
  set (c0 := MemoryCache.mkCache [] freshStats maxSize ttl).
  destruct (setAll_fresh sets c0) as (Ecache & Ettl & Etot & Ehit & Emiss);
    [exact Hnd | cbn; lia |].
  cbn [MemoryCache.cache MemoryCache.stats MemoryCache.defaultTTL c0 app freshStats
         totalRequests hits misses] in *.
  destruct (getAll_hits gets (setAll sets c0)) as (Gtot & Ghit & _).
  - intros call Hin. rewrite Ecache.
    destruct (lookup_own_entry sets call) as (call' & _ & E).
    + rewrite <- Hsame. now apply in_map.
    + eauto.
  - intros k e call E Hin. rewrite Ecache in E.
    apply lookup_some_entry in E as (call' & Hin' & ->).
    rewrite Ettl. cbn. apply Httl; now apply in_map.
  - assert (Hlen : length gets = length sets).
    { rewrite <- (length_map snd gets), Hsame. apply length_map. }
    assert (0 < Z.of_nat (length sets)) by (destruct sets; [easy | cbn; lia]).
    cbn [MemoryCache.getStats fst MemoryCache.updateHitRate hitRate].
    rewrite Gtot, Ghit, Etot, Ehit, Hlen. cbn [Z.add].
    destruct (Z.ltb_spec 0 (Z.of_nat (length sets))); [|lia].
    apply Qmult_inv_r. unfold Qeq. cbn. lia.
Qed.

(** *** What evictLRU does evict *)

Lemma oldest_later (l : list (jsstring * CacheEntry)) (k : option jsstring) (t0 bound : Z) :
  bound < t0 ->
  (forall kv, In kv l -> bound < accessed (metadata (snd kv))) ->
  bound < snd (fold_left MemoryCache.oldest l (k, t0)).
Proof.
  revert k t0. induction l as [|kv l IH]; intros k t0 H0 Hl; [exact H0|].
  cbn [fold_left]. unfold MemoryCache.oldest at 2. cbn [snd].
  destruct (accessed (metadata (snd kv)) <? t0); apply IH;
    auto using in_cons, in_eq.
Qed.

Lemma oldest_kept (l : list (jsstring * CacheEntry)) (k : option jsstring) (t0 : Z) :
  (forall kv, In kv l -> t0 <= accessed (metadata (snd kv))) ->
  fold_left MemoryCache.oldest l (k, t0) = (k, t0).
Proof.
  induction l as [|kv l IH]; intros Hl; [reflexivity|].
  cbn [fold_left]. unfold MemoryCache.oldest at 2. cbn [snd].
  destruct (Z.ltb_spec (accessed (metadata (snd kv))) t0) as [H|H].
  - specialize (Hl kv (in_eq _ _)). lia.
  - apply IH. auto using in_cons.
Qed.

(** The scan returns the first of the entries with the least access time,
    when that time is before [now]. *)
Lemma oldest_first_minimum (l1 l2 : list (jsstring * CacheEntry)) (k : jsstring)
    (e : CacheEntry) (now : Z) :
  accessed (metadata e) < now ->
  (forall kv, In kv l1 -> accessed (metadata e) < accessed (metadata (snd kv))) ->
  (forall kv, In kv l2 -> accessed (metadata e) <= accessed (metadata (snd kv))) ->
  fold_left MemoryCache.oldest (l1 ++ (k, e) :: l2) (None, now)
  = (Some k, accessed (metadata e)).
Proof.
  intros Hnow H1 H2. rewrite fold_left_app. cbn [fold_left].
  pose proof (oldest_later l1 None now _ Hnow H1) as Hlater.
  destruct (fold_left MemoryCache.oldest l1 (None, now)) as [k1 t1].
  cbn [snd] in Hlater. unfold MemoryCache.oldest at 2. cbn [fst snd].
  destruct (Z.ltb_spec (accessed (metadata e)) t1); [|lia].
  now apply oldest_kept.
Qed.

Lemma map_delete_middle {A} (l1 l2 : list (jsstring * A)) (k : jsstring) (v : A) :
  ~ In k (List.map fst l1) ->
  map_delete k (l1 ++ (k, v) :: l2) = l1 ++ l2.
Proof.
  induction l1 as [|[k' v'] l1 IH]; cbn; intros H.
  - now rewrite jsstring_eqb_refl.
  - rewrite jsstring_eqb_neq by intuition congruence. f_equal. apply IH. intuition.
Qed.

(** A set of a new key on a full cache, when some entry was last accessed
    before the call: the first entry with the least access time goes, every
    other entry stays in place, and the new entry comes last. *)
Lemma set_evicts_least_recent (call : Z * MemoryCache.request) (c : MemoryCache.t)
    (l1 l2 : list (jsstring * CacheEntry)) (k : jsstring) (e : CacheEntry) :
  MemoryCache.cache c = l1 ++ (k, e) :: l2 ->
  NoDup (List.map fst (MemoryCache.cache c)) ->
  truthy k = true ->
  MemoryCache.maxSize c <= Z.of_nat (length (MemoryCache.cache c)) ->
  ~ In (keyOf (snd call)) (List.map fst (MemoryCache.cache c)) ->
  accessed (metadata e) < fst call ->
  (forall kv, In kv l1 -> accessed (metadata e) < accessed (metadata (snd kv))) ->
  (forall kv, In kv l2 -> accessed (metadata e) <= accessed (metadata (snd kv))) ->
  MemoryCache.cache
    (set (fst call) (MemoryCache.req_prompt (snd call))
       (MemoryCache.req_model (snd call)) (MemoryCache.req_response (snd call))
       (MemoryCache.req_temperature (snd call)) (MemoryCache.req_params (snd call)) c)
  = l1 ++ l2 ++ [(keyOf (snd call), entryOf call)].
Proof.
  intros Ec Hnd Hk Hfull Hnew Hnow H1 H2. unfold MemoryCache.set.
  destruct (Z.leb_spec (MemoryCache.maxSize c) (Z.of_nat (length (MemoryCache.cache c))));
    [|lia].
  unfold MemoryCache.evictLRU. rewrite Ec at 1.
  rewrite (oldest_first_minimum l1 l2 k e (fst call) Hnow H1 H2). cbn [fst].
  rewrite Hk. cbn [MemoryCache.cache MemoryCache.stats MemoryCache.maxSize
                     MemoryCache.defaultTTL].
  fold (keyOf (snd call)). rewrite Ec in Hnd, Hnew |- *.
  rewrite map_delete_middle.
  - unfold map_set. rewrite has_key_false.
    + now rewrite <- app_assoc.
    + rewrite map_app in *. cbn [List.map fst] in Hnew.
      rewrite in_app_iff in *. cbn [In] in Hnew. intuition.
  - rewrite map_app in Hnd. cbn [List.map fst] in Hnd.
    apply NoDup_remove_2 in Hnd. rewrite in_app_iff in Hnd. intuition.
Qed.

End MemoryCacheFacts.

(** Two sets and two gets on a cache of capacity 2. *)
Lemma memory_cache_statistics_witness :
  Qeq
    (hitRate
       (fst (MemoryCache.getStats
               (MemoryCache.getAll asciiLowerCase
                  [(2000, Samples.askWeather); (2001, Samples.askTime)]
                  (MemoryCache.setAll asciiLowerCase Samples.entrySize
                     [(1000, Samples.askWeather); (1001, Samples.askTime)]
                     (MemoryCache.mkCache [] freshStats 2 3600000))))))
    1%Q.
Proof.
  apply (proj2 (proj2 (memory_cache_statistics asciiLowerCase Samples.entrySize))).
  - discriminate.
  - vm_compute. repeat constructor; cbn; intuition discriminate.
  - vm_compute. discriminate.
  - reflexivity.
  - cbn. intros s g [<-|[<-|[]]] [<-|[<-|[]]]; lia.
Defined.


(** *** Eviction *)

(** C6 fails as stated.  With capacity 1, a second key inserted in the
    millisecond of the first evicts nothing: the scan of evictLRU starts
    from the current time and only takes entries accessed strictly before
    it.  One millisecond later the first entry is evicted. *)
Theorem eviction_skips_current_millisecond :
  List.map fst
    (MemoryCache.cache
       (MemoryCache.setAll asciiLowerCase Samples.entrySize
          [(1000, Samples.askWeather); (1000, Samples.askTime)]
          (MemoryCache.create (Some 1) None)))
  = [MemoryCache.keyOf asciiLowerCase Samples.askWeather;
     MemoryCache.keyOf asciiLowerCase Samples.askTime]
  /\ List.map fst
       (MemoryCache.cache
          (MemoryCache.setAll asciiLowerCase Samples.entrySize
             [(1000, Samples.askWeather); (1001, Samples.askTime)]
             (MemoryCache.create (Some 1) None)))
     = [MemoryCache.keyOf asciiLowerCase Samples.askTime].
Proof. split; vm_compute; reflexivity. Qed.

(** A tie on the access time is broken by insertion order: with capacity
    2, the entry read last (in the millisecond the other was written) is
    the one evicted. *)
Example eviction_tie :
  List.map fst
    (MemoryCache.cache
       (MemoryCache.setAll asciiLowerCase Samples.entrySize [(1002, Samples.askName)]
          (MemoryCache.getAll asciiLowerCase [(1001, Samples.askWeather)]
             (MemoryCache.setAll asciiLowerCase Samples.entrySize
                [(1000, Samples.askWeather); (1001, Samples.askTime)]
                (MemoryCache.create (Some 2) None)))))
  = [MemoryCache.keyOf asciiLowerCase Samples.askTime;
     MemoryCache.keyOf asciiLowerCase Samples.askName].
Proof. vm_compute. reflexivity. Qed.

(** With clock readings that differ, a get moves the entry away from
    eviction: of the two entries, the one not read goes. *)
Example get_refreshes_recency :
  List.map fst
    (MemoryCache.cache
       (MemoryCache.setAll asciiLowerCase Samples.entrySize [(1003, Samples.askName)]
          (MemoryCache.getAll asciiLowerCase [(1002, Samples.askWeather)]
             (MemoryCache.setAll asciiLowerCase Samples.entrySize
                [(1000, Samples.askWeather); (1001, Samples.askTime)]
                (MemoryCache.create (Some 2) None)))))
  = [MemoryCache.keyOf asciiLowerCase Samples.askWeather;
     MemoryCache.keyOf asciiLowerCase Samples.askName].
Proof. vm_compute. reflexivity. Qed.

(** *** The shared cache *)

Lemma command_ok (n : nat) (r : SemanticCache.Redis) :
  SemanticCache.no_fault (S n) r ->
  fst (SemanticCache.command r) = false
  /\ SemanticCache.isOpen (snd (SemanticCache.command r)) = SemanticCache.isOpen r
  /\ SemanticCache.store (snd (SemanticCache.command r)) = SemanticCache.store r
  /\ SemanticCache.no_fault n (snd (SemanticCache.command r)).
Proof.
  unfold SemanticCache.no_fault, SemanticCache.command. destruct r as [o st [|f fs]]; cbn.
  - now destruct n.
  - destruct f; cbn; [discriminate | auto].
Qed.

Lemma existsb_eqb_In (k : jsstring) (ks : list jsstring) :
  In k ks -> existsb (jsstring_eqb k) ks = true.
Proof.
  intros H. apply existsb_exists. exists k. split; [exact H | apply jsstring_eqb_refl].
Qed.

Lemma del_keys_empties {A} (P : jsstring * A -> bool) (st : list (jsstring * A)) :
  filter P
    (filter (fun kv => negb (existsb (jsstring_eqb (fst kv))
                               (List.map fst (filter P st)))) st) = [].
Proof.
  set (ks := List.map fst (filter P st)).
  assert (H : forall kv, In kv st -> P kv = true -> In (fst kv) ks).
  { intros kv Hin HP. apply in_map. now apply filter_In. }
  clearbody ks. induction st as [|kv st IH]; [reflexivity|]. cbn [filter].
  destruct (existsb (jsstring_eqb (fst kv)) ks) eqn:E; cbn [negb].
  - apply IH. intros; apply H; [now right | assumption].
  - cbn [filter]. destruct (P kv) eqn:HP.
    + rewrite (existsb_eqb_In _ _ (H kv (or_introl eq_refl) HP)) in E. discriminate.
    + apply IH. intros; apply H; [now right | assumption].
Qed.

(** **** Connecting *)

Import SemanticCache SemanticCacheLifecycle.

Lemma afterConnect_open {A} (now : Z) (c : SemanticCache.t)
    (rest : SemanticCache.t -> outcome A * SemanticCache.t) :
  isOpen (redis c) = true ->
  afterConnect now c rest = (Settled (fst (rest c)), snd (rest c)).
Proof. intros H. unfold afterConnect, connect. now rewrite H. Qed.

Lemma afterConnect_connected {A} (now : Z) (c c' : SemanticCache.t)
    (rest : SemanticCache.t -> outcome A * SemanticCache.t) :
  connect now c = (Settled (Returned tt), c') ->
  isOpen (redis c') = true ->
  afterConnect now c rest = afterConnect now c' rest.
Proof.
  intros E O. rewrite (afterConnect_open now c' rest O).
  unfold afterConnect. now rewrite E.
Qed.

Lemma afterConnect_pending {A} (now : Z) (c : SemanticCache.t)
    (rest : SemanticCache.t -> outcome A * SemanticCache.t) :
  fst (connect now c) = Pending ->
  afterConnect now c rest = (Pending, snd (connect now c)).
Proof.
  intros E. unfold afterConnect.
  destruct (connect now c) as [[[u|]|] c']; cbn [fst] in E; try discriminate.
  reflexivity.
Qed.

Lemma onError_fields (c : SemanticCache.t) (n : nat) :
  redis (onError c n) = redis c
  /\ stats (onError c n) = stats c
  /\ defaultTTL (onError c n) = defaultTTL c
  /\ log (onError c n) = log c ++ repeat (js "Redis Cache Error:") n.
Proof.
  unfold onError. induction n as [|n (IH1 & IH2 & IH3 & IH4)].
  - cbn. now rewrite app_nil_r.
  - rewrite !Nat.iter_succ. set (c' := Nat.iter n _ c) in *. unfold logError.
    cbn [redis stats defaultTTL log].
    repeat split; try assumption.
    rewrite IH4, <- app_assoc. f_equal.
    change (repeat (js "Redis Cache Error:") n ++ [js "Redis Cache Error:"])
      with (repeat (js "Redis Cache Error:") n ++ repeat (js "Redis Cache Error:") 1).
    rewrite <- repeat_app. f_equal. lia.
Qed.

Lemma retry_all_failed (plan : list bool) :
  forallb (fun failed => failed) plan = true -> retry plan = (None, length plan).
Proof.
  induction plan as [|f plan IH]; [reflexivity|].
  cbn [forallb retry length]. destruct f; [|discriminate].
  intros H. now rewrite (IH H).
Qed.

(** While the store is out of reach [connect()] does not settle; the
    listener logs the failed attempts, and nothing else changes. *)
Lemma connect_pending (now : Z) (c : SemanticCache.t) :
  isOpen (redis c) = false ->
  faults (redis c) <> [] ->
  forallb (fun failed => failed) (faults (redis c)) = true ->
  fst (connect now c) = Pending
  /\ stats (snd (connect now c)) = stats c
  /\ log (snd (connect now c))
     = log c ++ repeat (js "Redis Cache Error:") (length (faults (redis c))).
Proof.
  intros O Hne Hall. unfold connect, redis_connect, command. rewrite O.
  destruct (faults (redis c)) as [|f plan]; [easy|].
  cbn [forallb] in Hall. destruct f; [|discriminate].
  cbn [faults andb] in *. rewrite (retry_all_failed plan Hall). cbn [fst snd].
  destruct (onError_fields
              (withRedis c (mkRedis true (store (mkRedis (isOpen (redis c))
                                                   (store (redis c)) plan)) []))
              (S (length plan))) as (_ & E2 & _ & E4).
  split; [reflexivity|]. split; [exact E2 | exact E4].
Qed.

(** With a store that executes the commands, [connect()] on a client that
    is not connected opens it and loads the statistics saved in the store,
    if any. *)
Lemma connect_settles (n : nat) (now : Z) (c : SemanticCache.t) :
  isOpen (redis c) = false ->
  no_fault (2 + n) (redis c) ->
  exists c',
    connect now c = (Settled (Returned tt), c')
    /\ isOpen (redis c') = true
    /\ store (redis c') = store (redis c)
    /\ no_fault n (redis c')
    /\ defaultTTL c' = defaultTTL c
    /\ stats c' = match held now (redis c) statsKey with
                  | Some (StoredStats saved) => saved
                  | _ => stats c
                  end
    /\ ((forall s, held now (redis c) statsKey <> Some (StoredText s)) ->
        log c' = log c).
Proof.
  intros O Hok. unfold connect, redis_connect. rewrite O.
  destruct (command_ok (1 + n) _ Hok) as (F1 & _ & S1 & Hok1).
  destruct (command (redis c)) as [f1 r1]. cbn [fst snd] in F1, S1, Hok1. subst f1.
  unfold onError. cbn [Nat.iter nat_rect]. unfold loadStats, redis_get.
  cbn [redis withRedis].
  set (r1' := mkRedis true (store r1) (faults r1)).
  assert (Hok1' : no_fault (1 + n) r1') by exact Hok1.
  destruct (command_ok n _ Hok1') as (F2 & O2 & S2 & Hok2).
  destruct (command r1') as [f2 r2]. cbn [fst snd] in F2, O2, S2, Hok2. subst f2.
  rewrite S2. unfold r1'. cbn [store]. rewrite S1.
  change (option_map fst (lookup statsKey (filter (live now) (store (redis c)))))
    with (held now (redis c) statsKey).
  destruct (held now (redis c) statsKey) as [[e|saved|[|x s]]|];
    cbn [stored_truthy truthy]; eexists; (split; [reflexivity|]);
    unfold withStats, withRedis, logError; cbn [redis stats defaultTTL log];
    (split; [exact O2|]); (split; [now rewrite S2|]); (split; [exact Hok2|]);
    (split; [reflexivity|]); (split; [reflexivity|]); intros Hs;
    try reflexivity; now destruct (Hs (x :: s)).
Qed.

(** **** clear *)

Lemma clear_open (now : Z) (c : SemanticCache.t) :
  isOpen (redis c) = true ->
  no_fault 2 (redis c) ->
  fst (clear now c) = Returned tt
  /\ filter (fun kv => live now kv && starts_with keyPrefix (fst kv))
       (store (redis (snd (clear now c)))) = []
  /\ stats (snd (clear now c)) = MemoryCache.resetStorage (stats c)
  /\ log (snd (clear now c)) = log c.
Proof.
  intros Hopen Hok. unfold clear. rewrite (afterConnect_open now c _ Hopen).
  cbn [fst snd]. unfold redis_keys.
  destruct (command_ok 1 _ Hok) as (F1 & _ & S1 & Hok1).
  destruct (command (redis c)) as [f1 r1].
  cbn [fst snd] in *. subst f1. rewrite S1.
  set (P := fun kv : jsstring * (stored * option Z) =>
              live now kv && starts_with keyPrefix (fst kv)).
  destruct (List.map fst (filter P (store (redis c)))) as [|k ks] eqn:Eks.
  - cbn. rewrite S1. repeat split.
    destruct (filter P (store (redis c))) eqn:EP; [reflexivity | discriminate].
  - cbv beta iota. unfold redis_del.
    destruct (command_ok 0 _ Hok1) as (F2 & _ & S2 & _).
    destruct (command r1) as [f2 r2].
    cbn [fst snd] in F2, S2. subst f2. rewrite <- Eks.
    cbn -[filter existsb List.map P]. rewrite S2, S1. repeat split.
    apply del_keys_empties.
Qed.

(** A failure of [keys], and of [del] when there is something to delete. *)
Lemma clear_fails (now : Z) (c : SemanticCache.t) (rest : list bool) :
  isOpen (redis c) = true ->
  faults (redis c) = true :: rest
  \/ (faults (redis c) = false :: true :: rest /\ keysOf now (redis c) <> []) ->
  fst (clear now c) = Returned tt
  /\ log (snd (clear now c)) = log c ++ [js "Cache clear error:"]
  /\ store (redis (snd (clear now c))) = store (redis c)
  /\ stats (snd (clear now c)) = stats c.
Proof.
  intros Hopen H. unfold clear. rewrite (afterConnect_open now c _ Hopen).
  cbn [fst snd]. unfold redis_keys, command.
  destruct H as [F|[F Hk]]; rewrite F; cbn [faults store isOpen].
  - cbn. repeat split.
  - unfold keysOf in Hk.
    destruct (List.map fst _) as [|k ks]; [easy|].
    unfold redis_del, command. cbn. repeat split.
Qed.

(** C10, as amended.  [clear()] of the process-local cache, in every
    state, and [clear()] of the shared cache whenever the store executes
    the commands it is sent, whether the client is connected already (two
    commands) or connects during the call (four): no entry is left (no live
    key with the cache's prefix in the store) and [storageUsed] is 0.  The
    other statistics are the ones before the call, except that a client
    that connects during the call has first taken over the statistics saved
    in the store, if there are any.  When a command of [clear] fails on a
    connected client, the error is logged and nothing is removed or
    reset. *)
Theorem clear_resets_storage_only :
  (forall c : MemoryCache.t,
     MemoryCache.cache (MemoryCache.clear c) = []
     /\ MemoryCache.stats (MemoryCache.clear c)
        = mkStats (totalRequests (MemoryCache.stats c)) (hits (MemoryCache.stats c))
            (misses (MemoryCache.stats c)) (hitRate (MemoryCache.stats c))
            (costSavings (MemoryCache.stats c)) 0)
  /\ (forall (now : Z) (c : SemanticCache.t),
        SemanticCache.isOpen (SemanticCache.redis c) = true ->
        SemanticCache.no_fault 2 (SemanticCache.redis c) ->
        fst (SemanticCache.clear now c) = Returned tt
        /\ filter (fun kv => SemanticCache.live now kv
                             && SemanticCache.starts_with SemanticCache.keyPrefix (fst kv))
             (SemanticCache.store (SemanticCache.redis (snd (SemanticCache.clear now c))))
           = []
        /\ SemanticCache.stats (snd (SemanticCache.clear now c))
           = mkStats (totalRequests (SemanticCache.stats c))
               (hits (SemanticCache.stats c)) (misses (SemanticCache.stats c))
               (hitRate (SemanticCache.stats c)) (costSavings (SemanticCache.stats c)) 0
        /\ SemanticCache.log (snd (SemanticCache.clear now c)) = SemanticCache.log c)
  /\ (forall (now : Z) (c : SemanticCache.t),
        isOpen (redis c) = false ->
        no_fault 4 (redis c) ->
        let loaded :=
          match held now (redis c) statsKey with
          | Some (StoredStats saved) => saved
          | _ => stats c
          end in
        fst (clear now c) = Returned tt
        /\ filter (fun kv => live now kv && starts_with keyPrefix (fst kv))
             (store (redis (snd (clear now c)))) = []
        /\ stats (snd (clear now c))
           = mkStats (totalRequests loaded) (hits loaded) (misses loaded)
               (hitRate loaded) (costSavings loaded) 0
        /\ ((forall s, held now (redis c) statsKey <> Some (StoredText s)) ->
            log (snd (clear now c)) = log c))
  /\ (forall (now : Z) (c : SemanticCache.t) (rest : list bool),
        isOpen (redis c) = true ->
        faults (redis c) = true :: rest
        \/ (faults (redis c) = false :: true :: rest /\ keysOf now (redis c) <> []) ->
        fst (clear now c) = Returned tt
        /\ log (snd (clear now c)) = log c ++ [js "Cache clear error:"]
        /\ store (redis (snd (clear now c))) = store (redis c)
        /\ stats (snd (clear now c)) = stats c).
Proof.
  split; [intros c; split; reflexivity|].
  split; [exact clear_open|]. split; [|exact clear_fails].
  intros now c O Hok. cbv zeta.
  destruct (connect_settles 2 now c O Hok) as (c' & E & O' & S' & Hok' & _ & St & L).
  unfold clear at 1 2 3 4. rewrite (afterConnect_connected now c c' _ E O').
  destruct (clear_open now c' O' Hok') as (H1 & H2 & H3 & H4).
  unfold clear in H1, H2, H3, H4.
  split; [exact H1|]. split; [exact H2|]. split.
  - rewrite H3, St. reflexivity.
  - intros Hs. rewrite H4. now apply L.
Qed.

(** A client that is not connected yet, of a store that holds saved
    statistics: they are the statistics after [clear()], with [storageUsed]
    reset. *)
Lemma clear_resets_storage_only_witness :
  stats (snd (clear 2000 (create Samples.storeWithStats None)))
  = mkStats 10 5 5 (1 # 2) (3 # 100) 0.
Proof.
  apply (proj1 (proj2 (proj2 clear_resets_storage_only)) 2000
           (create Samples.storeWithStats None));
    reflexivity.
Defined.

(** C10 as stated fails for the shared cache.  A client that is not yet
    connected loads the statistics saved in the store before it clears: the
    5 hits of an earlier process replace the 0 of this one.  And when the
    store fails, nothing is cleared: the entry and the 40 characters
    accounted for stay. *)
Lemma clear_changes_or_keeps_statistics :
  (hits (SemanticCache.stats (SemanticCache.create Samples.storeWithStats None)) = 0
   /\ hits (SemanticCache.stats
              (snd (SemanticCache.clear 2000
                      (SemanticCache.create Samples.storeWithStats None)))) = 5)
  /\ (storageUsed (SemanticCache.stats
                     (snd (SemanticCache.clear 2000 Samples.failingCache))) = 40
      /\ length (SemanticCache.store
                   (SemanticCache.redis
                      (snd (SemanticCache.clear 2000 Samples.failingCache)))) = 1%nat).
Proof. vm_compute. repeat split. Qed.

(** *** Failures of the store during get *)

(** C5 fails for a store that cannot be reached when [get] is called on a
    client that is not connected: [connect()] is awaited before the [try]
    block of [get], and the client retries for ever instead of rejecting,
    so the call never settles.  No miss is returned or counted; the failed
    attempts are logged by the constructor's listener. *)
Theorem get_pending_when_connect_fails (toLowerCase : jsstring -> jsstring) (now : Z)
    (prompt model : jsstring) (temperature : option (Z * nat))
    (params : option (list (jsstring * json))) (c : SemanticCache.t) :
  isOpen (redis c) = false ->
  faults (redis c) <> [] ->
  forallb (fun failed => failed) (faults (redis c)) = true ->
  fst (SemanticCache.get toLowerCase now prompt model temperature params c) = Pending
  /\ stats (snd (SemanticCache.get toLowerCase now prompt model temperature params c))
     = stats c
  /\ log (snd (SemanticCache.get toLowerCase now prompt model temperature params c))
     = log c ++ repeat (js "Redis Cache Error:") (length (faults (redis c))).
Proof.
  intros O Hne Hall.
  destruct (connect_pending now c O Hne Hall) as (E1 & E2 & E3).
  unfold SemanticCache.get. rewrite (afterConnect_pending now c _ E1).
  cbn [fst snd]. split; [reflexivity|]. split; [exact E2 | exact E3].
Qed.

(** The first [get] of a client whose store cannot be reached. *)
Lemma get_pending_when_connect_fails_witness :
  fst (SemanticCache.get asciiLowerCase 1000 (js "Get Weather") (js "OpenAIProvider")
         None None Samples.unreachable) = Pending.
Proof.
  apply (get_pending_when_connect_fails asciiLowerCase 1000 (js "Get Weather")
           (js "OpenAIProvider") None None Samples.unreachable);
    [reflexivity | discriminate | reflexivity].
Defined.

(** A store that is reached at the third attempt: the two failures are
    logged by the listener and [get] returns a miss. *)
Example get_after_retries :
  fst (SemanticCache.get asciiLowerCase 1000 (js "Get Weather") (js "OpenAIProvider")
         None None (create (mkRedis false [] [true; true; false]) None))
  = Returned None
  /\ log (snd (SemanticCache.get asciiLowerCase 1000 (js "Get Weather")
                 (js "OpenAIProvider") None None
                 (create (mkRedis false [] [true; true; false]) None)))
     = [js "Redis Cache Error:"; js "Redis Cache Error:"].
Proof. vm_compute. split; reflexivity. Qed.

(** Once the client is open, [get] returns whatever the store does: a
    failing command is a logged miss. *)
Lemma get_returns_when_open (toLowerCase : jsstring -> jsstring) (now : Z)
    (prompt model : jsstring) (temperature : option (Z * nat))
    (params : option (list (jsstring * json))) (c : SemanticCache.t) :
  SemanticCache.isOpen (SemanticCache.redis c) = true ->
  exists r, fst (SemanticCache.get toLowerCase now prompt model temperature params c)
            = Returned r.
Proof.
  intros Hopen. unfold SemanticCache.get. rewrite (afterConnect_open now c _ Hopen).
  cbn [fst].
  destruct (SemanticCache.redis_get _ _ _) as [[[v|]|] r]; cbn; eauto.
  destruct (SemanticCache.stored_truthy v); [|cbn; eauto].
  destruct v; cbn; eauto.
  destruct (SemanticCache.updateEntryStats _ _ _ _); cbn; eauto.
Qed.

Lemma get_miss_when_store_fails (toLowerCase : jsstring -> jsstring) (now : Z)
    (prompt model : jsstring) (temperature : option (Z * nat))
    (params : option (list (jsstring * json))) (c : SemanticCache.t)
    (rest : list bool) :
  SemanticCache.isOpen (SemanticCache.redis c) = true ->
  SemanticCache.faults (SemanticCache.redis c) = true :: rest ->
  fst (SemanticCache.get toLowerCase now prompt model temperature params c)
  = Returned None
  /\ SemanticCache.log
       (snd (SemanticCache.get toLowerCase now prompt model temperature params c))
     = SemanticCache.log c ++ [js "Cache get error:"]
  /\ misses (SemanticCache.stats
               (snd (SemanticCache.get toLowerCase now prompt model temperature
                       params c)))
     = misses (SemanticCache.stats c) + 1.
Proof.
  intros Hopen Hf. unfold SemanticCache.get. rewrite (afterConnect_open now c _ Hopen).
  unfold SemanticCache.redis_get, SemanticCache.command. cbn. rewrite Hf. cbn.
  repeat split.
Qed.

End CacheFacts.

(** ** The documentation generator and the enhancement service *)

Module OrchestratorFacts.

Local Open Scope Z_scope.

(** A failing provider call in the loop of generateToolDocumentation: the
    turn does not throw, the entries collected so far stay as they are, the
    fallback built from the tool is appended, and a warning is logged. *)
Lemma documentTool_falls_back (toLowerCase : jsstring -> jsstring)
    (estimateEntrySize : CacheEntry -> Z) (h : Helpers) (now : Z)
    (context : DocumentationGenerator.GenerationContext) (minifiedSpec : MinifiedSpec)
    (tool : MCPTool) (toolDocs : list json) (g g1 g2 : DocumentationGenerator.t) :
  DocumentationGenerator.cacheGet toLowerCase now
    (DocumentationGenerator.toolDocKey tool) g = (None, g1) ->
  DocumentationGenerator.generate
    (renderToolDocPrompt h tool minifiedSpec (DocumentationGenerator.language context))
    (mkOptions 1500 (2, 1%nat)) g1 = (Thrown, g2) ->
  DocumentationGenerator.documentTool toLowerCase estimateEntrySize h now context
    minifiedSpec tool (toolDocs, g)
  = (Returned tt,
     (toolDocs
      ++ [toolDocumentation_toJSON
            (DocumentationGenerator.generateFallbackToolDoc toLowerCase tool)],
      DocumentationGenerator.warn g2
        (js "Failed to generate docs for tool " ++ tool_name tool ++ js ":"))).
Proof.
  intros Hget Hgen. unfold DocumentationGenerator.documentTool.
  now rewrite Hget, Hgen.
Qed.

(** The same failure in the loop of generateCodeExamples: the turn does not
    throw and a warning is logged, but nothing is appended. *)
Lemma exampleForTool_skips (toLowerCase : jsstring -> jsstring)
    (estimateEntrySize : CacheEntry -> Z) (h : Helpers) (now : Z)
    (context : DocumentationGenerator.GenerationContext)
    (tool : MCPTool) (examples : list json) (g g1 g2 : DocumentationGenerator.t) :
  DocumentationGenerator.cacheGet toLowerCase now
    (js "example-" ++ tool_name tool ++ js "-" ++ DocumentationGenerator.language context)
    g = (None, g1) ->
  DocumentationGenerator.generate
    (renderExamplePrompt h tool (DocumentationGenerator.language context)
       (DocumentationGenerator.projectName context))
    (mkOptions 800 (4, 1%nat)) g1 = (Thrown, g2) ->
  DocumentationGenerator.exampleForTool toLowerCase estimateEntrySize h now context
    tool (examples, g)
  = (Returned tt,
     (examples,
      DocumentationGenerator.warn g2
        (js "Failed to generate example for tool " ++ tool_name tool ++ js ":"))).
Proof.
  intros Hget Hgen. unfold DocumentationGenerator.exampleForTool.
  now rewrite Hget, Hgen.
Qed.

(** C4 fails for the code examples of the documentation generator.  The
    provider answers the first tool, throws for the second and answers the
    third.  generateToolDocumentation returns three entries, the second
    being the fallback built from the tool; generateCodeExamples returns
    two, and nothing stands for the second tool.  Both log the failure and
    neither throws. *)
Theorem failed_example_has_no_fallback :
  fst (DocumentationGenerator.generateToolDocumentation asciiLowerCase
         Samples.entrySize Samples.helpers 1000 Samples.context
         (OpenAPIMinifier.minify Samples.doc_pets) Samples.generator)
  = Returned
      [DocumentationGenerator.parseToolDocumentation asciiLowerCase Samples.helpers
         (js "first") (Samples.tool "getWeather");
       toolDocumentation_toJSON
         (DocumentationGenerator.generateFallbackToolDoc asciiLowerCase
            (Samples.tool "getTime"));
       DocumentationGenerator.parseToolDocumentation asciiLowerCase Samples.helpers
         (js "third") (Samples.tool "getName")]
  /\ fst (DocumentationGenerator.generateCodeExamples asciiLowerCase
            Samples.entrySize Samples.helpers 1000 Samples.context
            (OpenAPIMinifier.minify Samples.doc_pets) Samples.generator)
     = Returned
         [codeExample_toJSON
            (DocumentationGenerator.parseCodeExample Samples.helpers (js "first")
               (Samples.tool "getWeather") (js "typescript"));
          codeExample_toJSON
            (DocumentationGenerator.parseCodeExample Samples.helpers (js "third")
               (Samples.tool "getName") (js "typescript"))]
  /\ DocumentationGenerator.console
       (snd (DocumentationGenerator.generateCodeExamples asciiLowerCase
               Samples.entrySize Samples.helpers 1000 Samples.context
               (OpenAPIMinifier.minify Samples.doc_pets) Samples.generator))
     = [js "Failed to generate example for tool getTime:"].
Proof. vm_compute. repeat split. Qed.

Section ServiceFacts.

Variable toLowerCase : jsstring -> jsstring.
Variable estimateEntrySize : CacheEntry -> Z.
Variable h : Helpers.
Variable now : Z.
Variable ExampleGenerator : Type.
Variable generateExamples :
  DocumentationGenerator.GenerationContext -> ExampleGenerator
  -> outcome json * ExampleGenerator.
Variable exampleStats : ExampleGenerator -> CacheStats.

Local Abbreviation service := (IntelligenceService.t ExampleGenerator).
Local Abbreviation withCosts := (IntelligenceService.withCosts ExampleGenerator).
Local Abbreviation enhanceProject :=
  (IntelligenceService.enhanceProject toLowerCase estimateEntrySize h now
     ExampleGenerator generateExamples exampleStats).

Ltac by_cases :=
  repeat match goal with
         | |- context [match ?x with _ => _ end] => destruct x eqn:?
         | |- context [if ?x then _ else _] => destruct x eqn:?
         end;
  try reflexivity.

Lemma documentationStep_costs (c : IntelligenceService.Costs)
    (options : option IntelligenceService.Options)
    (context : DocumentationGenerator.GenerationContext)
    (e : IntelligenceService.EnhancedProject) (s : service) :
  IntelligenceService.documentationStep toLowerCase estimateEntrySize h now
    ExampleGenerator options context (e, withCosts s c)
  = IntelligenceService.recost ExampleGenerator c (IntelligenceService.documentationStep toLowerCase estimateEntrySize h
                now ExampleGenerator options context (e, s)).
Proof.
  destruct s as [[] ? ? ? ? ? ? ?].
  unfold IntelligenceService.documentationStep, IntelligenceService.recost. cbn. by_cases.
Qed.

Lemma examplesStep_costs (c : IntelligenceService.Costs)
    (options : option IntelligenceService.Options)
    (context : DocumentationGenerator.GenerationContext)
    (e : IntelligenceService.EnhancedProject) (s : service) :
  IntelligenceService.examplesStep ExampleGenerator generateExamples exampleStats
    options context (e, withCosts s c)
  = IntelligenceService.recost ExampleGenerator c (IntelligenceService.examplesStep ExampleGenerator generateExamples
                exampleStats options context (e, s)).
Proof.
  destruct s as [[] ? ? ? ? ? ? ?].
  unfold IntelligenceService.examplesStep, IntelligenceService.recost. cbn. by_cases.
Qed.

Lemma validateImplementation_costs (c : IntelligenceService.Costs)
    (project : IntelligenceService.GeneratedProject) (s : service) :
  IntelligenceService.validateImplementation h ExampleGenerator project (withCosts s c)
  = (fst (IntelligenceService.validateImplementation h ExampleGenerator project s),
     withCosts (snd (IntelligenceService.validateImplementation h ExampleGenerator
                       project s)) c).
Proof.
  destruct s as [[] ? vp ? ? ? ? ?].
  unfold IntelligenceService.validateImplementation, IntelligenceService.withCosts.
  cbn -[firstn LLMProvider.generate].
  destruct (IntelligenceService.files project); [|reflexivity].
  destruct vp; destruct (LLMProvider.generate _ _ _) as [[r|] p];
    cbn -[firstn]; try destruct (JSON_parse h _); reflexivity.
Qed.

Lemma generateOptimizationHints_costs (c : IntelligenceService.Costs)
    (project : IntelligenceService.GeneratedProject) (title : jsstring) (s : service) :
  IntelligenceService.generateOptimizationHints h ExampleGenerator project title
    (withCosts s c)
  = (fst (IntelligenceService.generateOptimizationHints h ExampleGenerator project
            title s),
     withCosts (snd (IntelligenceService.generateOptimizationHints h ExampleGenerator
                       project title s)) c).
Proof.
  destruct s as [[] ? ? lp ? ? ? ?].
  unfold IntelligenceService.generateOptimizationHints, IntelligenceService.withCosts.
  cbn -[LLMProvider.generate].
  destruct lp; destruct (LLMProvider.generate _ _ _) as [[r|] p];
    cbn; try destruct (JSON_parse h _); reflexivity.
Qed.

Lemma trackFeatureUsage_costs (c : IntelligenceService.Costs) (feature : string)
    (s : service) :
  IntelligenceService.trackFeatureUsage ExampleGenerator feature (withCosts s c)
  = withCosts (IntelligenceService.trackFeatureUsage ExampleGenerator feature s) c.
Proof. reflexivity. Qed.

Lemma validationStep_costs (c : IntelligenceService.Costs)
    (options : option IntelligenceService.Options)
    (project : IntelligenceService.GeneratedProject)
    (e : IntelligenceService.EnhancedProject) (s : service) :
  IntelligenceService.validationStep h ExampleGenerator options project
    (e, withCosts s c)
  = IntelligenceService.recost ExampleGenerator c (IntelligenceService.validationStep h ExampleGenerator options project
                (e, s)).
Proof.
  unfold IntelligenceService.validationStep, IntelligenceService.recost.
  change (IntelligenceService.features
            (IntelligenceService.config ExampleGenerator (withCosts s c)))
    with (IntelligenceService.features (IntelligenceService.config ExampleGenerator s)).
  destruct (_ && _); [|reflexivity].
  rewrite trackFeatureUsage_costs, validateImplementation_costs.
  now destruct (IntelligenceService.validateImplementation _ _ _ _) as [[v|] s'].
Qed.

Lemma optimizationStep_costs (c : IntelligenceService.Costs)
    (options : option IntelligenceService.Options)
    (project : IntelligenceService.GeneratedProject) (title : jsstring)
    (e : IntelligenceService.EnhancedProject) (s : service) :
  IntelligenceService.optimizationStep h ExampleGenerator options project title
    (e, withCosts s c)
  = (fst (IntelligenceService.optimizationStep h ExampleGenerator options project
            title (e, s)),
     withCosts (snd (IntelligenceService.optimizationStep h ExampleGenerator options
                       project title (e, s))) c).
Proof.
  unfold IntelligenceService.optimizationStep.
  change (IntelligenceService.features
            (IntelligenceService.config ExampleGenerator (withCosts s c)))
    with (IntelligenceService.features (IntelligenceService.config ExampleGenerator s)).
  destruct (_ && _); [|reflexivity].
  rewrite trackFeatureUsage_costs, generateOptimizationHints_costs.
  now destruct (IntelligenceService.generateOptimizationHints _ _ _ _ _) as [v s'].
Qed.

(** The service has no budget check: enhanceProject does the same under
    every cost configuration (same result, same provider calls, same log),
    so a ceiling below the estimate stops nothing. *)
Theorem enhanceProject_ignores_cost_ceiling (c : IntelligenceService.Costs)
    (project : IntelligenceService.GeneratedProject) (spec : Document)
    (options : option IntelligenceService.Options) (s : service) :
  enhanceProject project spec options (withCosts s c)
  = (fst (enhanceProject project spec options s),
     withCosts (snd (enhanceProject project spec options s)) c).
Proof.
  unfold IntelligenceService.enhanceProject.
  change (IntelligenceService.metrics ExampleGenerator (withCosts s c))
    with (IntelligenceService.metrics ExampleGenerator s).
  set (s1 := IntelligenceService.withMetrics ExampleGenerator s _).
  change (IntelligenceService.withMetrics ExampleGenerator (withCosts s c) _)
    with (withCosts s1 c).
  cbv zeta. rewrite documentationStep_costs.
  destruct (IntelligenceService.documentationStep _ _ _ _ _ _ _ _) as [[[]|] [e2 s2]];
    unfold IntelligenceService.recost; cbn [fst snd]; [|reflexivity].
  rewrite examplesStep_costs.
  destruct (IntelligenceService.examplesStep _ _ _ _ _ _) as [[[]|] [e3 s3]];
    unfold IntelligenceService.recost; cbn [fst snd]; [|reflexivity].
  rewrite validationStep_costs.
  destruct (IntelligenceService.validationStep _ _ _ _ _) as [[[]|] [e4 s4]];
    unfold IntelligenceService.recost; cbn [fst snd]; [|reflexivity].
  rewrite optimizationStep_costs.
  now destruct (IntelligenceService.optimizationStep _ _ _ _ _ _) as [e5 s5].
Qed.

End ServiceFacts.

(** C8.  The configured ceiling is not enforced.  The estimate for the
    documentation of the sample project is above the ceiling of one cent
    ([costs.maxMonthly], which the command line sets from --max-cost), and
    enhanceProject raises no error: it returns a result for which four calls
    of generate were made. *)
Lemma enhancement_runs_over_budget :
  Qlt (IntelligenceService.maxMonthly
         (IntelligenceService.costs
            (IntelligenceService.config unit Samples.service)))
      (IntelligenceService.estimatedCost
         (IntelligenceService.estimateEnhancementCost unit Samples.service
            Samples.project Samples.doc_pets [js "documentation"]))
  /\ option_map IntelligenceService.ep_features
       (match fst (IntelligenceService.enhanceProject asciiLowerCase Samples.entrySize
                     Samples.helpers 1000 unit (fun _ g => (Returned JNull, g))
                     (fun _ => freshStats) Samples.project Samples.doc_pets None
                     Samples.service) with
        | Returned e => Some e
        | Thrown => None
        end)
     = Some [js "enhanced-documentation"]
  /\ List.map call_prompt
       (IntelligenceService.providerCalls unit
          (snd (IntelligenceService.enhanceProject asciiLowerCase Samples.entrySize
                  Samples.helpers 1000 unit (fun _ g => (Returned JNull, g))
                  (fun _ => freshStats) Samples.project Samples.doc_pets None
                  Samples.service)))
     = [js "readme for pets"; js "document listPets"; js "error guide";
        js "api reference"].
Proof. vm_compute. repeat split. Qed.

End OrchestratorFacts.

(* ================================================================== *)
(** * Further properties of the code *)

(** ** The compressor: what its output looks like *)

Module MinifierProperties.
Import OpenAPIMinifier.
Local Open Scope nat_scope.

(** *** Truncation *)

Lemma truthy_app_dots (s : jsstring) : truthy (s ++ js "...") = true.
Proof. now destruct s. Qed.

(** Truncating a truncated description with the same limit changes
    nothing, and a truncated description is never empty and never longer
    than the limit plus the three dots. *)
Theorem truncateDescription_idempotent (d : option jsstring) (maxLength : nat) :
  truncateDescription (truncateDescription d maxLength) maxLength
  = truncateDescription d maxLength
  /\ match truncateDescription d maxLength with
     | Some r => 0 < length r <= maxLength + 3
     | None => d = None \/ d = Some []
     end.
Proof.
  unfold truncateDescription. destruct d as [s|]; [|now split; [|left]].
  destruct s as [|c s]; [now split; [|right]|].
  cbn [truthy].
  destruct (Nat.ltb_spec maxLength (length (c :: s))) as [H|H].
  - rewrite truthy_app_dots.
    assert (L : length (substring0 maxLength (c :: s) ++ js "...") = maxLength + 3).
    { unfold substring0. rewrite length_app, length_firstn.
      change (length (js "...")) with 3. lia. }
    split; [|lia].
    destruct (Nat.ltb_spec maxLength
                (length (substring0 maxLength (c :: s) ++ js "..."))); [|lia].
    f_equal. f_equal. unfold substring0.
    rewrite firstn_app, firstn_firstn, length_firstn.
    replace (Nat.min maxLength maxLength) with maxLength by lia.
    replace (maxLength - Nat.min maxLength (length (c :: s))) with 0 by lia.
    cbn [firstn]. now rewrite app_nil_r.
  - cbn [truthy]. destruct (Nat.ltb_spec maxLength (length (c :: s))); [lia|].
    split; [reflexivity|]. cbn [length] in *. lia.
Qed.

(** *** The paths of a compressed specification *)

Lemma upper_of_lower (c : N) : ascii_upper (ascii_lower c) = ascii_upper c.
Proof.
  unfold ascii_upper, ascii_lower.
  destruct (N.leb_spec 65 c), (N.leb_spec c 90); cbn [andb];
    repeat match goal with
           | |- context [(?a <=? ?b)%N] => destruct (N.leb_spec a b)
           end; cbn [andb]; lia.
Qed.

Lemma map_upper_of_lower (m : jsstring) :
  List.map ascii_upper (List.map ascii_lower m) = List.map ascii_upper m.
Proof. rewrite map_map. apply map_ext. exact upper_of_lower. Qed.

Lemma isHttpMethod_upper (m : jsstring) :
  isHttpMethod m = true ->
  In (List.map ascii_upper m)
     [js "GET"; js "POST"; js "PUT"; js "PATCH"; js "DELETE"; js "HEAD"; js "OPTIONS"].
Proof.
  unfold isHttpMethod. intros H. apply existsb_exists in H as (x & Hx & E).
  apply jsstring_eqb_eq in E. rewrite <- map_upper_of_lower, E.
  cbn [In] in Hx.
  repeat (destruct Hx as [<-|Hx]; [cbn; tauto|]). easy.
Qed.

Lemma minifyOperations_from (item : PathItemObject) (o : MinifiedOperation) :
  In o (minifyOperations item) ->
  exists m op,
    In (m, Some op) item /\ isHttpMethod m = true
    /\ method o = List.map ascii_upper m
    /\ operationId o = op_operationId op.
Proof.
  induction item as [|[m [op|]] item IH]; cbn [minifyOperations]; [easy| |].
  - destruct (isHttpMethod m) eqn:E.
    + intros [<-|H].
      * exists m, op. cbn. auto.
      * destruct (IH H) as (m' & op' & ? & ?). exists m', op'. cbn. auto.
    + intros H. destruct (IH H) as (m' & op' & ? & ?). exists m', op'. cbn. auto.
  - intros H. destruct (IH H) as (m' & op' & ? & ?). exists m', op'. cbn. auto.
Qed.

Lemma minifyPaths_from (ps : list (jsstring * option PathItemObject))
    (p : MinifiedPath) :
  In p (minifyPaths ps) ->
  exists item,
    In (path p, Some item) ps /\ operations p = minifyOperations item
    /\ operations p <> [].
Proof.
  induction ps as [|[k [item|]] ps IH]; cbn [minifyPaths]; [easy| |].
  - destruct (minifyOperations item) as [|o ops] eqn:E.
    + intros H. destruct (IH H) as (i & ? & ?). exists i. cbn. auto.
    + intros [<-|H].
      * exists item. cbn. rewrite E. repeat split; [now left | easy].
      * destruct (IH H) as (i & ? & ?). exists i. cbn. auto.
  - intros H. destruct (IH H) as (i & ? & ?). exists i. cbn. auto.
Qed.

(** Every path [minify] returns is a path of the document, has at least
    one operation, and every operation carries one of the seven method
    names in upper case. *)
Theorem minify_paths_wellformed (spec : Document) (p : MinifiedPath) :
  In p (paths (minify spec)) ->
  In (path p) (List.map fst (orEmpty (doc_paths spec)))
  /\ operations p <> []
  /\ Forall
       (fun o =>
          In (method o)
             [js "GET"; js "POST"; js "PUT"; js "PATCH"; js "DELETE"; js "HEAD";
              js "OPTIONS"])
       (operations p).
Proof.
  intros H. change (paths (minify spec)) with (minifyPaths (orEmpty (doc_paths spec))) in H.
  destruct (minifyPaths_from _ _ H) as (item & Hin & E & Hne).
  repeat split; [|exact Hne|].
  - apply in_map_iff. now exists (path p, Some item).
  - apply Forall_forall. intros o Ho. rewrite E in Ho.
    destruct (minifyOperations_from _ _ Ho) as (m & op & _ & Hm & -> & _).
    now apply isHttpMethod_upper.
Qed.

Lemma minify_paths_wellformed_witness :
  exists p, In p (paths (minify Samples.doc_pets))
            /\ In (path p) (List.map fst (orEmpty (doc_paths Samples.doc_pets)))
            /\ operations p <> []
            /\ Forall
                 (fun o =>
                    In (method o)
                       [js "GET"; js "POST"; js "PUT"; js "PATCH"; js "DELETE";
                        js "HEAD"; js "OPTIONS"])
                 (operations p).
Proof.
  eexists. split; [left; reflexivity|].
  apply (minify_paths_wellformed Samples.doc_pets). left. reflexivity.
Defined.

(** *** Selecting operations *)

Lemma filterOperations_from (ids : list jsstring) (item : PathItemObject)
    (m : jsstring) (op : OperationObject) :
  In (m, Some op) (filterOperations ids item) ->
  In (m, Some op) item /\ hasOperationId ids op = true.
Proof.
  induction item as [|[m' [op'|]] item IH]; cbn [filterOperations]; [easy| |].
  - destruct (isHttpMethod m' && hasOperationId ids op') eqn:E.
    + intros [[= <- <-]|H].
      * apply andb_true_iff in E. split; [now left | tauto].
      * destruct (IH H). split; [now right | assumption].
    + intros H. destruct (IH H). split; [now right | assumption].
  - intros H. destruct (IH H). split; [now right | assumption].
Qed.

Lemma relevantEntries_from (ps : list (jsstring * option PathItemObject))
    (ids : list jsstring) (k : jsstring) (item : PathItemObject) :
  In (k, Some item) (relevantEntries ps ids) ->
  exists source, In (k, Some source) ps /\ item = filterOperations ids source.
Proof.
  induction ps as [|[k' [source|]] ps IH]; cbn [relevantEntries]; [easy| |].
  - destruct (filterOperations ids source) as [|x kept] eqn:E.
    + intros H. destruct (IH H) as (s & ? & ?). exists s. split; [now right | assumption].
    + intros [[= <- <-]|H].
      * exists source. split; [now left | now rewrite E].
      * destruct (IH H) as (s & ? & ?). exists s. split; [now right | assumption].
  - intros H. destruct (IH H) as (s & ? & ?). exists s. split; [now right | assumption].
Qed.

Lemma hasOperationId_In (ids : list jsstring) (op : OperationObject) :
  hasOperationId ids op = true ->
  exists i, op_operationId op = Some i /\ i <> [] /\ In i ids.
Proof.
  unfold hasOperationId. destruct (op_operationId op) as [i|]; [|discriminate].
  intros H. apply andb_true_iff in H as [T H]. exists i.
  repeat split.
  - now destruct i.
  - apply existsb_exists in H as (x & Hx & E).
    apply jsstring_eqb_eq in E. now subst.
Qed.

(** [minifyForOperation] keeps an operation only when its operationId is
    one of those asked for (so it keeps none for an empty list); the
    schemas are those of [minify]: none is filtered out. *)
Theorem minifyForOperation_selects (spec : Document) (operationIds : list jsstring) :
  (forall p o,
      In p (paths (minifyForOperation spec operationIds)) ->
      In o (operations p) ->
      exists i, operationId o = Some i /\ i <> [] /\ In i operationIds)
  /\ paths (minifyForOperation spec []) = []
  /\ schemas (minifyForOperation spec operationIds) = schemas (minify spec).
Proof.
  assert (G : forall ids p o,
             In p (paths (minifyForOperation spec ids)) ->
             In o (operations p) ->
             exists i, operationId o = Some i /\ i <> [] /\ In i ids).
  { intros ids p o Hp Ho.
    change (paths (minifyForOperation spec ids))
      with (minifyPaths (filterPathsByOperations (orEmpty (doc_paths spec)) ids)) in Hp.
    destruct (minifyPaths_from _ _ Hp) as (item & Hin & E & _).
    unfold filterPathsByOperations, assigned in Hin.
    apply filter_In in Hin as [Hin _].
    destruct (relevantEntries_from _ _ _ _ Hin) as (source & _ & ->).
    rewrite E in Ho.
    destruct (minifyOperations_from _ _ Ho) as (m & op & Hop & _ & _ & ->).
    apply filterOperations_from in Hop as [_ Hop].
    now apply hasOperationId_In. }
  split; [apply G|]. split; [|reflexivity].
  destruct (paths (minifyForOperation spec [])) as [|p l] eqn:E; [reflexivity|].
  assert (Hp : In p (paths (minifyForOperation spec []))) by (rewrite E; now left).
  change (paths (minifyForOperation spec []))
    with (minifyPaths (filterPathsByOperations (orEmpty (doc_paths spec)) [])) in Hp.
  destruct (minifyPaths_from _ _ Hp) as (_ & _ & _ & Hne).
  destruct (operations p) as [|o ops] eqn:Eo; [easy|].
  destruct (G [] p o) as (i & _ & _ & []).
  - rewrite E. now left.
  - rewrite Eo. now left.
Qed.

(** *** The stages of optimizeForTokenLimit *)

Lemma dropDescription_clean (f : json -> json) (kvs : list (jsstring * json)) :
  Forall (fun kv => hasDescription (f (snd kv)) = false) kvs ->
  existsb
    (fun kv => jsstring_eqb (fst kv) (js "description") || hasDescription (snd kv))
    (dropDescription f kvs) = false.
Proof.
  induction 1 as [|kv kvs H _ IH]; [reflexivity|].
  cbn [dropDescription].
  destruct (jsstring_eqb (fst kv) (js "description")) eqn:E; [exact IH|].
  cbn [existsb fst snd]. now rewrite E, H, IH.
Qed.

Lemma removeDescriptionsRecursive_clean (j : json) :
  hasDescription (removeDescriptionsRecursive j) = false.
Proof.
  induction j as [| | | |xs IH|kvs IH] using json_induction; try reflexivity.
  - cbn [removeDescriptionsRecursive hasDescription].
    induction IH as [|x xs H _ IHxs]; [reflexivity|].
    cbn [List.map existsb]. now rewrite H, IHxs.
  - cbn [removeDescriptionsRecursive hasDescription].
    apply dropDescription_clean. exact IH.
Qed.

(** After [removeDescriptions] no object of the serialized specification,
    at any depth, has a [description] key: a schema, a schema property or a
    response that is itself named [description] is deleted with the rest. *)
Theorem removeDescriptions_leaves_none (m : MinifiedSpec) :
  hasDescription (spec_toJSON (removeDescriptions m)) = false
  /\ lookup (js "description") (schemas (removeDescriptions m)) = None.
Proof.
  split.
  - rewrite MinifierFacts.removeDescriptions_toJSON.
    apply removeDescriptionsRecursive_clean.
  - cbn [removeDescriptions schemas].
    induction (schemas m) as [|kv l IH]; [reflexivity|].
    cbn [dropDescription].
    destruct (jsstring_eqb (fst kv) (js "description")) eqn:E; [exact IH|].
    destruct kv as [k v]. cbn [lookup fst snd] in *.
    now rewrite CacheFacts.jsstring_eqb_sym, E.
Qed.


(** *** Path reduction *)

Lemma insertPath_descending (p : MinifiedPath) (l : list MinifiedPath) :
  descending l -> descending (insertPath p l).
Proof.
  induction l as [|q l IH]; [now cbn|].
  intros [Hq Hl]. cbn [insertPath].
  destruct (Z.ltb_spec (pathScore p) (pathScore q)) as [H|H].
  - split; [|now apply IH].
    apply Forall_forall. intros x Hx.
    apply (Permutation_in _ (MinifierFacts.insertPath_perm p l)) in Hx.
    destruct Hx as [<-|Hx]; [lia|].
    now apply (proj1 (Forall_forall _ _) Hq).
  - split; [|now split].
    constructor; [exact H|].
    apply Forall_forall. intros x Hx.
    pose proof (proj1 (Forall_forall _ _) Hq x Hx) as Hx'. cbv beta in Hx'. lia.
Qed.

Lemma sortPaths_descending (l : list MinifiedPath) : descending (sortPaths l).
Proof.
  induction l as [|p l IH]; [now cbn|].
  cbn [sortPaths fold_right]. fold (sortPaths l). now apply insertPath_descending.
Qed.

Lemma in_skipn {A} (k : nat) (l : list A) (x : A) : In x (skipn k l) -> In x l.
Proof.
  revert k. induction l as [|y l IH]; intros [|k]; cbn [skipn]; try easy.
  intros H. right. now apply (IH k).
Qed.

Lemma descending_split (k : nat) (l : list MinifiedPath) :
  descending l ->
  forall p q, In p (firstn k l) -> In q (skipn k l) ->
              (pathScore q <= pathScore p)%Z.
Proof.
  revert k. induction l as [|x l IH]; intros [|k] D p q Hp Hq;
    cbn [firstn skipn] in *; try easy.
  destruct D as [Hx Hl]. destruct Hp as [<-|Hp].
  - apply (proj1 (Forall_forall _ _) Hx). eapply in_skipn. exact Hq.
  - now apply (IH k).
Qed.

(** [reduceOperations] keeps the paths of highest priority: the paths of
    the input are the kept ones and the dropped ones, and no dropped path
    has a higher score than a kept one.  The remaining fields are not
    touched. *)
Theorem reduceOperations_keeps_best (m : MinifiedSpec) (maxTokens : Z) :
  info (reduceOperations m maxTokens) = info m
  /\ schemas (reduceOperations m maxTokens) = schemas m
  /\ exists dropped,
       Permutation (paths m) (paths (reduceOperations m maxTokens) ++ dropped)
       /\ forall p q,
            In p (paths (reduceOperations m maxTokens)) -> In q dropped ->
            (pathScore q <= pathScore p)%Z.
Proof.
  split; [reflexivity|]. split; [reflexivity|].
  unfold reduceOperations. cbn [paths].
  match goal with |- context [keepPaths ?a ?b ?c] =>
    destruct (MinifierFacts.keepPaths_prefix a b c) as [k ->] end.
  exists (skipn k (sortPaths (paths m))). split.
  - rewrite firstn_skipn. symmetry. apply MinifierFacts.sortPaths_perm.
  - apply descending_split, sortPaths_descending.
Qed.

Lemma estimateTokens_nonneg (s : jsstring) : (0 <= estimateTokens s)%Z.
Proof. unfold estimateTokens. apply Z.div_pos; lia. Qed.

Lemma pathsTokens_nonneg (l : list MinifiedPath) : (0 <= pathsTokens l)%Z.
Proof.
  induction l as [|p l IH]; cbn [pathsTokens fold_right]; [lia|].
  fold (pathsTokens l). pose proof (estimateTokens_nonneg (stringify (path_toJSON p))).
  lia.
Qed.

Lemma keepPaths_budget (maxTokens cur : Z) (l : list MinifiedPath) :
  keepPaths maxTokens cur l <> [] ->
  (10 * (cur + pathsTokens (keepPaths maxTokens cur l)) <= 9 * maxTokens)%Z.
Proof.
  revert cur. induction l as [|p l IH]; intros cur; cbn [keepPaths]; [easy|].
  destruct (Z.leb_spec (10 * (cur + estimateTokens (stringify (path_toJSON p))))
              (9 * maxTokens)) as [H|H]; [|easy].
  intros _. cbn [pathsTokens fold_right].
  fold (pathsTokens (keepPaths maxTokens
                       (cur + estimateTokens (stringify (path_toJSON p))) l)).
  destruct (keepPaths maxTokens (cur + estimateTokens (stringify (path_toJSON p))) l)
    as [|q r] eqn:E.
  - change (pathsTokens []) with 0%Z. lia.
  - specialize (IH (cur + estimateTokens (stringify (path_toJSON p)))%Z).
    rewrite E in IH. specialize (IH ltac:(easy)). lia.
Qed.

(** The budget of [reduceOperations]: the estimate of info and schemas
    plus the estimates of the kept paths stays within nine tenths of
    [maxTokens] whenever a path is kept, and no path is kept when info and
    schemas alone exceed that share. *)
Theorem reduceOperations_budget (m : MinifiedSpec) (maxTokens : Z) :
  let base :=
    estimateTokens
      (stringify (JObj (field "info" (info_toJSON (info m))
                        ++ field "schemas" (schemas_toJSON (schemas m))))) in
  let kept := paths (reduceOperations m maxTokens) in
  (kept <> [] -> 10 * (base + pathsTokens kept) <= 9 * maxTokens)%Z
  /\ (9 * maxTokens < 10 * base -> kept = [])%Z.
Proof.
  cbv zeta. unfold reduceOperations. cbn [paths]. split.
  - apply keepPaths_budget.
  - intros H. destruct (sortPaths (paths m)) as [|p l]; [reflexivity|].
    cbn [keepPaths].
    pose proof (estimateTokens_nonneg (stringify (path_toJSON p))).
    match goal with |- context [(?a <=? ?b)%Z] => destruct (Z.leb_spec a b) end;
      [lia | reflexivity].
Qed.

(** *** The count recorded by minify *)

Lemma revapp_nonnil (d d' : Decimal.uint) :
  d' <> Decimal.Nil -> Decimal.revapp d d' <> Decimal.Nil.
Proof.
  revert d'. induction d; intros d' H; cbn; try assumption; apply IHd; discriminate.
Qed.

Lemma to_little_uint_nonnil (p : positive) : Pos.to_little_uint p <> Decimal.Nil.
Proof.
  induction p; cbn; [| |discriminate];
    destruct (Pos.to_little_uint p); cbn; congruence.
Qed.

Lemma nat_digits_nonempty (n : N) : 1 <= length (nat_digits n).
Proof.
  unfold nat_digits.
  assert (H : N.to_uint n <> Decimal.Nil).
  { destruct n; [discriminate|]. cbn. unfold Pos.to_uint, Decimal.rev.
    pose proof (to_little_uint_nonnil p).
    destruct (Pos.to_little_uint p); [congruence|..]; cbn; apply revapp_nonnil;
      discriminate. }
  destruct (N.to_uint n); [congruence|..]; cbn [uint_digits length]; lia.
Qed.

Lemma number_to_string_nonempty (m : Z) (e : nat) : 1 <= length (number_to_string m e).
Proof.
  unfold number_to_string.
  destruct (_ =? 0)%N; [cbn; lia|].
  destruct (strip_zeros _ _) as [s z].
  rewrite length_app. pose proof (nat_digits_nonempty s) as Hs.
  set (sign := if (m <? 0)%Z then _ else _). clearbody sign.
  repeat match goal with
         | |- context [if ?b then _ else _] => destruct b
         end; rewrite ?length_app; cbn [length]; try lia.
  all: destruct (nat_digits s) as [|d [|d' rest]]; cbn [length app] in *; lia.
Qed.

Lemma jlen_integer (n : Z) : 1 <= jlen (JNum n 0).
Proof. unfold jlen. cbn [stringify]. apply number_to_string_nonempty. Qed.

Lemma jlen_spec (m : MinifiedSpec) :
  jlen (spec_toJSON m)
  = 43 + jlen (info_toJSON (info m)) + jlen (JArr (List.map path_toJSON (paths m)))
    + jlen (schemas_toJSON (schemas m)) + jlen (JNum (tokenCount m) 0).
Proof.
  unfold spec_toJSON.
  rewrite jlen_obj, !olen_app, !MinifierFacts.olen_field.
  change (length (quoteJSON (js "info"))) with 6.
  change (length (quoteJSON (js "paths"))) with 7.
  change (length (quoteJSON (js "schemas"))) with 9.
  change (length (quoteJSON (js "tokenCount"))) with 12.
  lia.
Qed.

(** The count [minify] records is at least 19 (the estimate of a
    specification with empty title and version and nothing else) and never
    exceeds the estimate of the specification it returns; with that count
    as the budget, [optimizeForTokenLimit] returns the specification as it
    is. *)
Theorem minify_count_bounds (spec : Document) :
  (19 <= tokenCount (minify spec) <= tokenEstimate (minify spec))%Z
  /\ optimizeForTokenLimit (minify spec) (tokenCount (minify spec)) = minify spec.
Proof.
  split; [split|].
  - change (tokenCount (minify spec))
      with (tokenEstimate (withTokenCount (minify spec) 0)).
    unfold tokenEstimate, estimateTokens.
    fold (jlen (spec_toJSON (withTokenCount (minify spec) 0))).
    rewrite jlen_spec.
    cbn [withTokenCount info paths schemas tokenCount].
    set (i := info (minify spec)).
    assert (Hi : 25 <= jlen (info_toJSON i)).
    { unfold info_toJSON.
      rewrite jlen_obj, !olen_app,
        !MinifierFacts.olen_field.
      change (length (quoteJSON (js "title"))) with 7.
      change (length (quoteJSON (js "version"))) with 9.
      unfold jlen at 1 2. cbn [stringify].
      pose proof (MinifierFacts.quoteJSON_length_ge (title i)).
      pose proof (MinifierFacts.quoteJSON_length_ge (version i)). lia. }
    rewrite jlen_arr. unfold schemas_toJSON.
    rewrite jlen_obj.
    change (jlen (JNum 0 0)) with 1.
    apply Z.div_le_lower_bound; lia.
  - change (tokenCount (minify spec))
      with (tokenEstimate (withTokenCount (minify spec) 0)).
    unfold tokenEstimate. apply estimateTokens_mono.
    fold (jlen (spec_toJSON (withTokenCount (minify spec) 0))).
    fold (jlen (spec_toJSON (minify spec))).
    rewrite !jlen_spec. cbn [withTokenCount info paths schemas tokenCount].
    change (jlen (JNum 0 0)) with 1.
    pose proof (jlen_integer (tokenCount (minify spec))). lia.
  - unfold optimizeForTokenLimit. now rewrite Z.leb_refl.
Qed.

End MinifierProperties.

(** ** The process-local cache: round trips, expiry, capacity *)

Module MemoryCacheProperties.

Local Open Scope Z_scope.

(** *** Maps as association lists *)

Lemma has_key_lookup {A} (k : jsstring) (l : list (jsstring * A)) :
  has_key k l = true -> exists v, lookup k l = Some v.
Proof.
  induction l as [|[k' v] l IH]; cbn [has_key lookup]; [discriminate|].
  destruct (jsstring_eqb k k'); [eauto | exact IH].
Qed.

Lemma lookup_map_set {A} (k : jsstring) (v : A) (l : list (jsstring * A)) :
  lookup k (map_set k v l) = Some v.
Proof.
  unfold map_set. destruct (has_key k l) eqn:E.
  - rewrite CacheFacts.lookup_replace_value, jsstring_eqb_refl.
    destruct (has_key_lookup k l E) as [v' ->]. reflexivity.
  - rewrite CacheFacts.lookup_app.
    assert (H : lookup k l = None).
    { apply CacheFacts.lookup_none. intros Hin.
      apply CacheFacts.has_key_In in Hin. congruence. }
    rewrite H. cbn. now rewrite jsstring_eqb_refl.
Qed.

Lemma lookup_map_delete {A} (k : jsstring) (l : list (jsstring * A)) :
  NoDup (List.map fst l) -> lookup k (map_delete k l) = None.
Proof.
  induction l as [|[k' v] l IH]; cbn [map_delete List.map fst]; [reflexivity|].
  intros H. inversion H as [|? ? Hnot Hl]. subst.
  destruct (jsstring_eqb k k') eqn:E.
  - apply jsstring_eqb_eq in E. subst. now apply CacheFacts.lookup_none.
  - cbn [lookup]. rewrite E. now apply IH.
Qed.

Lemma length_map_delete {A} (k : jsstring) (l : list (jsstring * A)) :
  In k (List.map fst l) -> S (length (map_delete k l)) = length l.
Proof.
  induction l as [|[k' v] l IH]; cbn [map_delete List.map fst In]; [easy|].
  intros H. destruct (jsstring_eqb k k') eqn:E; [reflexivity|].
  cbn [length]. f_equal. apply IH. destruct H as [->|H]; [|exact H].
  now rewrite jsstring_eqb_refl in E.
Qed.

Lemma lookup_In {A} (k : jsstring) (l : list (jsstring * A)) (v : A) :
  lookup k l = Some v -> In k (List.map fst l).
Proof.
  induction l as [|[k' v'] l IH]; cbn [lookup List.map fst In]; [discriminate|].
  destruct (jsstring_eqb k k') eqn:E.
  - apply jsstring_eqb_eq in E. now left.
  - intros H. right. now apply IH.
Qed.

Lemma length_map_set {A} (k : jsstring) (v : A) (l : list (jsstring * A)) :
  (length (map_set k v l) <= S (length l))%nat.
Proof.
  unfold map_set. destruct (has_key k l).
  - assert (H : forall l', length (replace_value k v l') = length l').
    { induction l' as [|[k' v'] l' IH]; cbn [replace_value]; [reflexivity|].
      destruct (jsstring_eqb k k'); cbn [length]; congruence. }
    rewrite H. lia.
  - rewrite length_app. cbn [length]. lia.
Qed.

Lemma map_delete_app {A} (l1 l2 : list (jsstring * A)) (k : jsstring) (v : A) :
  ~ In k (List.map fst l1) ->
  map_delete k (l1 ++ (k, v) :: l2) = l1 ++ l2.
Proof.
  induction l1 as [|[k' v'] l1 IH]; cbn; intros H.
  - now rewrite jsstring_eqb_refl.
  - rewrite CacheFacts.jsstring_eqb_neq by intuition congruence.
    f_equal. apply IH. intuition.
Qed.

Section Runtime.

Variable toLowerCase : jsstring -> jsstring.
Variable estimateEntrySize : CacheEntry -> Z.

Local Abbreviation generateKey := (MemoryCache.generateKey toLowerCase).
Local Abbreviation get := (MemoryCache.get toLowerCase).
Local Abbreviation set := (MemoryCache.set toLowerCase estimateEntrySize).
Local Abbreviation evictLRU := (MemoryCache.evictLRU estimateEntrySize).
Local Abbreviation cleanup := (MemoryCache.cleanup estimateEntrySize).

Lemma evictLRU_defaultTTL (now : Z) (c : MemoryCache.t) :
  MemoryCache.defaultTTL (evictLRU now c) = MemoryCache.defaultTTL c.
Proof.
  unfold MemoryCache.evictLRU.
  destruct (fst (fold_left MemoryCache.oldest (MemoryCache.cache c) (None, now)))
    as [k|]; [|reflexivity].
  now destruct (truthy k).
Qed.

Lemma get_finds_set (now now' : Z) (prompt prompt' model model' : jsstring)
    (response : LLMResponse) (temperature temperature' : option (Z * nat))
    (params params' : option (list (jsstring * json))) (c : MemoryCache.t) :
  generateKey prompt' model' (Some (orDefault temperature' defaultTemperature)) params'
  = generateKey prompt model (Some (orDefault temperature defaultTemperature)) params ->
  fst (get now' prompt' model' temperature' params'
         (set now prompt model response temperature params c))
  = if now' - now <? MemoryCache.defaultTTL c then Some response else None.
Proof.
  intros K. unfold MemoryCache.get, MemoryCache.set.
  cbn [MemoryCache.cache MemoryCache.stats MemoryCache.maxSize MemoryCache.defaultTTL].
  rewrite K, lookup_map_set. unfold MemoryCache.isEntryValid.
  cbn [MemoryCache.defaultTTL metadata created].
  replace (MemoryCache.defaultTTL
             (if MemoryCache.maxSize c <=? Z.of_nat (length (MemoryCache.cache c))
              then MemoryCache.evictLRU estimateEntrySize now c else c))
    with (MemoryCache.defaultTTL c)
    by (destruct (_ <=? _); [now rewrite evictLRU_defaultTTL | reflexivity]).
  now destruct (now' - now <? MemoryCache.defaultTTL c).
Qed.

(** What was stored is what is found: a [get] with the arguments of an
    earlier [set] returns the response that was set for as long as the
    entry is younger than the time to live, and nothing from then on --
    whatever else the cache holds and whether or not the [set] evicted an
    entry. *)
Theorem get_after_set (now now' : Z) (prompt model : jsstring) (response : LLMResponse)
    (temperature : option (Z * nat)) (params : option (list (jsstring * json)))
    (c : MemoryCache.t) :
  fst (get now' prompt model temperature params
         (set now prompt model response temperature params c))
  = if now' - now <? MemoryCache.defaultTTL c then Some response else None.
Proof.
  rewrite (get_finds_set now now' prompt prompt model model response temperature
             temperature params params c eq_refl).
  reflexivity.
Qed.

(** A [get] that finds an expired entry is a miss and deletes the entry,
    but the size of the entry stays counted: [storageUsed] is what it was. *)
Theorem get_expired_entry (now : Z) (prompt model : jsstring)
    (temperature : option (Z * nat)) (params : option (list (jsstring * json)))
    (c : MemoryCache.t) (e : CacheEntry) :
  let k := generateKey prompt model (Some (orDefault temperature defaultTemperature))
             params in
  let r := get now prompt model temperature params c in
  NoDup (List.map fst (MemoryCache.cache c)) ->
  lookup k (MemoryCache.cache c) = Some e ->
  MemoryCache.defaultTTL c <= now - created (metadata e) ->
  fst r = None
  /\ lookup k (MemoryCache.cache (snd r)) = None
  /\ S (length (MemoryCache.cache (snd r))) = length (MemoryCache.cache c)
  /\ storageUsed (MemoryCache.stats (snd r)) = storageUsed (MemoryCache.stats c).
Proof.
  cbv zeta. intros Hnd Hk Hold. unfold MemoryCache.get. rewrite Hk.
  unfold MemoryCache.isEntryValid.
  destruct (Z.ltb_spec (now - created (metadata e)) (MemoryCache.defaultTTL c)); [lia|].
  cbn [fst snd MemoryCache.cache MemoryCache.stats]. repeat split.
  - now apply lookup_map_delete.
  - apply length_map_delete. eapply lookup_In. exact Hk.
Qed.

(** *** Capacity *)

Lemma oldest_candidate (l : list (jsstring * CacheEntry)) (acc : option jsstring * Z) :
  (fst (fold_left MemoryCache.oldest l acc) = fst acc
   /\ forall kv, In kv l -> snd acc <= accessed (metadata (snd kv)))
  \/ exists k, fst (fold_left MemoryCache.oldest l acc) = Some k
                /\ In k (List.map fst l).
Proof.
  revert acc. induction l as [|kv l IH]; intros acc; [left; now split|].
  cbn [fold_left]. unfold MemoryCache.oldest at 2 4.
  destruct (Z.ltb_spec (accessed (metadata (snd kv))) (snd acc)) as [H|H].
  - right.
    destruct (IH (Some (fst kv), accessed (metadata (snd kv)))) as [[E _]|(k & E & Hin)].
    + exists (fst kv). split; [exact E | now left].
    + exists k. split; [exact E | now right].
  - destruct (IH acc) as [[E Hl]|(k & E & Hin)].
    + left. split; [exact E|]. intros kv' [<-|Hin]; [exact H | now apply Hl].
    + right. exists k. split; [exact E | now right].
Qed.

(** The capacity is respected whenever the clock has moved on since the
    last access: a [set] on a cache that holds at most [maxSize] entries,
    all of them last accessed before [now], leaves at most [maxSize]
    entries. *)
Theorem set_within_capacity (now : Z) (prompt model : jsstring) (response : LLMResponse)
    (temperature : option (Z * nat)) (params : option (list (jsstring * json)))
    (c : MemoryCache.t) :
  1 <= MemoryCache.maxSize c ->
  Z.of_nat (length (MemoryCache.cache c)) <= MemoryCache.maxSize c ->
  (forall kv, In kv (MemoryCache.cache c) ->
              truthy (fst kv) = true /\ accessed (metadata (snd kv)) < now) ->
  Z.of_nat (length (MemoryCache.cache
                      (set now prompt model response temperature params c)))
  <= MemoryCache.maxSize c.
Proof.
  intros Hmax Hlen Hall. unfold MemoryCache.set.
  cbn [MemoryCache.cache].
  destruct (Z.leb_spec (MemoryCache.maxSize c)
              (Z.of_nat (length (MemoryCache.cache c)))) as [Hfull|Hroom].
  - unfold MemoryCache.evictLRU.
    destruct (oldest_candidate (MemoryCache.cache c) (None, now))
      as [[_ Hl]|(k & E & Hin)].
    + destruct (MemoryCache.cache c) as [|kv l]; [cbn in Hfull; lia|].
      specialize (Hl kv (in_eq _ _)). cbn [snd] in Hl.
      destruct (Hall kv (in_eq _ _)). lia.
    + rewrite E.
      assert (T : truthy k = true).
      { apply in_map_iff in Hin as (kv & <- & Hkv). now apply Hall. }
      rewrite T. cbn [MemoryCache.cache].
      pose proof (length_map_delete k _ Hin).
      match goal with |- context [map_set ?k' ?v ?l] =>
        pose proof (length_map_set k' v l) end.
      lia.
  - match goal with |- context [map_set ?k' ?v ?l] =>
      pose proof (length_map_set k' v l) end.
    lia.
Qed.

(** *** The periodic sweep *)

Lemma cleanup_from (now : Z) (c0 : MemoryCache.t)
    (rest done : list (jsstring * CacheEntry)) (c : MemoryCache.t) :
  MemoryCache.cache c = done ++ rest ->
  MemoryCache.defaultTTL c = MemoryCache.defaultTTL c0 ->
  NoDup (List.map fst (done ++ rest)) ->
  let r :=
    fold_left
      (fun c kv =>
         if MemoryCache.isEntryValid c now (snd kv) then c
         else MemoryCache.mkCache (map_delete (fst kv) (MemoryCache.cache c))
                (match lookup (fst kv) (MemoryCache.cache c) with
                 | Some entry =>
                     MemoryCache.addStorage (MemoryCache.stats c)
                       (- estimateEntrySize entry)
                 | None => MemoryCache.stats c
                 end)
                (MemoryCache.maxSize c) (MemoryCache.defaultTTL c))
      rest c in
  MemoryCache.cache r
  = done ++ filter (fun kv => MemoryCache.isEntryValid c0 now (snd kv)) rest
  /\ storageUsed (MemoryCache.stats r)
     = storageUsed (MemoryCache.stats c) - expiredSize estimateEntrySize c0 now rest
  /\ totalRequests (MemoryCache.stats r) = totalRequests (MemoryCache.stats c)
  /\ hits (MemoryCache.stats r) = hits (MemoryCache.stats c)
  /\ misses (MemoryCache.stats r) = misses (MemoryCache.stats c)
  /\ costSavings (MemoryCache.stats r) = costSavings (MemoryCache.stats c).
Proof using estimateEntrySize.
  cbv zeta. revert done c.
  induction rest as [|kv rest IH]; intros done c Hc Httl Hnd.
  - cbn. rewrite Hc. repeat split. lia.
  - cbn [fold_left filter expiredSize fold_right].
    fold (expiredSize estimateEntrySize c0 now rest).
    assert (V : MemoryCache.isEntryValid c now (snd kv)
                = MemoryCache.isEntryValid c0 now (snd kv)).
    { unfold MemoryCache.isEntryValid. now rewrite Httl. }
    rewrite V. destruct (MemoryCache.isEntryValid c0 now (snd kv)).
    + destruct (IH (done ++ [kv]) c) as (E & S' & R); try assumption.
      * now rewrite Hc, <- app_assoc.
      * now rewrite <- app_assoc.
      * rewrite E, <- app_assoc. split; [reflexivity|]. split; [exact S' | exact R].
    + assert (Hnot : ~ In (fst kv) (List.map fst done)).
      { rewrite map_app in Hnd. cbn [List.map] in Hnd.
        apply NoDup_remove_2 in Hnd. rewrite in_app_iff in Hnd. tauto. }
      assert (Hl : lookup (fst kv) (MemoryCache.cache c) = Some (snd kv)).
      { rewrite Hc, CacheFacts.lookup_app, (CacheFacts.lookup_none _ _ Hnot).
        destruct kv as [k e]. cbn. now rewrite jsstring_eqb_refl. }
      rewrite Hl, Hc.
      replace (map_delete (fst kv) (done ++ kv :: rest)) with (done ++ rest)
        by (destruct kv as [k e]; symmetry; now apply map_delete_app).
      match goal with |- context [fold_left _ rest ?c'] =>
        destruct (IH done c') as (E & S' & R) end.
      * reflexivity.
      * exact Httl.
      * rewrite map_app in *. cbn [List.map] in Hnd.
        now apply NoDup_remove_1 in Hnd.
      * rewrite E, S'. cbn [MemoryCache.stats MemoryCache.addStorage storageUsed
                              totalRequests hits misses costSavings] in *.
        split; [reflexivity|]. split; [lia | exact R].
Qed.

(** The sweep removes exactly the expired entries, keeps the others in
    their order, and releases the sizes of the removed entries; the request
    counters are not touched. *)
Theorem cleanup_removes_expired (now : Z) (c : MemoryCache.t) :
  NoDup (List.map fst (MemoryCache.cache c)) ->
  MemoryCache.cache (cleanup now c)
  = filter (fun kv => MemoryCache.isEntryValid c now (snd kv)) (MemoryCache.cache c)
  /\ storageUsed (MemoryCache.stats (cleanup now c))
     = storageUsed (MemoryCache.stats c)
       - expiredSize estimateEntrySize c now (MemoryCache.cache c)
  /\ totalRequests (MemoryCache.stats (cleanup now c))
     = totalRequests (MemoryCache.stats c)
  /\ hits (MemoryCache.stats (cleanup now c)) = hits (MemoryCache.stats c)
  /\ misses (MemoryCache.stats (cleanup now c)) = misses (MemoryCache.stats c)
  /\ costSavings (MemoryCache.stats (cleanup now c)) = costSavings (MemoryCache.stats c).
Proof using estimateEntrySize.
  intros Hnd. unfold MemoryCache.cleanup.
  exact (cleanup_from now c (MemoryCache.cache c) [] c eq_refl eq_refl Hnd).
Qed.

End Runtime.

(** An entry set at time 1000 and looked up one hour later. *)
Lemma get_expired_entry_witness :
  fst (MemoryCache.get asciiLowerCase 3601000 (js "Get Weather") (js "OpenAIProvider")
         None None MoreSamples.oneEntry) = None
  /\ storageUsed
       (MemoryCache.stats
          (snd (MemoryCache.get asciiLowerCase 3601000 (js "Get Weather")
                  (js "OpenAIProvider") None None MoreSamples.oneEntry)))
     = storageUsed (MemoryCache.stats MoreSamples.oneEntry).
Proof.
  destruct (get_expired_entry asciiLowerCase 3601000 (js "Get Weather")
              (js "OpenAIProvider") None None MoreSamples.oneEntry
              (MemoryCache.entryOf asciiLowerCase (1000, Samples.askWeather)))
    as (A & _ & _ & B).
  - vm_compute. repeat constructor. intros [].
  - vm_compute. reflexivity.
  - vm_compute. discriminate.
  - split; assumption.
Defined.

(** A third request on a full cache of capacity 2, at time 2000. *)
Lemma set_within_capacity_witness :
  (Z.of_nat
     (length
        (MemoryCache.cache
           (MemoryCache.set asciiLowerCase Samples.entrySize 2000 (js "Who are you?")
              (js "OpenAIProvider") (Samples.response "a server" (2 # 1000)) None None
              MoreSamples.twoEntries)))
   <= 2)%Z.
Proof.
  apply (set_within_capacity asciiLowerCase Samples.entrySize 2000 (js "Who are you?")
           (js "OpenAIProvider") (Samples.response "a server" (2 # 1000)) None None
           MoreSamples.twoEntries).
  - vm_compute. discriminate.
  - vm_compute. discriminate.
  - intros kv H. vm_compute in H.
    destruct H as [<-|[<-|[]]]; vm_compute; split; reflexivity.
Defined.

(** The sweep, one hour after the first of two entries was set. *)
Lemma cleanup_removes_expired_witness :
  length (MemoryCache.cache
            (MemoryCache.cleanup Samples.entrySize 3601000 MoreSamples.twoEntries))
  = 1%nat.
Proof.
  rewrite (proj1 (cleanup_removes_expired Samples.entrySize 3601000
                    MoreSamples.twoEntries
                    ltac:(vm_compute; repeat constructor;
                          cbn; intuition discriminate))).
  vm_compute. reflexivity.
Defined.

(** On the full cache of capacity 2, a third request at time 2000 evicts
    the entry set at time 1000 and keeps the one set at time 1001. *)
Lemma set_evicts_least_recent_witness :
  List.map fst
    (MemoryCache.cache
       (MemoryCache.set asciiLowerCase Samples.entrySize 2000 (js "Who are you?")
          (js "OpenAIProvider") (Samples.response "a server" (2 # 1000)) None None
          MoreSamples.twoEntries))
  = [MemoryCache.keyOf asciiLowerCase Samples.askTime;
     MemoryCache.keyOf asciiLowerCase Samples.askName].
Proof.
  refine (eq_trans
            (f_equal (List.map fst)
               (CacheFacts.set_evicts_least_recent asciiLowerCase Samples.entrySize
                  (2000, Samples.askName) MoreSamples.twoEntries []
                  [(MemoryCache.keyOf asciiLowerCase Samples.askTime,
                    MemoryCache.entryOf asciiLowerCase (1001, Samples.askTime))]
                  (MemoryCache.keyOf asciiLowerCase Samples.askWeather)
                  (MemoryCache.entryOf asciiLowerCase (1000, Samples.askWeather))
                  _ _ _ _ _ _ _ _)) _).
  - vm_compute. reflexivity.
  - vm_compute. repeat constructor; cbn; intuition discriminate.
  - vm_compute. reflexivity.
  - vm_compute. discriminate.
  - vm_compute. intuition discriminate.
  - vm_compute. reflexivity.
  - intros kv [].
  - intros kv [<-|[]]. vm_compute. discriminate.
  - vm_compute. reflexivity.
Defined.

End MemoryCacheProperties.

(** ** Key derivation: what additionalParams can replace *)

Module KeyProperties.

Lemma has_key_app {A} (k : jsstring) (a b : list (jsstring * A)) :
  has_key k (a ++ b) = has_key k a || has_key k b.
Proof.
  induction a as [|[k' v] a IH]; cbn [app has_key]; [reflexivity|].
  now rewrite IH, orb_assoc.
Qed.

Lemma has_key_replace_value {A} (k k' : jsstring) (v : A) (l : list (jsstring * A)) :
  has_key k (replace_value k' v l) = has_key k l.
Proof.
  induction l as [|[k0 v0] l IH]; cbn [replace_value has_key]; [reflexivity|].
  destruct (jsstring_eqb k' k0); cbn [has_key]; [reflexivity | now rewrite IH].
Qed.

Lemma replace_value_app {A} (k : jsstring) (v : A) (a b : list (jsstring * A)) :
  replace_value k v (a ++ b)
  = if has_key k a then replace_value k v a ++ b else a ++ replace_value k v b.
Proof.
  induction a as [|[k0 v0] a IH]; cbn [app replace_value has_key]; [reflexivity|].
  destruct (jsstring_eqb k k0); cbn [orb]; [reflexivity|].
  rewrite IH. now destruct (has_key k a).
Qed.

(** Where [insert_index] puts a new key does not depend on the values. *)
Lemma insert_index_around {A} (i : N) (k' : jsstring) (v' : A) (k : jsstring)
    (pre post : list (jsstring * A)) :
  jsstring_eqb k k' = false ->
  has_key k pre = false ->
  exists pre' post',
    has_key k pre' = false
    /\ forall v, insert_index i k' v' (pre ++ (k, v) :: post) = pre' ++ (k, v) :: post'.
Proof.
  intros Hk. induction pre as [|[k0 v0] pre IH]; cbn [app has_key]; intros Hpre.
  - cbn [insert_index]. destruct (array_index k) as [j|].
    + destruct (j <? i)%N.
      * exists [], (insert_index i k' v' post). split; [reflexivity|]. reflexivity.
      * exists [(k', v')], post. cbn [has_key]. rewrite Hk. split; reflexivity.
    + exists [(k', v')], post. cbn [has_key]. rewrite Hk. split; reflexivity.
  - apply orb_false_iff in Hpre as [H0 Hpre]. cbn [insert_index].
    destruct (array_index k0) as [j|].
    + destruct (j <? i)%N.
      * destruct (IH Hpre) as (pre' & post' & Hp & E).
        exists ((k0, v0) :: pre'), post'. cbn [has_key]. rewrite H0, Hp.
        split; [reflexivity|]. intros v. cbn [app]. now rewrite E.
      * exists ((k', v') :: (k0, v0) :: pre), post. cbn [has_key].
        rewrite Hk, H0, Hpre. split; reflexivity.
    + exists ((k', v') :: (k0, v0) :: pre), post. cbn [has_key].
      rewrite Hk, H0, Hpre. split; reflexivity.
Qed.

Lemma obj_set_around {A} (k' : jsstring) (v' : A) (k : jsstring)
    (pre post : list (jsstring * A)) :
  jsstring_eqb k k' = false ->
  has_key k pre = false ->
  exists pre' post',
    has_key k pre' = false
    /\ forall v, obj_set k' v' (pre ++ (k, v) :: post) = pre' ++ (k, v) :: post'.
Proof.
  intros Hk Hpre. unfold obj_set.
  assert (K : forall v : A,
             has_key k' (pre ++ (k, v) :: post) = has_key k' pre || has_key k' post).
  { intros v. rewrite has_key_app. cbn [has_key].
    now rewrite CacheFacts.jsstring_eqb_sym, Hk. }
  destruct (has_key k' pre) eqn:E1.
  - exists (replace_value k' v' pre), post. rewrite has_key_replace_value.
    split; [exact Hpre|]. intros v. rewrite K. cbn [orb].
    now rewrite replace_value_app, E1.
  - destruct (has_key k' post) eqn:E2.
    + exists pre, (replace_value k' v' post). split; [exact Hpre|]. intros v.
      rewrite K. cbn [orb]. rewrite replace_value_app, E1. cbn [replace_value].
      now rewrite CacheFacts.jsstring_eqb_sym, Hk.
    + destruct (array_index k') as [i|].
      * destruct (insert_index_around i k' v' k pre post Hk Hpre)
          as (pre' & post' & Hp & E).
        exists pre', post'. split; [exact Hp|]. intros v. rewrite K. cbn [orb]. apply E.
      * exists pre, (post ++ [(k', v')]). split; [exact Hpre|]. intros v.
        rewrite K. cbn [orb]. now rewrite <- app_assoc.
Qed.

Lemma obj_set_same {A} (k : jsstring) (v' v : A) (pre post : list (jsstring * A)) :
  has_key k pre = false ->
  obj_set k v' (pre ++ (k, v) :: post) = pre ++ (k, v') :: post.
Proof.
  intros Hpre. unfold obj_set. rewrite has_key_app. cbn [has_key].
  rewrite jsstring_eqb_refl, orb_true_r, replace_value_app, Hpre.
  cbn [replace_value]. now rewrite jsstring_eqb_refl.
Qed.

(** A member that the spread sets again takes the value of the spread,
    whatever it was before. *)
Lemma obj_spread_override {A} (k : jsstring) (more pre post : list (jsstring * A))
    (v1 v2 : A) :
  has_key k pre = false ->
  has_key k more = true ->
  obj_spread (pre ++ (k, v1) :: post) more = obj_spread (pre ++ (k, v2) :: post) more.
Proof.
  unfold obj_spread. revert pre post.
  induction more as [|[k' v'] more IH]; intros pre post Hpre Hmore;
    cbn [has_key fold_left fst snd] in *; [discriminate|].
  destruct (jsstring_eqb k k') eqn:E.
  - apply jsstring_eqb_eq in E. subst k'. now rewrite !obj_set_same.
  - cbn [orb] in Hmore.
    destruct (obj_set_around k' v' k pre post E Hpre) as (pre' & post' & Hp & Eset).
    rewrite !Eset. now apply IH.
Qed.

Section Runtime.

Variable toLowerCase : jsstring -> jsstring.
Variable estimateEntrySize : CacheEntry -> Z.

Local Open Scope Z_scope.

Lemma keyDigest_model (prompt model model' : jsstring) (temperature : option (Z * nat))
    (params : list (jsstring * json)) :
  has_key (js "model") params = true ->
  keyDigest toLowerCase prompt model temperature (Some params)
  = keyDigest toLowerCase prompt model' temperature (Some params).
Proof.
  intros H. unfold keyDigest, keyData. do 4 f_equal. cbn [orEmpty].
  apply (obj_spread_override (js "model") _
           [(js "prompt", Some (JStr (normalizePrompt toLowerCase prompt)))]
           [(js "temperature", option_map number_toJSON temperature)]).
  - reflexivity.
  - clear -H. induction params as [|[k v] l IH]; cbn [List.map has_key fst snd] in *;
      [discriminate|].
    destruct (jsstring_eqb (js "model") k); [reflexivity | now apply IH].
Qed.

(** The members of additionalParams are spread over the key data last: a
    [model] entry among them replaces the model argument, so that the keys
    of both caches are the same for every model, and a response stored for
    one model is returned to a request for any other. *)
Theorem additionalParams_replace_model (now now' : Z) (prompt model model' : jsstring)
    (response : LLMResponse) (temperature : option (Z * nat))
    (params : list (jsstring * json)) (c : MemoryCache.t) :
  has_key (js "model") params = true ->
  MemoryCache.generateKey toLowerCase prompt model temperature (Some params)
  = MemoryCache.generateKey toLowerCase prompt model' temperature (Some params)
  /\ SemanticCache.generateKey toLowerCase prompt model temperature (Some params)
     = SemanticCache.generateKey toLowerCase prompt model' temperature (Some params)
  /\ (now' - now < MemoryCache.defaultTTL c ->
      fst (MemoryCache.get toLowerCase now' prompt model' temperature (Some params)
             (MemoryCache.set toLowerCase estimateEntrySize now prompt model response
                temperature (Some params) c))
      = Some response).
Proof.
  intros H. split; [|split].
  - now apply keyDigest_model.
  - unfold SemanticCache.generateKey. f_equal. now apply keyDigest_model.
  - intros Hnow.
    rewrite (MemoryCacheProperties.get_finds_set toLowerCase estimateEntrySize now now'
               prompt prompt model model' response temperature temperature
               (Some params) (Some params) c).
    + now destruct (Z.ltb_spec (now' - now) (MemoryCache.defaultTTL c)); [|lia].
    + unfold MemoryCache.generateKey. now apply keyDigest_model.
Qed.

End Runtime.

(** A request for [gpt-4] answered from an entry stored for [claude]. *)
Lemma additionalParams_replace_model_witness :
  fst (MemoryCache.get asciiLowerCase 2000 (js "Get Weather") (js "gpt-4") None
         (Some [(js "model", JStr (js "any"))])
         (MemoryCache.set asciiLowerCase Samples.entrySize 1000 (js "Get Weather")
            (js "claude") (Samples.response "sunny" (3 # 1000)) None
            (Some [(js "model", JStr (js "any"))]) (MemoryCache.create None None)))
  = Some (Samples.response "sunny" (3 # 1000)).
Proof.
  apply (additionalParams_replace_model asciiLowerCase Samples.entrySize 1000 2000
           (js "Get Weather") (js "claude") (js "gpt-4")
           (Samples.response "sunny" (3 # 1000)) None
           [(js "model", JStr (js "any"))] (MemoryCache.create None None)).
  - reflexivity.
  - reflexivity.
Defined.

End KeyProperties.

(** ** The shared cache: failures, round trips, restarts *)

Module SharedCacheProperties.
Import SemanticCache.

Local Open Scope Z_scope.

Lemma lookup_filter_none {A} (f : jsstring * A -> bool) (k : jsstring)
    (l : list (jsstring * A)) :
  has_key k l = false -> lookup k (filter f l) = None.
Proof.
  induction l as [|[k' v] l IH]; cbn [has_key filter]; [reflexivity|].
  intros H. apply orb_false_iff in H as [H1 H2].
  destruct (f (k', v)); cbn [lookup]; [rewrite H1|]; now apply IH.
Qed.

Lemma lookup_filter_map_set {A} (f : jsstring * A -> bool) (k : jsstring) (v : A)
    (l : list (jsstring * A)) :
  f (k, v) = true -> lookup k (filter f (map_set k v l)) = Some v.
Proof.
  intros Hf. unfold map_set. destruct (has_key k l) eqn:E.
  - induction l as [|[k' v'] l IH]; cbn [has_key replace_value] in *; [discriminate|].
    destruct (jsstring_eqb k k') eqn:E'.
    + apply jsstring_eqb_eq in E'. subst k'. cbn [filter]. rewrite Hf. cbn [lookup].
      now rewrite jsstring_eqb_refl.
    + cbn [orb] in E. cbn [filter].
      destruct (f (k', v')); cbn [lookup]; [rewrite E'|]; now apply IH.
  - rewrite filter_app, CacheFacts.lookup_app, (lookup_filter_none f k l E).
    cbn [filter]. rewrite Hf. cbn [lookup]. now rewrite jsstring_eqb_refl.
Qed.

Section Runtime.

Variable toLowerCase : jsstring -> jsstring.
Variable estimateEntrySize : CacheEntry -> Z.

Local Abbreviation get := (SemanticCache.get toLowerCase).
Local Abbreviation set := (SemanticCache.set toLowerCase estimateEntrySize).

Lemma command_isOpen (r : Redis) : isOpen (snd (command r)) = isOpen r.
Proof. unfold command. now destruct (faults r). Qed.

Lemma updateEntryStats_isOpen (now : Z) (k : jsstring) (e : CacheEntry) (c : t) :
  isOpen (redis (snd (updateEntryStats now k e c))) = isOpen (redis c).
Proof.
  unfold updateEntryStats, redis_setEx.
  pose proof (command_isOpen (redis c)) as H.
  destruct (command (redis c)) as [[|] r]; exact H.
Qed.

(** Once the client is open no operation throws, whatever the store does,
    and the client is still open afterwards. *)
Theorem open_client_never_throws (now : Z) (prompt model : jsstring)
    (response : LLMResponse) (temperature : option (Z * nat))
    (params : option (list (jsstring * json))) (ttl : option Z) (c : t) :
  isOpen (redis c) = true ->
  ((exists r, fst (get now prompt model temperature params c) = Returned r)
   /\ isOpen (redis (snd (get now prompt model temperature params c))) = true)
  /\ (fst (set now prompt model response temperature params ttl c) = Returned tt
      /\ isOpen (redis (snd (set now prompt model response temperature params ttl c)))
         = true)
  /\ (fst (clear now c) = Returned tt /\ isOpen (redis (snd (clear now c))) = true).
Proof.
  intros Hopen. split; [|split].
  - unfold SemanticCache.get. rewrite (CacheFacts.afterConnect_open now c _ Hopen).
    cbn [fst snd]. unfold redis_get.
    pose proof (command_isOpen (redis (withStats c (MemoryCache.countRequest (stats c)))))
      as Hc.
    destruct (command _) as [[|] r]; cbn [fst snd] in *.
    + cbn. split; [eauto | now rewrite Hc].
    + cbn [redis] in Hc.
      destruct (option_map fst (lookup _ (filter (live now) (store r)))) as [v|].
      * destruct (stored_truthy v); [|cbn; split; [eauto | now rewrite Hc]].
        destruct v as [e|s|s]; [|cbn; split; [eauto | now rewrite Hc]..].
        pose proof (updateEntryStats_isOpen now
          (SemanticCache.generateKey toLowerCase prompt model
             (Some (orDefault temperature defaultTemperature)) params) e
          (withRedis (withStats c (MemoryCache.countRequest (stats c))) r)) as Hu.
        destruct (updateEntryStats _ _ _ _) as [e' c']. cbn in *.
        split; [eauto | congruence].
      * cbn. split; [eauto | now rewrite Hc].
  - unfold SemanticCache.set. rewrite (CacheFacts.afterConnect_open now c _ Hopen).
    cbn [fst snd]. unfold redis_setEx.
    pose proof (command_isOpen (redis c)) as Hc.
    destruct (command (redis c)) as [[|] r]; cbn in *; split; congruence.
  - unfold clear. rewrite (CacheFacts.afterConnect_open now c _ Hopen).
    cbn [fst snd]. unfold redis_keys.
    pose proof (command_isOpen (redis c)) as Hc.
    destruct (command (redis c)) as [[|] r]; cbn [fst snd] in *;
      [cbn; split; congruence|].
    destruct (List.map fst _) as [|k ks]; [cbn; split; congruence|].
    unfold redis_del. pose proof (command_isOpen r) as Hr.
    destruct (command r) as [[|] r']; cbn in *; split; congruence.
Qed.

(** A response that was set is returned by a [get] with the same
    arguments until its time to live ([ttl] seconds, the default when [ttl]
    is absent or 0) has passed, when the store executes the commands.  The
    hit is counted, and it writes the entry back with its access time, its
    hit count and the default time to live, whatever [ttl] was.  (Times to
    live are positive: the store refuses others.) *)
Theorem shared_get_after_set (now now' : Z) (prompt model : jsstring)
    (response : LLMResponse) (temperature : option (Z * nat))
    (params : option (list (jsstring * json))) (ttl : option Z) (c : t) :
  let k := SemanticCache.generateKey toLowerCase prompt model
             (Some (orDefault temperature defaultTemperature)) params in
  let seconds :=
    match ttl with
    | Some n => if n =? 0 then defaultTTL c else n
    | None => defaultTTL c
    end in
  let r := get now' prompt model temperature params
             (snd (set now prompt model response temperature params ttl c)) in
  isOpen (redis c) = true ->
  no_fault 3 (redis c) ->
  0 < seconds ->
  0 < defaultTTL c ->
  now' < now + seconds * 1000 ->
  fst r = Returned (Some response)
  /\ hits (stats (snd r)) = hits (stats c) + 1
  /\ lookup k (store (redis (snd r)))
     = Some (StoredEntry
               (mkEntry k response (mkMetadata now now' 1 (cost (usage response)))),
             Some (now' + defaultTTL c * 1000)).
Proof.
  cbv zeta. intros Hopen Hok _ _ Hlive.
  unfold SemanticCache.set, afterConnect, connect. rewrite Hopen. cbv beta iota.
  unfold redis_setEx.
  destruct (CacheFacts.command_ok 2 _ Hok) as (F1 & O1 & S1 & Hok1).
  destruct (command (redis c)) as [f1 r1]. cbn [fst snd] in F1, O1, S1, Hok1.
  subst f1. cbn [fst snd stats redis withRedis withStats defaultTTL].
  unfold SemanticCache.get, afterConnect, connect.
  cbn [redis withRedis withStats isOpen stats defaultTTL log]. rewrite O1, Hopen.
  cbv beta iota. unfold redis_get. cbn [redis withRedis withStats isOpen store faults].
  set (r1' := mkRedis true _ (faults r1)).
  assert (Hok1' : no_fault 2 r1') by exact Hok1.
  destruct (CacheFacts.command_ok 1 _ Hok1') as (F2 & O2 & S2 & Hok2).
  destruct (command r1') as [f2 r2]. cbn [fst snd] in F2, O2, S2, Hok2.
  subst f2. rewrite S2. unfold r1'. cbn [store].
  rewrite lookup_filter_map_set
    by (unfold live; cbn [snd]; now apply Z.ltb_lt).
  cbn [option_map fst stored_truthy].
  unfold updateEntryStats, redis_setEx.
  cbn [redis withRedis withStats defaultTTL stats log metadata created entry_hits
         entry_cost key value].
  destruct (CacheFacts.command_ok 0 _ Hok2) as (F3 & O3 & S3 & _).
  destruct (command r2) as [f3 r3]. cbn [fst snd] in F3, O3, S3. subst f3.
  unfold withStats, withRedis.
  cbn [fst snd redis stats defaultTTL log store isOpen faults value hits
         MemoryCache.countHit MemoryCache.countRequest MemoryCache.addStorage].
  repeat split. rewrite S3.
  now rewrite MemoryCacheProperties.lookup_map_set.
Qed.

End Runtime.

Lemma disconnect_saves (n : nat) (c : t) :
  isOpen (redis c) = true ->
  no_fault (2 + n) (redis c) ->
  exists r,
    SemanticCacheLifecycle.disconnect c
    = mkCache r (MemoryCache.updateHitRate (stats c)) (defaultTTL c) (log c)
    /\ isOpen r = false
    /\ store r
       = map_set statsKey (StoredStats (MemoryCache.updateHitRate (stats c)), None)
           (store (redis c))
    /\ no_fault n r.
Proof.
  intros Hopen Hok.
  unfold SemanticCacheLifecycle.disconnect. rewrite Hopen.
  unfold SemanticCacheLifecycle.saveStats, SemanticCacheLifecycle.redis_set.
  cbn [redis withStats stats].
  destruct (CacheFacts.command_ok (1 + n) _ Hok) as (F1 & O1 & S1 & Hok1).
  destruct (command (redis c)) as [f1 r1]. cbn [fst snd] in F1, O1, S1, Hok1.
  subst f1. unfold SemanticCacheLifecycle.redis_disconnect, withRedis.
  cbn [redis stats defaultTTL log].
  match goal with |- context [command ?r] => set (r1' := r) end.
  assert (Hok1' : no_fault (1 + n) r1') by exact Hok1.
  destruct (CacheFacts.command_ok n _ Hok1') as (F2 & O2 & S2 & Hok2).
  destruct (command r1') as [f2 r2]. cbn [fst snd] in F2, O2, S2, Hok2.
  subst f2. eexists. split; [reflexivity|]. cbn [isOpen store].
  split; [reflexivity|]. split; [|exact Hok2].
  rewrite S2. unfold r1'. cbn [store]. now rewrite S1.
Qed.

(** Statistics survive a restart: [disconnect()] saves them, with the hit
    rate brought up to date, and closes the client; the next client that
    connects to the same store starts from the saved statistics and not from
    zero (when the store executes the commands). *)
Theorem statistics_survive_restart (now : Z) (ttl : option Z) (c : t) :
  let closed := SemanticCacheLifecycle.disconnect c in
  let reopened := connect now (create (redis closed) ttl) in
  isOpen (redis c) = true ->
  no_fault 4 (redis c) ->
  isOpen (redis closed) = false
  /\ log closed = log c
  /\ fst reopened = Returned tt
  /\ stats (snd reopened) = MemoryCache.updateHitRate (stats c).
Proof.
  cbv zeta. intros Hopen Hok.
  destruct (disconnect_saves 2 c Hopen Hok) as (r & -> & Or & Sr & Hokr).
  cbn [redis log]. split; [exact Or|]. split; [reflexivity|].
  destruct (CacheFacts.connect_settles 0 now (create r ttl))
    as (c' & E & _ & _ & _ & _ & St & _); [reflexivity | exact Hokr |].
  rewrite E. cbn [fst snd]. split; [reflexivity|]. rewrite St.
  unfold SemanticCacheLifecycle.held, create. cbn [redis store].
  rewrite Sr, lookup_filter_map_set by reflexivity. reflexivity.
Qed.

(** A failing store on an open client. *)
Lemma open_client_never_throws_witness :
  fst (SemanticCache.set asciiLowerCase Samples.entrySize 2000 (js "Get Weather")
         (js "OpenAIProvider") (Samples.response "sunny" (3 # 1000)) None None None
         Samples.failingCache)
  = Returned tt.
Proof.
  apply (open_client_never_throws asciiLowerCase Samples.entrySize 2000
           (js "Get Weather") (js "OpenAIProvider") (Samples.response "sunny" (3 # 1000))
           None None None Samples.failingCache).
  reflexivity.
Defined.

(** A response stored for 60 seconds and read 59 seconds later. *)
Lemma shared_get_after_set_witness :
  fst (SemanticCache.get asciiLowerCase 60000 (js "Get Weather") (js "OpenAIProvider")
         None None
         (snd (SemanticCache.set asciiLowerCase Samples.entrySize 1000
                 (js "Get Weather") (js "OpenAIProvider")
                 (Samples.response "sunny" (3 # 1000)) None None (Some 60)
                 (SemanticCache.mkCache (SemanticCache.mkRedis true [] []) freshStats
                    3600 []))))
  = Returned (Some (Samples.response "sunny" (3 # 1000))).
Proof.
  apply (shared_get_after_set asciiLowerCase Samples.entrySize 1000 60000
           (js "Get Weather") (js "OpenAIProvider") (Samples.response "sunny" (3 # 1000))
           None None (Some 60)
           (SemanticCache.mkCache (SemanticCache.mkRedis true [] []) freshStats 3600 []));
    reflexivity.
Defined.

(** A client with statistics that is closed, and the next client. *)
Lemma statistics_survive_restart_witness :
  stats (snd (connect 2000
                (create
                   (redis
                      (SemanticCacheLifecycle.disconnect
                         (SemanticCache.mkCache (SemanticCache.mkRedis true [] [])
                            (mkStats 4 1 3 0 (3 # 1000) 40) 3600 [])))
                   None)))
  = mkStats 4 1 3 (1 # 4) (3 # 1000) 40.
Proof.
  rewrite (proj2 (proj2 (proj2
             (statistics_survive_restart 2000 None
                (SemanticCache.mkCache (SemanticCache.mkRedis true [] [])
                   (mkStats 4 1 3 0 (3 # 1000) 40) 3600 [])
                eq_refl eq_refl)))).
  reflexivity.
Defined.

End SharedCacheProperties.

(** ** The documentation generator *)

Module GeneratorProperties.
Import DocumentationGenerator.

Local Open Scope Z_scope.

Lemma In_replace_value {A} (k : jsstring) (v : A) (l : list (jsstring * A))
    (a : jsstring) (b : A) :
  In (a, b) (replace_value k v l) -> b = v \/ In (a, b) l.
Proof.
  induction l as [|[k' v'] l IH]; cbn [replace_value]; [easy|].
  destruct (jsstring_eqb k k').
  - intros [[= <- <-]|H]; [now left | right; now right].
  - intros [H|H]; [right; now left|]. destruct (IH H); [now left | right; now right].
Qed.

Lemma In_map_delete {A} (k : jsstring) (l : list (jsstring * A)) (x : jsstring * A) :
  In x (map_delete k l) -> In x l.
Proof.
  induction l as [|[k' v'] l IH]; cbn [map_delete]; [easy|].
  destruct (jsstring_eqb k k'); [now right|].
  intros [H|H]; [now left | right; now apply IH].
Qed.

Lemma In_map_set {A} (k : jsstring) (v : A) (l : list (jsstring * A))
    (a : jsstring) (b : A) :
  In (a, b) (map_set k v l) -> b = v \/ In (a, b) l.
Proof.
  unfold map_set. destruct (has_key k l).
  - apply In_replace_value.
  - intros H. apply in_app_or in H as [H|[[= <- <-]|[]]]; [now right | now left].
Qed.

Lemma lookup_In_pair {A} (k : jsstring) (l : list (jsstring * A)) (v : A) :
  lookup k l = Some v -> exists k', In (k', v) l.
Proof.
  induction l as [|[k' v'] l IH]; cbn [lookup]; [discriminate|].
  destruct (jsstring_eqb k k').
  - intros [= <-]. exists k'. now left.
  - intros H. destruct (IH H) as [k0 ?]. exists k0. now right.
Qed.

Section Runtime.

Variable toLowerCase : jsstring -> jsstring.
Variable estimateEntrySize : CacheEntry -> Z.
Variable h : Helpers.
Variable now : Z.

Local Abbreviation cacheGet := (DocumentationGenerator.cacheGet toLowerCase now).
Local Abbreviation documentTool :=
  (DocumentationGenerator.documentTool toLowerCase estimateEntrySize h now).
Local Abbreviation exampleForTool :=
  (DocumentationGenerator.exampleForTool toLowerCase estimateEntrySize h now).
Local Abbreviation generateToolDocumentation :=
  (DocumentationGenerator.generateToolDocumentation toLowerCase estimateEntrySize h now).
Local Abbreviation generateCodeExamples :=
  (DocumentationGenerator.generateCodeExamples toLowerCase estimateEntrySize h now).
Local Abbreviation fallbackDoc :=
  (fun tool =>
     toolDocumentation_toJSON (DocumentationGenerator.generateFallbackToolDoc
                                 toLowerCase tool)).

(** *** A provider that cannot be reached *)

Lemma cacheGet_empty (k : jsstring) (g : t) :
  MemoryCache.cache (cache g) = [] ->
  fst (cacheGet k g) = None
  /\ MemoryCache.cache (cache (snd (cacheGet k g))) = []
  /\ llmProvider (snd (cacheGet k g)) = llmProvider g
  /\ console (snd (cacheGet k g)) = console g.
Proof.
  intros E. unfold DocumentationGenerator.cacheGet, MemoryCache.get. rewrite E.
  cbn. rewrite E. repeat split.
Qed.

Lemma generate_unreachable (prompt : jsstring) (options : GenerationOptions) (g : t) :
  Forall (fun a => a = Thrown) (LLMProvider.answers (llmProvider g)) ->
  fst (generate prompt options g) = Thrown
  /\ Forall (fun a => a = Thrown) (LLMProvider.answers (llmProvider (snd (generate prompt options g))))
  /\ cache (snd (generate prompt options g)) = cache g
  /\ console (snd (generate prompt options g)) = console g.
Proof.
  intros F. unfold generate, LLMProvider.generate.
  destruct (LLMProvider.answers (llmProvider g)) as [|a rest]; cbn.
  - repeat split. constructor.
  - inversion F; subst. repeat split. assumption.
Qed.

Lemma documentTool_unreachable (context : GenerationContext) (minifiedSpec : MinifiedSpec)
    (tool : MCPTool) (docs : list json) (g : t) :
  MemoryCache.cache (cache g) = [] ->
  Forall (fun a => a = Thrown) (LLMProvider.answers (llmProvider g)) ->
  exists g',
    documentTool context minifiedSpec tool (docs, g)
    = (Returned tt, (docs ++ [fallbackDoc tool], g'))
    /\ MemoryCache.cache (cache g') = []
    /\ Forall (fun a => a = Thrown) (LLMProvider.answers (llmProvider g'))
    /\ console g'
       = console g ++ [js "Failed to generate docs for tool " ++ tool_name tool ++ js ":"].
Proof.
  intros E F. unfold DocumentationGenerator.documentTool.
  destruct (cacheGet_empty (toolDocKey tool) g E) as (G & E1 & P1 & C1).
  destruct (DocumentationGenerator.cacheGet _ _ _ g) as [r g1]. cbn [fst snd] in *.
  subst r. rewrite <- P1 in F.
  match goal with |- context [generate ?p ?o g1] =>
    destruct (generate_unreachable p o g1 F) as (T & F2 & E2 & C2);
    destruct (generate p o g1) as [r g2] end.
  cbn [fst snd] in *. subst r. eexists. split; [reflexivity|].
  cbn. rewrite E2, C2, C1. auto.
Qed.

Lemma exampleForTool_unreachable (context : GenerationContext) (tool : MCPTool)
    (examples : list json) (g : t) :
  MemoryCache.cache (cache g) = [] ->
  Forall (fun a => a = Thrown) (LLMProvider.answers (llmProvider g)) ->
  exists g',
    exampleForTool context tool (examples, g) = (Returned tt, (examples, g'))
    /\ MemoryCache.cache (cache g') = []
    /\ Forall (fun a => a = Thrown) (LLMProvider.answers (llmProvider g')).
Proof.
  intros E F. unfold DocumentationGenerator.exampleForTool.
  match goal with |- context [DocumentationGenerator.cacheGet _ _ ?k g] =>
    destruct (cacheGet_empty k g E) as (G & E1 & P1 & C1);
    destruct (DocumentationGenerator.cacheGet toLowerCase now k g) as [r g1] end.
  cbn [fst snd] in *. subst r. rewrite <- P1 in F.
  match goal with |- context [generate ?p ?o g1] =>
    destruct (generate_unreachable p o g1 F) as (T & F2 & E2 & C2);
    destruct (generate p o g1) as [r g2] end.
  cbn [fst snd] in *. subst r. eexists. split; [reflexivity|].
  cbn. rewrite E2. auto.
Qed.

(** In the generator with the process-local cache (the one the
    constructor builds without a Redis URL): with an empty cache and a
    provider whose every call fails, the documentation of the tools is
    exactly the fallback document of every tool, in the order of the tools,
    with one warning per tool; the list of code examples is empty.  Neither
    method throws. *)
Theorem unreachable_provider_gives_fallbacks (context : GenerationContext)
    (minifiedSpec : MinifiedSpec) (g : t) :
  MemoryCache.cache (cache g) = [] ->
  Forall (fun a => a = Thrown) (LLMProvider.answers (llmProvider g)) ->
  fst (generateToolDocumentation context minifiedSpec g)
  = Returned (List.map fallbackDoc (tools context))
  /\ console (snd (generateToolDocumentation context minifiedSpec g))
     = console g
       ++ List.map
            (fun tool => js "Failed to generate docs for tool " ++ tool_name tool ++ js ":")
            (tools context)
  /\ fst (generateCodeExamples context minifiedSpec g) = Returned [].
Proof.
  intros E F. unfold DocumentationGenerator.generateToolDocumentation,
    DocumentationGenerator.generateCodeExamples.
  split; [|split].
  - assert (G : forall ts docs g0,
               MemoryCache.cache (cache g0) = [] ->
               Forall (fun a => a = Thrown) (LLMProvider.answers (llmProvider g0)) ->
               fst (finish (forEach (documentTool context minifiedSpec) ts (docs, g0)))
               = Returned (docs ++ List.map fallbackDoc ts)).
    { induction ts as [|tool ts IH]; intros docs g0 E0 F0; cbn [forEach List.map].
      - cbn. now rewrite app_nil_r.
      - destruct (documentTool_unreachable context minifiedSpec tool docs g0 E0 F0)
          as (g' & -> & E' & F' & _).
        rewrite IH by assumption. now rewrite <- app_assoc. }
    now rewrite G.
  - assert (G : forall ts docs g0,
               MemoryCache.cache (cache g0) = [] ->
               Forall (fun a => a = Thrown) (LLMProvider.answers (llmProvider g0)) ->
               console (snd (finish (forEach (documentTool context minifiedSpec) ts
                                       (docs, g0))))
               = console g0
                 ++ List.map
                      (fun tool =>
                         js "Failed to generate docs for tool " ++ tool_name tool
                         ++ js ":") ts).
    { induction ts as [|tool ts IH]; intros docs g0 E0 F0; cbn [forEach List.map].
      - cbn. now rewrite app_nil_r.
      - destruct (documentTool_unreachable context minifiedSpec tool docs g0 E0 F0)
          as (g' & -> & E' & F' & C').
        rewrite IH by assumption. now rewrite C', <- app_assoc. }
    now rewrite G.
  - assert (G : forall ts g0,
               MemoryCache.cache (cache g0) = [] ->
               Forall (fun a => a = Thrown) (LLMProvider.answers (llmProvider g0)) ->
               fst (finish (forEach (exampleForTool context) ts ([], g0)))
               = Returned []).
    { induction ts as [|tool ts IH]; intros g0 E0 F0; cbn [forEach]; [reflexivity|].
      destruct (exampleForTool_unreachable context tool [] g0 E0 F0)
        as (g' & -> & E' & F').
      now apply IH. }
    now apply G.
Qed.

(** *** Any provider: one document per tool *)

Lemma lookup_In_key {A} (k : jsstring) (l : list (jsstring * A)) (v : A) :
  lookup k l = Some v -> In (k, v) l.
Proof.
  induction l as [|[k' v'] l IH]; cbn [lookup]; [discriminate|].
  destruct (jsstring_eqb k k') eqn:E.
  - apply jsstring_eqb_eq in E. subst k'. intros [= <-]. now left.
  - intros H. right. now apply IH.
Qed.

Lemma In_replace_value_key {A} (k : jsstring) (v : A) (l : list (jsstring * A))
    (a : jsstring) (b : A) :
  In (a, b) (replace_value k v l) -> (a = k /\ b = v) \/ In (a, b) l.
Proof.
  induction l as [|[k' v'] l IH]; cbn [replace_value]; [easy|].
  destruct (jsstring_eqb k k') eqn:E.
  - apply jsstring_eqb_eq in E. subst k'.
    intros [[= <- <-]|H]; [now left | right; now right].
  - intros [H|H]; [right; now left|]. destruct (IH H); [now left | right; now right].
Qed.

Section ToolDocuments.

Variable ts : list MCPTool.
Variable name : jsstring.

Local Abbreviation holdsDocuments := (toolDocsAreJSON toLowerCase ts name).

Lemma get_holdsDocuments (k model : jsstring) (c : MemoryCache.t) :
  holdsDocuments c ->
  holdsDocuments (snd (MemoryCache.get toLowerCase now k model None None c))
  /\ forall tool v,
       In tool ts -> k = toolDocKey tool -> model = name ->
       fst (MemoryCache.get toLowerCase now k model None None c) = Some v ->
       exists j, content v = stringify j.
Proof.
  intros H. unfold MemoryCache.get. cbn [orDefault].
  destruct (lookup _ (MemoryCache.cache c)) as [e|] eqn:E.
  - apply lookup_In_key in E.
    destruct (MemoryCache.isEntryValid c now e); cbn [fst snd].
    + split.
      * intros tool b Ht Hin. cbn [MemoryCache.cache] in Hin.
        apply In_replace_value_key in Hin as [[Hk ->]|Hin]; [|now apply (H tool)].
        cbn [value]. apply (H tool e Ht). now rewrite Hk.
      * intros tool v Ht -> -> [= <-]. now apply (H tool e Ht).
    + split; [|discriminate].
      intros tool b Ht Hin. cbn [MemoryCache.cache] in Hin.
      apply In_map_delete in Hin. now apply (H tool).
  - cbn [fst snd]. split; [exact H | discriminate].
Qed.

Lemma set_holdsDocuments (k model : jsstring) (response : LLMResponse)
    (c : MemoryCache.t) :
  holdsDocuments c ->
  (exists j, content response = stringify j) ->
  holdsDocuments (MemoryCache.set toLowerCase estimateEntrySize now k model response None
                    None c).
Proof.
  intros H Hr. unfold MemoryCache.set.
  assert (H' : holdsDocuments (if MemoryCache.maxSize c
                                  <=? Z.of_nat (length (MemoryCache.cache c))
                               then MemoryCache.evictLRU estimateEntrySize now c else c)).
  { destruct (_ <=? _); [|exact H]. unfold MemoryCache.evictLRU.
    destruct (fst (fold_left MemoryCache.oldest (MemoryCache.cache c) (None, now)))
      as [k0|]; [|exact H].
    destruct (truthy k0); [|exact H].
    intros tool b Ht Hin. cbn [MemoryCache.cache] in Hin. apply In_map_delete in Hin.
    now apply (H tool). }
  intros tool b Ht Hin. cbn [MemoryCache.cache] in Hin.
  apply In_map_set in Hin as [->|Hin]; [exact Hr | now apply (H' tool)].
Qed.

Lemma documentTool_returns (context : GenerationContext) (minifiedSpec : MinifiedSpec)
    (tool : MCPTool) (docs : list json) (g : t) :
  (forall j, exists j', JSON_parse h (stringify j) = Returned j') ->
  In tool ts ->
  LLMProvider.constructorName (LLMProvider.config (llmProvider g)) = name ->
  holdsDocuments (cache g) ->
  exists doc g',
    documentTool context minifiedSpec tool (docs, g) = (Returned tt, (docs ++ [doc], g'))
    /\ LLMProvider.constructorName (LLMProvider.config (llmProvider g')) = name
    /\ holdsDocuments (cache g').
Proof.
  intros Hparse Ht Hname H. unfold DocumentationGenerator.documentTool,
    DocumentationGenerator.cacheGet.
  destruct (get_holdsDocuments (toolDocKey tool)
              (LLMProvider.constructorName (LLMProvider.config (llmProvider g)))
              (cache g) H) as (H1 & Hv).
  destruct (MemoryCache.get _ _ _ _ _ _ (cache g)) as [[cached|] c1]; cbn [fst snd] in *.
  - destruct (Hv tool cached Ht eq_refl Hname eq_refl) as [j ->].
    destruct (Hparse j) as [j' ->].
    exists j'. eexists. split; [reflexivity|]. split; [exact Hname | exact H1].
  - unfold generate. cbn [llmProvider withCache].
    unfold LLMProvider.generate.
    destruct (LLMProvider.answers (llmProvider g)) as [|[response|] rest].
    + eexists. eexists. split; [reflexivity|]. split; [exact Hname | exact H1].
    + eexists. eexists. split; [reflexivity|].
      unfold DocumentationGenerator.cacheSet.
      cbn [cache withCache withProvider llmProvider LLMProvider.config].
      split; [exact Hname|].
      apply set_holdsDocuments; [exact H1|]. cbn [withContent content]. eauto.
    + eexists. eexists. split; [reflexivity|]. split; [exact Hname | exact H1].
Qed.

End ToolDocuments.

(** In the generator with the process-local cache: whatever the provider
    does -- answer or fail, call by call -- the documentation of the tools
    comes back with exactly one document per tool and the method does not
    throw, provided the entries that the cache holds for the documentation
    of these tools hold serialized documents (nothing is asked of its other
    entries, such as the text generateReadme has stored) and JSON.parse
    accepts what JSON.stringify produced. *)
Theorem generateToolDocumentation_one_per_tool (context : GenerationContext)
    (minifiedSpec : MinifiedSpec) (g : t) :
  let name := LLMProvider.constructorName (LLMProvider.config (llmProvider g)) in
  (forall j, exists j', JSON_parse h (stringify j) = Returned j') ->
  toolDocsAreJSON toLowerCase (tools context) name (cache g) ->
  exists docs,
    fst (generateToolDocumentation context minifiedSpec g) = Returned docs
    /\ length docs = length (tools context)
    /\ toolDocsAreJSON toLowerCase (tools context) name
         (cache (snd (generateToolDocumentation context minifiedSpec g))).
Proof.
  cbv zeta. intros Hparse H.
  unfold DocumentationGenerator.generateToolDocumentation.
  set (name := LLMProvider.constructorName (LLMProvider.config (llmProvider g))) in *.
  assert (G : forall ts docs g0,
             (forall tool, In tool ts -> In tool (tools context)) ->
             LLMProvider.constructorName (LLMProvider.config (llmProvider g0)) = name ->
             toolDocsAreJSON toLowerCase (tools context) name (cache g0) ->
             exists docs' g',
               forEach (documentTool context minifiedSpec) ts (docs, g0)
               = (Returned tt, (docs', g'))
               /\ length docs' = (length docs + length ts)%nat
               /\ toolDocsAreJSON toLowerCase (tools context) name (cache g')).
  { induction ts as [|tool ts IH]; intros docs g0 Hin Hn H0; cbn [forEach].
    - exists docs, g0. cbn. auto.
    - destruct (documentTool_returns (tools context) name context minifiedSpec tool
                  docs g0 Hparse (Hin tool (or_introl eq_refl)) Hn H0)
        as (doc & g1 & -> & Hn1 & H1).
      destruct (IH (docs ++ [doc]) g1 (fun t Ht => Hin t (or_intror Ht)) Hn1 H1)
        as (docs' & g' & -> & L & H').
      exists docs', g'. rewrite length_app in L. cbn [length] in *.
      split; [reflexivity|]. split; [lia | exact H']. }
  destruct (G (tools context) [] g (fun t Ht => Ht) eq_refl H)
    as (docs & g' & -> & L & H').
  exists docs. cbn. auto.
Qed.

(** *** Code examples: a bounded number of provider calls *)

Lemma cacheGet_provider (k : jsstring) (g : t) :
  llmProvider (snd (cacheGet k g)) = llmProvider g.
Proof.
  unfold DocumentationGenerator.cacheGet.
  now destruct (MemoryCache.get _ _ _ _ _ _ (cache g)).
Qed.

Lemma generate_calls (prompt : jsstring) (options : GenerationOptions) (g : t) :
  LLMProvider.calls (llmProvider (snd (generate prompt options g)))
  = LLMProvider.calls (llmProvider g) ++ [mkCall prompt options].
Proof.
  unfold generate, LLMProvider.generate.
  now destruct (LLMProvider.answers (llmProvider g)).
Qed.

Lemma exampleForTool_step (context : GenerationContext) (tool : MCPTool)
    (examples : list json) (g : t) :
  let r := exampleForTool context tool (examples, g) in
  (length (fst (snd r)) <= S (length examples))%nat
  /\ exists new,
       LLMProvider.calls (llmProvider (snd (snd r)))
       = LLMProvider.calls (llmProvider g) ++ new
       /\ (length new <= 1)%nat.
Proof.
  cbv zeta. unfold DocumentationGenerator.exampleForTool.
  match goal with |- context [DocumentationGenerator.cacheGet _ _ ?k g] =>
    pose proof (cacheGet_provider k g) as P;
    destruct (DocumentationGenerator.cacheGet toLowerCase now k g) as [[cached|] g1] end;
    cbn [snd] in P.
  - destruct (JSON_parse h (content cached)); cbn [fst snd].
    + rewrite length_app, P. cbn [length]. split; [lia|]. exists [].
      rewrite app_nil_r. split; [reflexivity | cbn; lia].
    + rewrite P. split; [lia|]. exists [].
      rewrite app_nil_r. split; [reflexivity | cbn; lia].
  - match goal with |- context [generate ?p ?o g1] =>
      pose proof (generate_calls p o g1) as C;
      destruct (generate p o g1) as [[response|] g2] end; cbn [fst snd] in *.
    + rewrite length_app. cbn [length]. split; [lia|].
      unfold DocumentationGenerator.cacheSet. cbn [llmProvider withCache].
      rewrite C, P. eexists. split; [reflexivity | cbn; lia].
    + split; [lia|]. cbn [llmProvider warn]. rewrite C, P.
      eexists. split; [reflexivity | cbn; lia].
Qed.

(** [generateCodeExamples] looks at the first five tools only: it makes at
    most five provider calls (and no more than there are tools), whatever
    the provider and the cache do, and returns at most as many examples. *)
Theorem generateCodeExamples_bounded (context : GenerationContext)
    (minifiedSpec : MinifiedSpec) (g : t) :
  let r := generateCodeExamples context minifiedSpec g in
  (exists new,
      LLMProvider.calls (llmProvider (snd r)) = LLMProvider.calls (llmProvider g) ++ new
      /\ (length new <= Nat.min 5 (length (tools context)))%nat)
  /\ match fst r with
     | Returned examples => (length examples <= Nat.min 5 (length (tools context)))%nat
     | Thrown => True
     end.
Proof.
  cbv zeta. unfold DocumentationGenerator.generateCodeExamples.
  rewrite <- (length_firstn 5 (tools context)).
  generalize (firstn 5 (tools context)). intros ts.
  assert (G : forall ts examples g0,
             let r := forEach (exampleForTool context) ts (examples, g0) in
             (length (fst (snd r)) <= length examples + length ts)%nat
             /\ exists new,
                  LLMProvider.calls (llmProvider (snd (snd r)))
                  = LLMProvider.calls (llmProvider g0) ++ new
                  /\ (length new <= length ts)%nat).
  { clear ts. induction ts as [|tool ts IH]; intros examples g0; cbv zeta;
      cbn [forEach].
    - cbn. split; [lia|]. exists []. rewrite app_nil_r.
      split; [reflexivity | cbn; lia].
    - destruct (exampleForTool_step context tool examples g0) as (L & new & C & N).
      destruct (exampleForTool context tool (examples, g0)) as [[[]|] [ex1 g1]];
        cbn [fst snd] in *.
      + destruct (IH ex1 g1) as (L' & new' & C' & N'). cbn [length].
        split; [lia|]. exists (new ++ new'). rewrite C', C, <- app_assoc.
        split; [reflexivity|]. rewrite length_app. lia.
      + cbn [length]. split; [lia|]. exists new. split; [exact C | lia]. }
  destruct (G ts [] g) as (L & new & C & N).
  destruct (forEach (exampleForTool context) ts ([], g)) as [[[]|] [ex g']];
    cbn [fst snd finish] in *.
  - cbn [length] in L. split; [exists new; auto | lia].
  - split; [exists new; auto | exact I].
Qed.

(** *** A document generated once is served from the cache *)

Lemma get_defaultTTL (k model : jsstring) (c : MemoryCache.t) :
  MemoryCache.defaultTTL (snd (MemoryCache.get toLowerCase now k model None None c))
  = MemoryCache.defaultTTL c.
Proof.
  unfold MemoryCache.get. destruct (lookup _ (MemoryCache.cache c)) as [e|];
    [destruct (MemoryCache.isEntryValid c now e)|]; reflexivity.
Qed.

Lemma documentTool_stores (context : GenerationContext) (minifiedSpec : MinifiedSpec)
    (tool : MCPTool) (docs : list json) (g : t) (response : LLMResponse)
    (rest : list (outcome LLMResponse)) :
  fst (cacheGet (toolDocKey tool) g) = None ->
  LLMProvider.answers (llmProvider g) = Returned response :: rest ->
  exists g1 c1,
    documentTool context minifiedSpec tool (docs, g)
    = (Returned tt,
       (docs ++ [DocumentationGenerator.parseToolDocumentation toLowerCase h
                   (content response) tool], g1))
    /\ MemoryCache.defaultTTL c1 = MemoryCache.defaultTTL (cache g)
    /\ cache g1
       = MemoryCache.set toLowerCase estimateEntrySize now (toolDocKey tool)
           (LLMProvider.constructorName (LLMProvider.config (llmProvider g)))
           (withContent response
              (stringify (DocumentationGenerator.parseToolDocumentation toLowerCase h
                            (content response) tool)))
           None None c1
    /\ llmProvider g1
       = LLMProvider.mkProvider (LLMProvider.config (llmProvider g)) rest
           (LLMProvider.calls (llmProvider g)
            ++ [mkCall (renderToolDocPrompt h tool minifiedSpec (language context))
                  (mkOptions 1500 (2, 1%nat))]).
Proof.
  intros Hmiss Hans.
  unfold DocumentationGenerator.documentTool.
  unfold DocumentationGenerator.cacheGet in *.
  pose proof (get_defaultTTL (toolDocKey tool)
                (LLMProvider.constructorName (LLMProvider.config (llmProvider g)))
                (cache g)) as T.
  destruct (MemoryCache.get _ _ _ _ _ _ (cache g)) as [r c1]. cbn [fst snd] in *.
  subst r. unfold generate, LLMProvider.generate. cbn [llmProvider withCache].
  rewrite Hans. eexists. exists c1. split; [reflexivity|]. split; [exact T|].
  split; reflexivity.
Qed.

(** When the provider answers for a tool that is not in the cache, the
    parsed document is appended and stored; the next turn for the same tool
    appends the same document from the cache and makes no provider call
    (the time to live being positive, and JSON.parse reading back what
    JSON.stringify wrote). *)
Theorem documentTool_second_time_cached (context : GenerationContext)
    (minifiedSpec : MinifiedSpec) (tool : MCPTool) (docs docs' : list json) (g : t)
    (response : LLMResponse) (rest : list (outcome LLMResponse)) :
  let doc :=
    DocumentationGenerator.parseToolDocumentation toLowerCase h (content response) tool in
  let first := documentTool context minifiedSpec tool (docs, g) in
  let second := documentTool context minifiedSpec tool (docs', snd (snd first)) in
  fst (cacheGet (toolDocKey tool) g) = None ->
  LLMProvider.answers (llmProvider g) = Returned response :: rest ->
  0 < MemoryCache.defaultTTL (cache g) ->
  JSON_parse h (stringify doc) = Returned doc ->
  (fst first = Returned tt /\ fst (snd first) = docs ++ [doc])
  /\ (fst second = Returned tt /\ fst (snd second) = docs' ++ [doc])
  /\ LLMProvider.calls (llmProvider (snd (snd first)))
     = LLMProvider.calls (llmProvider g)
       ++ [mkCall (renderToolDocPrompt h tool minifiedSpec (language context))
             (mkOptions 1500 (2, 1%nat))]
  /\ LLMProvider.calls (llmProvider (snd (snd second)))
     = LLMProvider.calls (llmProvider (snd (snd first))).
Proof.
  cbv zeta. intros Hmiss Hans Httl Hparse.
  destruct (documentTool_stores context minifiedSpec tool docs g response rest
              Hmiss Hans) as (g1 & c1 & -> & T & Ec & Ep).
  cbn [fst snd]. split; [split; reflexivity|].
  unfold DocumentationGenerator.documentTool, DocumentationGenerator.cacheGet.
  rewrite Ec, Ep. cbn [LLMProvider.config].
  pose proof (MemoryCacheProperties.get_finds_set toLowerCase estimateEntrySize now now
                (toolDocKey tool) (toolDocKey tool)
                (LLMProvider.constructorName (LLMProvider.config (llmProvider g)))
                (LLMProvider.constructorName (LLMProvider.config (llmProvider g)))
                (withContent response
                   (stringify
                      (DocumentationGenerator.parseToolDocumentation toLowerCase h
                         (content response) tool)))
                None None None None c1 eq_refl) as G.
  rewrite T, Z.sub_diag in G.
  destruct (Z.ltb_spec 0 (MemoryCache.defaultTTL (cache g))); [|lia].
  destruct (MemoryCache.get _ _ _ _ _ _ (MemoryCache.set _ _ _ _ _ _ _ _ c1))
    as [r c2].
  cbn [fst] in G. subst r. cbn [withContent content]. rewrite Hparse.
  cbn [fst snd llmProvider withCache]. rewrite Ep. cbn [LLMProvider.calls].
  repeat split.
Qed.

End Runtime.

(** Three tools and a provider that is down. *)
Lemma unreachable_provider_gives_fallbacks_witness :
  fst (DocumentationGenerator.generateToolDocumentation asciiLowerCase
         Samples.entrySize Samples.helpers 1000 Samples.context
         (OpenAPIMinifier.minify Samples.doc_pets) MoreSamples.offline)
  = Returned
      (List.map
         (fun tool =>
            toolDocumentation_toJSON
              (DocumentationGenerator.generateFallbackToolDoc asciiLowerCase tool))
         Samples.threeTools).
Proof.
  apply (unreachable_provider_gives_fallbacks asciiLowerCase Samples.entrySize
           Samples.helpers 1000 Samples.context
           (OpenAPIMinifier.minify Samples.doc_pets) MoreSamples.offline).
  - reflexivity.
  - repeat constructor.
Defined.

(** The three tools, documented after generateReadme has stored the
    provider's first answer, which is no JSON, as the README: the provider
    fails, answers, and has no answer left. *)
Lemma generateToolDocumentation_one_per_tool_witness :
  exists docs,
    fst (DocumentationGenerator.generateToolDocumentation asciiLowerCase
           Samples.entrySize MoreSamples.lenient 1000 Samples.context
           (OpenAPIMinifier.minify Samples.doc_pets) MoreSamples.afterReadme)
    = Returned docs
    /\ length docs = 3%nat.
Proof.
  destruct (generateToolDocumentation_one_per_tool asciiLowerCase Samples.entrySize
              MoreSamples.lenient 1000 Samples.context
              (OpenAPIMinifier.minify Samples.doc_pets) MoreSamples.afterReadme)
    as (docs & E & L & _).
  - intros j. eexists. reflexivity.
  - intros tool e Ht Hin. exfalso. vm_compute in Ht.
    destruct Ht as [<-|[<-|[<-|[]]]]; vm_compute in Hin;
      destruct Hin as [Hin|[]]; discriminate Hin.
  - exists docs. split; [exact E | exact L].
Defined.

(** The tool getWeather, documented twice in a row. *)
Lemma documentTool_second_time_cached_witness :
  let first :=
    DocumentationGenerator.documentTool asciiLowerCase Samples.entrySize
      MoreSamples.reading 1000 Samples.context (OpenAPIMinifier.minify Samples.doc_pets)
      (Samples.tool "getWeather") ([], Samples.generator) in
  let second :=
    DocumentationGenerator.documentTool asciiLowerCase Samples.entrySize
      MoreSamples.reading 1000 Samples.context (OpenAPIMinifier.minify Samples.doc_pets)
      (Samples.tool "getWeather") ([], snd (snd first)) in
  fst (snd second) = [MoreSamples.weatherDoc]
  /\ LLMProvider.calls (llmProvider (snd (snd second)))
     = LLMProvider.calls (llmProvider (snd (snd first))).
Proof.
  cbv zeta.
  destruct (documentTool_second_time_cached asciiLowerCase Samples.entrySize
              MoreSamples.reading 1000 Samples.context
              (OpenAPIMinifier.minify Samples.doc_pets) (Samples.tool "getWeather")
              [] [] Samples.generator (Samples.response "first" (1 # 1000))
              [Thrown; Returned (Samples.response "third" (1 # 1000))])
    as (_ & (_ & E) & _ & C).
  - vm_compute. reflexivity.
  - reflexivity.
  - vm_compute. reflexivity.
  - vm_compute. reflexivity.
  - split; [|exact C]. rewrite E. vm_compute. reflexivity.
Defined.

End GeneratorProperties.

(** ** Providers and the enhancement service *)

Module ServiceProperties.

Local Open Scope Z_scope.

(** *** Cost estimates *)

Lemma costPerToken_nonneg (config : LLMConfig) :
  (0 <= fst (LLMProvider.costPerToken config))%Q
  /\ (0 <= snd (LLMProvider.costPerToken config))%Q.
Proof.
  unfold LLMProvider.costPerToken.
  destruct (provider config);
    repeat match goal with
           | |- context [if ?b then _ else _] => destruct b
           end; cbn [fst snd]; split; unfold Qle; cbn; lia.
Qed.

(** The estimate of a provider is never negative and grows with both token
    counts; a local model costs nothing.  (The model name is taken not to be
    one every object inherits, for which the table of rates has no entry
    with rates.) *)
Theorem estimateCost_monotone (config : LLMConfig) (p p' c c' : Q) :
  onPrototype (LLMProvider.modelOf config) = false ->
  (0 <= p)%Q -> (p <= p')%Q -> (0 <= c)%Q -> (c <= c')%Q ->
  (0 <= LLMProvider.estimateCost config p c)%Q
  /\ (LLMProvider.estimateCost config p c <= LLMProvider.estimateCost config p' c')%Q
  /\ (provider config = Ollama -> LLMProvider.estimateCost config p c = 0%Q).
Proof.
  intros _ Hp Hpp Hc Hcc.
  destruct (costPerToken_nonneg config) as [Hi Ho].
  unfold LLMProvider.estimateCost.
  destruct (provider config) eqn:E.
  - split; [|split; [|discriminate]].
    + apply (Qle_trans _ (0 + 0)); [discriminate|].
      apply Qplus_le_compat; now apply Qmult_le_0_compat.
    + apply Qplus_le_compat; now apply Qmult_le_compat_r.
  - split; [|split; [|discriminate]].
    + apply (Qle_trans _ (0 + 0)); [discriminate|].
      apply Qplus_le_compat; now apply Qmult_le_0_compat.
    + apply Qplus_le_compat; now apply Qmult_le_compat_r.
  - split; [apply Qle_refl | split; [apply Qle_refl | reflexivity]].
Qed.

Lemma estimateCost_monotone_witness :
  (LLMProvider.estimateCost Samples.gpt4 700 300
   <= LLMProvider.estimateCost Samples.gpt4 1400 600)%Q.
Proof.
  apply (estimateCost_monotone Samples.gpt4 700 1400 300 600);
    first [reflexivity | discriminate].
Defined.

Lemma Qmin_lower (a b c : Q) :
  (c <= a)%Q -> (c <= b)%Q -> (c <= IntelligenceService.Qmin a b)%Q.
Proof. intros. unfold IntelligenceService.Qmin. now destruct (Qle_bool a b). Qed.

Lemma Qmin_upper (a b : Q) : (IntelligenceService.Qmin a b <= b)%Q.
Proof.
  unfold IntelligenceService.Qmin. destruct (Qle_bool a b) eqn:E.
  - now apply Qle_bool_iff.
  - apply Qle_refl.
Qed.

Lemma inject_nat_nonneg (n : nat) : (0 <= inject_Z (Z.of_nat n))%Q.
Proof. unfold Qle. cbn. lia. Qed.

(** The estimated probability of a cache hit lies between 0.3 and 0.8 for
    every project and every list of features. *)
Theorem estimateCacheHitRate_bounds (project : IntelligenceService.GeneratedProject)
    (requested : list jsstring) :
  (3 # 10 <= IntelligenceService.estimateCacheHitRate project requested)%Q
  /\ (IntelligenceService.estimateCacheHitRate project requested <= 8 # 10)%Q.
Proof.
  unfold IntelligenceService.estimateCacheHitRate. split; [|apply Qmin_upper].
  apply Qmin_lower; [|discriminate].
  apply (Qle_trans _ ((3 # 10) + 0 + 0)); [discriminate|].
  repeat apply Qplus_le_compat.
  - apply Qle_refl.
  - apply Qmin_lower; [|discriminate].
    apply Qle_shift_div_l; [reflexivity|].
    rewrite Qmult_0_l. apply inject_nat_nonneg.
  - apply Qmult_le_0_compat; [apply inject_nat_nonneg | discriminate].
Qed.

Section Runtime.

Variable toLowerCase : jsstring -> jsstring.
Variable estimateEntrySize : CacheEntry -> Z.
Variable h : Helpers.
Variable now : Z.
Variable ExampleGenerator : Type.
Variable generateExamples :
  DocumentationGenerator.GenerationContext -> ExampleGenerator
  -> outcome json * ExampleGenerator.
Variable exampleStats : ExampleGenerator -> CacheStats.

Local Abbreviation service := (IntelligenceService.t ExampleGenerator).
Local Abbreviation metrics := (IntelligenceService.metrics ExampleGenerator).
Local Abbreviation providerCalls := (IntelligenceService.providerCalls ExampleGenerator).
Local Abbreviation estimateEnhancementCost :=
  (IntelligenceService.estimateEnhancementCost ExampleGenerator).
Local Abbreviation enhanceProject :=
  (IntelligenceService.enhanceProject toLowerCase estimateEntrySize h now
     ExampleGenerator generateExamples exampleStats).

Lemma minify_count_nonneg (spec : Document) :
  0 <= tokenCount (OpenAPIMinifier.minify spec).
Proof. apply MinifierProperties.estimateTokens_nonneg. Qed.

(** The pre-flight estimate is never negative, in tokens and in cost, and
    both are 0 when none of the three features it knows is asked for; other
    feature names count for nothing.  (The model name of the primary
    provider is taken not to be one every object inherits.) *)
Theorem estimateEnhancementCost_nonneg (s : service)
    (project : IntelligenceService.GeneratedProject) (spec : Document)
    (requested : list jsstring) :
  let e := estimateEnhancementCost s project spec requested in
  onPrototype
    (LLMProvider.modelOf
       (LLMProvider.config (IntelligenceService.primaryProvider ExampleGenerator s)))
  = false ->
  (0 <= IntelligenceService.estimatedTokens e)%Q
  /\ (0 <= IntelligenceService.estimatedCost e)%Q
  /\ (IntelligenceService.includes "documentation" requested = false ->
      IntelligenceService.includes "examples" requested = false ->
      IntelligenceService.includes "validation" requested = false ->
      (IntelligenceService.estimatedTokens e == 0)%Q
      /\ (IntelligenceService.estimatedCost e == 0)%Q).
Proof.
  cbv zeta. intros _. unfold IntelligenceService.estimateEnhancementCost.
  cbn [IntelligenceService.estimatedTokens IntelligenceService.estimatedCost].
  set (base := inject_Z (tokenCount (OpenAPIMinifier.minify spec))).
  assert (Hb : (0 <= base)%Q).
  { unfold base, Qle, inject_Z. cbn [Qnum Qden].
    pose proof (minify_count_nonneg spec). lia. }
  set (tokens := ((if IntelligenceService.includes "documentation" requested
                   then base * 2 else 0)
                  + (if IntelligenceService.includes "examples" requested
                     then inject_Z (Z.of_nat
                                      (length (IntelligenceService.tools project)))
                          * 500
                     else 0)
                  + (if IntelligenceService.includes "validation" requested
                     then base * (5 # 10) else 0))%Q).
  assert (Ht : (0 <= tokens)%Q).
  { unfold tokens. apply (Qle_trans _ (0 + 0 + 0)); [discriminate|].
    repeat apply Qplus_le_compat;
      match goal with |- context [if ?b then _ else _] => destruct b end;
      try apply Qle_refl; apply Qmult_le_0_compat;
      first [exact Hb | apply inject_nat_nonneg | discriminate]. }
  destruct (costPerToken_nonneg
              (LLMProvider.config
                 (IntelligenceService.primaryProvider ExampleGenerator s)))
    as [Hi Ho].
  split; [exact Ht|]. split.
  - unfold LLMProvider.estimateCost.
    destruct (provider _); try apply Qle_refl;
      (apply (Qle_trans _ (0 + 0)); [discriminate|]);
      apply Qplus_le_compat; apply Qmult_le_0_compat;
      first [assumption | apply Qmult_le_0_compat; [exact Ht | discriminate]].
  - intros D E V. unfold tokens. rewrite D, E, V.
    split; [reflexivity|].
    unfold LLMProvider.estimateCost.
    destruct (provider _); [| |reflexivity];
      now rewrite !Qplus_0_l, !Qmult_0_l.
Qed.

(** *** What a run does to the metrics *)

Lemma documentationStep_counters (options : option IntelligenceService.Options)
    (context : DocumentationGenerator.GenerationContext)
    (e : IntelligenceService.EnhancedProject) (s : service) :
  sameCounters (metrics s)
    (metrics (snd (snd (IntelligenceService.documentationStep toLowerCase
                          estimateEntrySize h now ExampleGenerator options context
                          (e, s))))).
Proof.
  unfold IntelligenceService.documentationStep, sameCounters.
  destruct (_ && _); [|cbn; auto].
  destruct (DocumentationGenerator.generateEnhancedDocs _ _ _ _ _ _) as [[docs|] g];
    [destruct (DocumentationGenerator.getStats g)|]; cbn; auto.
Qed.

Lemma examplesStep_counters (options : option IntelligenceService.Options)
    (context : DocumentationGenerator.GenerationContext)
    (e : IntelligenceService.EnhancedProject) (s : service) :
  sameCounters (metrics s)
    (metrics (snd (snd (IntelligenceService.examplesStep ExampleGenerator
                          generateExamples exampleStats options context (e, s))))).
Proof.
  unfold IntelligenceService.examplesStep, sameCounters.
  destruct (_ && _); [|cbn; auto].
  destruct (generateExamples _ _) as [[ex|] g]; cbn; auto.
Qed.

Lemma validationStep_counters (options : option IntelligenceService.Options)
    (project : IntelligenceService.GeneratedProject)
    (e : IntelligenceService.EnhancedProject) (s : service) :
  sameCounters (metrics s)
    (metrics (snd (snd (IntelligenceService.validationStep h ExampleGenerator options
                          project (e, s))))).
Proof.
  unfold IntelligenceService.validationStep, sameCounters.
  destruct (_ && _); [|cbn; auto].
  unfold IntelligenceService.validateImplementation.
  destruct (IntelligenceService.files project); [|cbn; auto].
  cbn [IntelligenceService.validatorProvider IntelligenceService.trackFeatureUsage
         IntelligenceService.withMetrics IntelligenceService.primaryProvider].
  destruct (IntelligenceService.validatorProvider ExampleGenerator s).
  - destruct (LLMProvider.generate _ _ _) as [[r|] p]; cbn;
      [destruct (JSON_parse h (content r))|]; cbn; auto.
  - destruct (LLMProvider.generate _ _ _) as [[r|] p]; cbn;
      [destruct (JSON_parse h (content r))|]; cbn; auto.
Qed.

Lemma optimizationStep_counters (options : option IntelligenceService.Options)
    (project : IntelligenceService.GeneratedProject) (title : jsstring)
    (e : IntelligenceService.EnhancedProject) (s : service) :
  sameCounters (metrics s)
    (metrics (snd (IntelligenceService.optimizationStep h ExampleGenerator options
                     project title (e, s)))).
Proof.
  unfold IntelligenceService.optimizationStep, sameCounters.
  destruct (_ && _); [|cbn; auto].
  unfold IntelligenceService.generateOptimizationHints.
  cbn [IntelligenceService.localProvider IntelligenceService.trackFeatureUsage
         IntelligenceService.withMetrics IntelligenceService.primaryProvider].
  destruct (IntelligenceService.localProvider ExampleGenerator s).
  - destruct (LLMProvider.generate _ _ _) as [[r|] p]; cbn;
      [destruct (JSON_parse h (content r))|]; cbn; auto.
  - destruct (LLMProvider.generate _ _ _) as [[r|] p]; cbn;
      [destruct (JSON_parse h (content r))|]; cbn; auto.
Qed.

(** Every run of [enhanceProject] counts one request, whether it returns
    or throws.  A run that returns moves [successRate] half of the way to
    1 and adds the cost it reports to [totalCost]; a run that throws halves
    [successRate] and adds nothing. *)
Theorem enhanceProject_metrics (project : IntelligenceService.GeneratedProject)
    (spec : Document) (options : option IntelligenceService.Options) (s : service) :
  let r := enhanceProject project spec options s in
  IntelligenceService.requestCount (metrics (snd r))
  = IntelligenceService.requestCount (metrics s) + 1
  /\ match fst r with
     | Returned e =>
         IntelligenceService.successRate (metrics (snd r))
         = ((IntelligenceService.successRate (metrics s) + 1) / 2)%Q
         /\ IntelligenceService.totalCost (metrics (snd r))
            = (IntelligenceService.totalCost (metrics s)
               + IntelligenceService.ep_cost e)%Q
     | Thrown =>
         IntelligenceService.successRate (metrics (snd r))
         = (IntelligenceService.successRate (metrics s) / 2)%Q
         /\ IntelligenceService.totalCost (metrics (snd r))
            = (IntelligenceService.totalCost (metrics s) + 0)%Q
     end.
Proof.
  cbv zeta. unfold IntelligenceService.enhanceProject.
  set (s0 := IntelligenceService.withMetrics ExampleGenerator s _).
  assert (H0 : IntelligenceService.requestCount (metrics s0)
               = IntelligenceService.requestCount (metrics s) + 1
               /\ IntelligenceService.successRate (metrics s0)
                  = IntelligenceService.successRate (metrics s)
               /\ IntelligenceService.totalCost (metrics s0)
                  = IntelligenceService.totalCost (metrics s)) by (cbn; auto).
  clearbody s0.
  match goal with |- context [IntelligenceService.documentationStep _ _ _ _ _ ?o ?c ?es] =>
    pose proof (documentationStep_counters o c (fst es) (snd es)) as H1;
    cbn [fst snd] in H1;
    destruct (IntelligenceService.documentationStep toLowerCase estimateEntrySize h now
                ExampleGenerator o c es) as [[[]|] [e1 s1]] end;
    cbn [fst snd] in *; unfold sameCounters in H1.
  2: { cbn. intuition congruence. }
  match goal with |- context [IntelligenceService.examplesStep _ _ _ ?o ?c ?es] =>
    pose proof (examplesStep_counters o c (fst es) (snd es)) as H2;
    cbn [fst snd] in H2;
    destruct (IntelligenceService.examplesStep ExampleGenerator generateExamples
                exampleStats o c es) as [[[]|] [e2 s2]] end;
    cbn [fst snd] in *; unfold sameCounters in H2.
  2: { cbn. intuition congruence. }
  match goal with |- context [IntelligenceService.validationStep _ _ ?o ?p ?es] =>
    pose proof (validationStep_counters o p (fst es) (snd es)) as H3;
    cbn [fst snd] in H3;
    destruct (IntelligenceService.validationStep h ExampleGenerator o p es)
      as [[[]|] [e3 s3]] end;
    cbn [fst snd] in *; unfold sameCounters in H3.
  2: { cbn. intuition congruence. }
  match goal with |- context [IntelligenceService.optimizationStep _ _ ?o ?p ?t ?es] =>
    pose proof (optimizationStep_counters o p t (fst es) (snd es)) as H4;
    cbn [fst snd] in H4;
    destruct (IntelligenceService.optimizationStep h ExampleGenerator o p t es)
      as [e4 s4] end;
    cbn [fst snd] in *; unfold sameCounters in H4.
  cbn. intuition congruence.
Qed.

(** A run in which every step is switched off -- by the configuration or
    by the options -- returns the bare result, leaves providers, generators
    and usage counts alone, and is counted as a successful request. *)
Theorem enhanceProject_nothing_enabled
    (project : IntelligenceService.GeneratedProject) (spec : Document)
    (options : option IntelligenceService.Options) (s : service) :
  let f := IntelligenceService.features
             (IntelligenceService.config ExampleGenerator s) in
  let r := enhanceProject project spec options s in
  IntelligenceService.documentation f
  && IntelligenceService.notDisabled options
       IntelligenceService.opt_enhanceDocumentation = false ->
  IntelligenceService.examples f
  && IntelligenceService.notDisabled options
       IntelligenceService.opt_generateExamples = false ->
  IntelligenceService.validation f
  && IntelligenceService.notDisabled options
       IntelligenceService.opt_validateImplementation = false ->
  IntelligenceService.implementation f
  && IntelligenceService.notDisabled options
       IntelligenceService.opt_optimizePerformance = false ->
  fst r = Returned (IntelligenceService.mkEnhanced None None None None [] 0 0)
  /\ providerCalls (snd r) = providerCalls s
  /\ IntelligenceService.documentationGenerator ExampleGenerator (snd r)
     = IntelligenceService.documentationGenerator ExampleGenerator s
  /\ IntelligenceService.exampleGenerator ExampleGenerator (snd r)
     = IntelligenceService.exampleGenerator ExampleGenerator s
  /\ IntelligenceService.featureUsage (metrics (snd r))
     = IntelligenceService.featureUsage (metrics s)
  /\ IntelligenceService.successRate (metrics (snd r))
     = ((IntelligenceService.successRate (metrics s) + 1) / 2)%Q.
Proof.
  cbv zeta. intros D E V O. destruct s as [cfg p v l g x m c].
  cbn [IntelligenceService.config] in D, E, V, O.
  unfold IntelligenceService.enhanceProject, IntelligenceService.documentationStep,
    IntelligenceService.examplesStep, IntelligenceService.validationStep,
    IntelligenceService.optimizationStep, IntelligenceService.withMetrics.
  cbn [IntelligenceService.config IntelligenceService.metrics].
  rewrite D. cbv beta iota. cbn [IntelligenceService.config]. rewrite E.
  cbv beta iota. cbn [IntelligenceService.config]. rewrite V.
  cbv beta iota. cbn [IntelligenceService.config]. rewrite O.
  cbn. repeat split.
Qed.

End Runtime.

Lemma enhanceProject_nothing_enabled_witness :
  fst (IntelligenceService.enhanceProject asciiLowerCase Samples.entrySize
         Samples.helpers 1000 unit (fun _ g => (Thrown, g)) (fun _ => freshStats)
         Samples.project Samples.doc_pets
         (Some (IntelligenceService.mkEnhanceOptions (Some false) None None None))
         Samples.service)
  = Returned (IntelligenceService.mkEnhanced None None None None [] 0 0).
Proof.
  apply (enhanceProject_nothing_enabled asciiLowerCase Samples.entrySize
           Samples.helpers 1000 unit (fun _ g => (Thrown, g)) (fun _ => freshStats)
           Samples.project Samples.doc_pets
           (Some (IntelligenceService.mkEnhanceOptions (Some false) None None None))
           Samples.service); reflexivity.
Defined.

Lemma estimateEnhancementCost_nonneg_witness :
  (0 <= IntelligenceService.estimatedCost
          (IntelligenceService.estimateEnhancementCost unit Samples.service
             Samples.project Samples.doc_pets [js "documentation"]))%Q.
Proof.
  apply (estimateEnhancementCost_nonneg unit Samples.service Samples.project
           Samples.doc_pets [js "documentation"]).
  reflexivity.
Defined.

End ServiceProperties.

(* ================================================================== *)
(** ** Pruning the shared cache *)

Module PruneProperties.
Import SemanticCache SemanticCacheLifecycle.

Local Open Scope Z_scope.

Local Abbreviation without ks :=
  (fun kv : jsstring * (stored * option Z) =>
     negb (existsb (jsstring_eqb (fst kv)) ks)).
Local Abbreviation outside ks := (fun k : jsstring => negb (existsb (jsstring_eqb k) ks)).
Local Abbreviation asStored :=
  (fun x : jsstring * CacheEntry => (fst x, StoredEntry (snd x))).

(** *** Lists *)

Lemma filter_all {A} (f : A -> bool) (l : list A) :
  (forall x, In x l -> f x = true) -> filter f l = l.
Proof.
  induction l as [|a l IH]; cbn [filter]; intros H; [reflexivity|].
  rewrite (H a) by now left. f_equal. apply IH. intros x Hx. apply H. now right.
Qed.

Lemma filter_none {A} (f : A -> bool) (l : list A) :
  (forall x, In x l -> f x = false) -> filter f l = [].
Proof.
  induction l as [|a l IH]; cbn [filter]; intros H; [reflexivity|].
  rewrite (H a) by now left. apply IH. intros x Hx. apply H. now right.
Qed.

Lemma filter_twice {A} (f g : A -> bool) (l : list A) :
  filter f (filter g l) = filter (fun x => g x && f x) l.
Proof.
  induction l as [|a l IH]; cbn [filter]; [reflexivity|].
  destruct (g a); cbn [filter andb]; [destruct (f a)|]; now rewrite IH.
Qed.

Lemma filter_swap {A} (f g : A -> bool) (l : list A) :
  filter f (filter g l) = filter g (filter f l).
Proof.
  rewrite !filter_twice. apply filter_ext. intros x. apply andb_comm.
Qed.

Lemma filter_perm {A} (f : A -> bool) (l l' : list A) :
  Permutation l l' -> Permutation (filter f l) (filter f l').
Proof.
  induction 1 as [|x l l' _ IH|x y l|l l' l'' _ IH1 _ IH2]; cbn [filter].
  - constructor.
  - destruct (f x); [now constructor | exact IH].
  - destruct (f x), (f y); try reflexivity. apply perm_swap.
  - now transitivity (filter f l').
Qed.

Lemma map_fst_filter {A} (g : jsstring -> bool) (l : list (jsstring * A)) :
  List.map fst (filter (fun kv => g (fst kv)) l) = filter g (List.map fst l).
Proof.
  induction l as [|[k v] l IH]; cbn [filter List.map fst]; [reflexivity|].
  destruct (g k); cbn [List.map fst]; now rewrite IH.
Qed.

Lemma NoDup_map_filter {A B} (f : A -> B) (g : A -> bool) (l : list A) :
  NoDup (List.map f l) -> NoDup (List.map f (filter g l)).
Proof.
  induction l as [|a l IH]; cbn [filter List.map]; intros N; [constructor|].
  inversion N as [|? ? Ha N']; subst.
  destruct (g a); [|now apply IH].
  cbn [List.map]. constructor; [|now apply IH].
  intros H. apply Ha. apply in_map_iff in H as (x & Hx & Hin).
  apply in_map_iff. exists x. split; [exact Hx|]. now apply filter_In in Hin.
Qed.

Lemma NoDup_app_disjoint {A} (a b : list A) (x : A) :
  NoDup (a ++ b) -> In x a -> In x b -> False.
Proof.
  induction a as [|y a IH]; cbn [app]; intros N Ha Hb; [easy|].
  inversion N as [|? ? Hy N']; subst. destruct Ha as [->|Ha].
  - apply Hy, in_or_app. now right.
  - now apply IH.
Qed.

Lemma existsb_key_In (k : jsstring) (ks : list jsstring) :
  existsb (jsstring_eqb k) ks = true <-> In k ks.
Proof.
  rewrite existsb_exists. split.
  - intros (x & Hx & E). apply jsstring_eqb_eq in E. now subst.
  - intros H. exists k. split; [exact H | apply jsstring_eqb_refl].
Qed.

Lemma outside_In (k : jsstring) (ks : list jsstring) :
  negb (existsb (jsstring_eqb k) ks) = true <-> ~ In k ks.
Proof.
  rewrite negb_true_iff, <- existsb_key_In. now destruct (existsb _ ks).
Qed.

Lemma lookup_filter_key {A} (g : jsstring -> bool) (k : jsstring)
    (l : list (jsstring * A)) :
  lookup k (filter (fun kv => g (fst kv)) l) = if g k then lookup k l else None.
Proof.
  induction l as [|[k' v] l IH]; cbn [filter lookup fst]; [now destruct (g k)|].
  destruct (g k') eqn:G; cbn [lookup].
  - destruct (jsstring_eqb k k') eqn:E; [|exact IH].
    apply jsstring_eqb_eq in E. subst. now rewrite G.
  - rewrite IH. destruct (g k) eqn:G'; [|reflexivity].
    destruct (jsstring_eqb k k') eqn:E; [|reflexivity].
    apply jsstring_eqb_eq in E. congruence.
Qed.

Lemma length_kept {A} (f : list A -> A -> bool) (l l' : list A) (m : nat) :
  (forall ks x, f ks x = true <-> ~ In x ks) ->
  NoDup l -> Permutation l' l ->
  length (filter (f (firstn m l')) l) = (length l - m)%nat.
Proof.
  intros Hf N P.
  assert (N' : NoDup (firstn m l' ++ skipn m l')).
  { rewrite firstn_skipn. apply (Permutation_NoDup (Permutation_sym P) N). }
  rewrite (Permutation_length
             (filter_perm (f (firstn m l')) _ _ (Permutation_sym P))).
  rewrite <- (firstn_skipn m l') at 2.
  rewrite filter_app, length_app, filter_none, filter_all.
  - cbn [length]. rewrite length_skipn, (Permutation_length P). lia.
  - intros x Hx. apply Hf. intros Hx'. exact (NoDup_app_disjoint _ _ x N' Hx' Hx).
  - intros x Hx. destruct (f (firstn m l') x) eqn:E; [|reflexivity].
    apply Hf in E. contradiction.
Qed.

(** *** The store *)

Lemma command_quiet (r : Redis) : faults r = [] -> command r = (false, r).
Proof. unfold command. now intros ->. Qed.

Lemma redis_get_quiet (now : Z) (k : jsstring) (r : Redis) :
  faults r = [] -> redis_get now k r = (Returned (held now r k), r).
Proof. intros F. unfold redis_get. now rewrite (command_quiet r F). Qed.

Lemma redis_del_quiet (ks : list jsstring) (r : Redis) :
  faults r = [] ->
  redis_del ks r
  = (Returned tt, mkRedis (isOpen r) (filter (without ks) (store r)) []).
Proof. intros F. unfold redis_del. now rewrite (command_quiet r F), F. Qed.

Lemma held_without (now : Z) (r r' : Redis) (ks : list jsstring) (k : jsstring) :
  store r' = filter (without ks) (store r) ->
  held now r' k = if existsb (jsstring_eqb k) ks then None else held now r k.
Proof.
  intros H. unfold held. rewrite H, filter_swap.
  rewrite (lookup_filter_key (outside ks)). now destruct (existsb _ ks).
Qed.

Lemma keysOf_without (now : Z) (r r' : Redis) (ks : list jsstring) :
  store r' = filter (without ks) (store r) ->
  keysOf now r' = filter (outside ks) (keysOf now r).
Proof.
  intros H. unfold keysOf. rewrite H, filter_swap.
  apply (map_fst_filter (outside ks)).
Qed.

Lemma held_keysOf (now : Z) (r : Redis) (k : jsstring) (v : stored) :
  held now r k = Some v -> starts_with keyPrefix k = true -> In k (keysOf now r).
Proof.
  unfold held, keysOf. intros H P.
  assert (G : exists x, In (k, x) (filter (live now) (store r))).
  { induction (filter (live now) (store r)) as [|[k' x] l IH];
      cbn [lookup] in H; [discriminate|].
    destruct (jsstring_eqb k k') eqn:E.
    - apply jsstring_eqb_eq in E. subst. exists x. now left.
    - destruct (IH H) as [y Hy]. exists y. now right. }
  destruct G as [x Hx]. apply filter_In in Hx as [Hx L].
  apply in_map_iff. exists (k, x). split; [reflexivity|].
  apply filter_In. split; [exact Hx|]. cbn [fst]. now rewrite L, P.
Qed.

Lemma entriesAt_same (now : Z) (r r' : Redis) (ks : list jsstring) :
  (forall k, In k ks -> held now r' k = held now r k) ->
  entriesAt now r' ks = entriesAt now r ks.
Proof.
  unfold entriesAt. induction ks as [|k ks IH]; cbn [flat_map]; intros H;
    [reflexivity|].
  rewrite (H k) by now left. f_equal. apply IH. intros x Hx. apply H. now right.
Qed.

Lemma In_entriesAt (now : Z) (r : Redis) (ks : list jsstring) (k : jsstring)
    (e : CacheEntry) :
  In (k, e) (entriesAt now r ks) <-> In k ks /\ held now r k = Some (StoredEntry e).
Proof.
  unfold entriesAt. rewrite in_flat_map. split.
  - intros (x & Hx & H). destruct (held now r x) as [[e'| |]|] eqn:E; try easy.
    destruct H as [[= <- <-]|[]]. now split.
  - intros [Hk H]. exists k. split; [exact Hk|]. rewrite H. now left.
Qed.

(** *** The loop over the keys *)

Lemma collectEntries_spec (now : Z) (ks : list jsstring) :
  forall (acc : list (jsstring * stored)) (r : Redis),
    faults r = [] ->
    NoDup ks ->
    (forall k, In k ks ->
       (exists e, held now r k = Some (StoredEntry e)) \/ holdsText now r k = true) ->
    exists r',
      collectEntries now ks acc r
      = (Returned (acc ++ List.map asStored (entriesAt now r ks)), r')
      /\ faults r' = []
      /\ isOpen r' = isOpen r
      /\ store r' = filter (without (filter (holdsText now r) ks)) (store r).
Proof.
  induction ks as [|k ks IH]; intros acc r F N H.
  - exists r. cbn. rewrite app_nil_r. repeat split; try assumption.
    symmetry. now apply filter_all.
  - inversion N as [|? ? Hk N']; subst.
    cbn [collectEntries]. rewrite (redis_get_quiet now k r F).
    destruct (H k (or_introl eq_refl)) as [[e He]|Ht].
    + rewrite He. cbn [stored_truthy].
      destruct (IH (acc ++ [(k, StoredEntry e)]) r F N') as (r' & E & F' & O' & S');
        [intros x Hx; apply H; now right|].
      exists r'. rewrite E. unfold entriesAt, holdsText. cbn [flat_map filter].
      rewrite He. cbn [List.map app fst snd]. rewrite <- app_assoc.
      repeat split; assumption.
    + assert (Ht' := Ht). unfold holdsText in Ht.
      destruct (held now r k) as [[e|s|s]|] eqn:He; try discriminate.
      cbn [stored_truthy]. rewrite Ht. rewrite (redis_del_quiet [k] r F).
      set (r1 := mkRedis _ _ _).
      assert (Hsame : forall x, In x ks -> held now r1 x = held now r x).
      { intros x Hx. rewrite (held_without now r r1 [k] x eq_refl).
        cbn [existsb]. rewrite CacheFacts.jsstring_eqb_neq; [reflexivity|].
        intros ->. contradiction. }
      destruct (IH acc r1 eq_refl N') as (r' & E & F' & O' & S').
      { intros x Hx. unfold holdsText. rewrite (Hsame x Hx).
        apply H. now right. }
      exists r'. rewrite E, (entriesAt_same now r r1 ks Hsame).
      split.
      { unfold entriesAt. cbn [flat_map]. now rewrite He. }
      split; [exact F'|]. split; [exact O'|].
      rewrite S'.
      rewrite (filter_ext_in (holdsText now r1) (holdsText now r) ks)
        by (intros x Hx; unfold holdsText; now rewrite (Hsame x Hx)).
      cbn [filter]. rewrite Ht'. unfold r1. cbn [store].
      rewrite filter_twice.
      apply filter_ext. intros x. cbn [existsb]. rewrite orb_false_r.
      now rewrite negb_orb.
Qed.

(** Without any assumption on the values: what parses is kept in the store,
    and collected. *)
Lemma collectEntries_keeps (now : Z) (ks : list jsstring) :
  forall (acc : list (jsstring * stored)) (r : Redis),
    faults r = [] ->
    exists picks r',
      collectEntries now ks acc r = (Returned (acc ++ picks), r')
      /\ faults r' = []
      /\ forall k v, held now r k = Some v -> (forall s, v <> StoredText s) ->
           held now r' k = Some v /\ (In k ks -> In (k, v) picks).
Proof.
  induction ks as [|k0 ks IH]; intros acc r F.
  - exists [], r. cbn. rewrite app_nil_r. repeat split; easy.
  - cbn [collectEntries]. rewrite (redis_get_quiet now k0 r F).
    destruct (held now r k0) as [v0|] eqn:H0.
    + destruct v0 as [e|s|s].
      * cbn [stored_truthy].
        destruct (IH (acc ++ [(k0, StoredEntry e)]) r F) as (picks & r' & E & F' & K).
        exists ((k0, StoredEntry e) :: picks), r'. rewrite E, <- app_assoc.
        split; [reflexivity|]. split; [exact F'|].
        intros k v Hk Hv. destruct (K k v Hk Hv) as [K1 K2]. split; [exact K1|].
        intros [<-|Hin]; [left; congruence | right; now apply K2].
      * cbn [stored_truthy].
        destruct (IH (acc ++ [(k0, StoredStats s)]) r F) as (picks & r' & E & F' & K).
        exists ((k0, StoredStats s) :: picks), r'. rewrite E, <- app_assoc.
        split; [reflexivity|]. split; [exact F'|].
        intros k v Hk Hv. destruct (K k v Hk Hv) as [K1 K2]. split; [exact K1|].
        intros [<-|Hin]; [left; congruence | right; now apply K2].
      * cbn [stored_truthy]. destruct (truthy s) eqn:T.
        -- rewrite (redis_del_quiet [k0] r F). set (r1 := mkRedis _ _ _).
           destruct (IH acc r1 eq_refl) as (picks & r' & E & F' & K).
           exists picks, r'. split; [exact E|]. split; [exact F'|].
           intros k v Hk Hv.
           assert (Hne : k <> k0).
           { intros ->. rewrite H0 in Hk. injection Hk as <-. now apply (Hv s). }
           assert (Hk1 : held now r1 k = Some v).
           { rewrite (held_without now r r1 [k0] k eq_refl). cbn [existsb].
             now rewrite (CacheFacts.jsstring_eqb_neq _ _ Hne). }
           destruct (K k v Hk1 Hv) as [K1 K2]. split; [exact K1|].
           intros [->|Hin]; [contradiction | now apply K2].
        -- destruct (IH acc r F) as (picks & r' & E & F' & K).
           exists picks, r'. split; [exact E|]. split; [exact F'|].
           intros k v Hk Hv. destruct (K k v Hk Hv) as [K1 K2]. split; [exact K1|].
           intros [<-|Hin]; [|now apply K2].
           rewrite H0 in Hk. injection Hk as <-. now destruct (Hv s).
    + destruct (IH acc r F) as (picks & r' & E & F' & K).
      exists picks, r'. split; [exact E|]. split; [exact F'|].
      intros k v Hk Hv. destruct (K k v Hk Hv) as [K1 K2]. split; [exact K1|].
      intros [<-|Hin]; [congruence | now apply K2].
Qed.

(** *** The sort *)

Lemma entriesOnly_asStored (es : list (jsstring * CacheEntry)) :
  entriesOnly (List.map asStored es) = Some es.
Proof.
  induction es as [|[k e] es IH]; cbn [List.map entriesOnly fst snd]; [reflexivity|].
  now rewrite IH.
Qed.

Lemma entriesOnly_statistics (l : list (jsstring * stored)) (k : jsstring)
    (s : CacheStats) :
  In (k, StoredStats s) l -> entriesOnly l = None.
Proof.
  induction l as [|[k' v] l IH]; [easy|].
  intros [[= -> ->]|H]; [reflexivity|].
  cbn [entriesOnly]. destruct v; try reflexivity. now rewrite (IH H).
Qed.

Lemma sortEntries_entries (es : list (jsstring * CacheEntry)) :
  sortEntries (List.map asStored es) = Returned (List.map fst (sortByAccess es)).
Proof.
  destruct es as [|x [|y es]]; [reflexivity | now destruct x |].
  change (sortEntries (List.map asStored (x :: y :: es)))
    with (match entriesOnly (List.map asStored (x :: y :: es)) with
          | Some es => Returned (List.map fst (sortByAccess es))
          | None => @Thrown (list jsstring)
          end).
  now rewrite entriesOnly_asStored.
Qed.

Lemma insertByAccess_perm (x : jsstring * CacheEntry) (l : list (jsstring * CacheEntry)) :
  Permutation (insertByAccess x l) (x :: l).
Proof.
  induction l as [|y l IH]; cbn [insertByAccess]; [reflexivity|].
  destruct (lastAccess x <=? lastAccess y); [reflexivity|].
  transitivity (y :: x :: l); [now constructor | apply perm_swap].
Qed.

Lemma sortByAccess_perm (l : list (jsstring * CacheEntry)) :
  Permutation (sortByAccess l) l.
Proof.
  induction l as [|x l IH]; [reflexivity|].
  cbn [sortByAccess fold_right]. fold (sortByAccess l).
  transitivity (x :: sortByAccess l); [apply insertByAccess_perm | now constructor].
Qed.

Lemma insertByAccess_sorted (x : jsstring * CacheEntry)
    (l : list (jsstring * CacheEntry)) :
  oldestFirst l -> oldestFirst (insertByAccess x l).
Proof.
  induction l as [|y l IH]; [now cbn|].
  intros [Hy Hl]. cbn [insertByAccess].
  destruct (Z.leb_spec (lastAccess x) (lastAccess y)) as [H|H].
  - split; [|now split].
    constructor; [exact H|].
    apply Forall_forall. intros z Hz.
    pose proof (proj1 (Forall_forall _ _) Hy z Hz) as Hz'. cbv beta in Hz'. lia.
  - split; [|now apply IH].
    apply Forall_forall. intros z Hz.
    apply (Permutation_in _ (insertByAccess_perm x l)) in Hz.
    destruct Hz as [<-|Hz]; [lia|].
    now apply (proj1 (Forall_forall _ _) Hy).
Qed.

Lemma sortByAccess_sorted (l : list (jsstring * CacheEntry)) :
  oldestFirst (sortByAccess l).
Proof.
  induction l as [|x l IH]; [now cbn|].
  cbn [sortByAccess fold_right]. fold (sortByAccess l). now apply insertByAccess_sorted.
Qed.

Lemma oldestFirst_split (m : nat) (l : list (jsstring * CacheEntry)) :
  oldestFirst l ->
  forall x y, In x (firstn m l) -> In y (skipn m l) -> lastAccess x <= lastAccess y.
Proof.
  revert m. induction l as [|z l IH]; intros [|m] D x y Hx Hy;
    cbn [firstn skipn] in *; try easy.
  destruct D as [Hz Hl]. destruct Hx as [<-|Hx].
  - apply (proj1 (Forall_forall _ _) Hz). eapply MinifierProperties.in_skipn. exact Hy.
  - now apply (IH m).
Qed.

(** *** prune *)

Lemma entry_keys (now : Z) (r : Redis) (T ks : list jsstring) :
  (forall k, In k ks -> holdsText now r k = true -> In k T) ->
  (forall k, In k T -> holdsText now r k = true) ->
  (forall k, In k ks ->
     (exists e, held now r k = Some (StoredEntry e)) \/ holdsText now r k = true) ->
  filter (outside T) ks = List.map fst (entriesAt now r ks).
Proof.
  unfold entriesAt. intros H1 H2.
  induction ks as [|k ks IH]; intros H3; cbn [filter flat_map]; [reflexivity|].
  assert (IH' : filter (outside T) ks
                = List.map fst
                    (flat_map (fun k => match held now r k with
                                        | Some (StoredEntry e) => [(k, e)]
                                        | _ => []
                                        end) ks)).
  { apply IH; intros x Hx; [intros Hx'; apply H1; [now right | exact Hx']
                           | apply H3; now right]. }
  destruct (H3 k (or_introl eq_refl)) as [[e He]|Ht].
  - rewrite He. cbn [app List.map fst].
    replace (negb (existsb (jsstring_eqb k) T)) with true; [now rewrite IH'|].
    symmetry. apply outside_In. intros Hin. apply H2 in Hin.
    unfold holdsText in Hin. now rewrite He in Hin.
  - rewrite (proj2 (existsb_key_In k T) (H1 k (or_introl eq_refl) Ht)). cbn [negb].
    unfold holdsText in Ht.
    destruct (held now r k) as [[e|s|s]|]; try discriminate. exact IH'.
Qed.

Lemma all_entries_length (now : Z) (r : Redis) (ks : list jsstring) :
  (forall k, In k ks -> exists e, held now r k = Some (StoredEntry e)) ->
  length (entriesAt now r ks) = length ks.
Proof.
  unfold entriesAt. induction ks as [|k ks IH]; intros H; [reflexivity|].
  cbn [flat_map]. destruct (H k (or_introl eq_refl)) as [e ->].
  cbn [app length]. f_equal. apply IH. intros x Hx. apply H. now right.
Qed.

(** What [prune] does to a store that executes the commands and holds
    entries, and texts that do not parse, under the prefix: the texts are
    deleted, and so are the first [removed] entries in the order of last
    access, where [removed] is what [slice] makes of the number of entries
    less [maxEntries]. *)
Lemma prune_outcome (now n : Z) (c : t) :
  isOpen (redis c) = true ->
  faults (redis c) = [] ->
  NoDup (List.map fst (store (redis c))) ->
  entriesOrText now (redis c) ->
  n <> 0 ->
  n < Z.of_nat (length (keysOf now (redis c))) ->
  let entries := entriesAt now (redis c) (keysOf now (redis c)) in
  let len := Z.of_nat (length entries) in
  let removed :=
    Z.to_nat (if len - n <? 0 then Z.max (len + (len - n)) 0 else Z.min (len - n) len) in
  exists r',
    prune now (Some n) c = (Settled (Returned tt), mkCache r' (stats c) (defaultTTL c) (log c))
    /\ length (keysOf now r') = (length entries - removed)%nat
    /\ (forall k, In k (keysOf now r') ->
          In k (keysOf now (redis c))
          /\ held now r' k = held now (redis c) k
          /\ exists e, held now (redis c) k = Some (StoredEntry e))
    /\ (forall k k' e e',
          In k (keysOf now (redis c)) -> ~ In k (keysOf now r') ->
          In k' (keysOf now r') ->
          held now (redis c) k = Some (StoredEntry e) ->
          held now (redis c) k' = Some (StoredEntry e') ->
          accessed (metadata e) <= accessed (metadata e')).
Proof.
  intros O F N H Hn Hlt entries len removed.
  set (ks := keysOf now (redis c)) in *.
  set (T := filter (holdsText now (redis c)) ks).
  set (sorted := sortByAccess entries).
  assert (Nks : NoDup ks) by now apply NoDup_map_filter.
  assert (EK : filter (outside T) ks = List.map fst entries).
  { apply entry_keys; [| |exact H].
    - intros k Hk Ht. apply filter_In. now split.
    - intros k Hk. now apply filter_In in Hk. }
  assert (Hstore : exists r',
            prune now (Some n) c
            = (Settled (Returned tt), mkCache r' (stats c) (defaultTTL c) (log c))
            /\ store r'
               = filter (without (T ++ firstn removed (List.map fst sorted)))
                   (store (redis c))).
  { unfold prune. rewrite (CacheFacts.afterConnect_open now c _ O).
    unfold redis_keys. rewrite (command_quiet _ F).
    change (List.map fst (filter _ (store (redis c)))) with ks.
    replace (negb (n =? 0) && (n <? Z.of_nat (length ks))) with true
      by (symmetry; apply andb_true_intro; split;
          [now apply negb_true_iff, Z.eqb_neq | now apply Z.ltb_lt]).
    destruct (collectEntries_spec now ks [] (redis c) F Nks H)
      as (r1 & E & F1 & O1 & S1).
    rewrite E. cbn [app]. fold entries. rewrite sortEntries_entries. fold sorted.
    assert (Hl : length (List.map fst sorted) = length entries)
      by (rewrite length_map; apply Permutation_length, sortByAccess_perm).
    unfold slice_to. cbv zeta. rewrite !Hl. fold len. fold removed.
    destruct (firstn removed (List.map fst sorted)) as [|k0 R] eqn:ER.
    - exists r1. split; [reflexivity|]. now rewrite app_nil_r.
    - rewrite (redis_del_quiet _ r1 F1). eexists. split; [reflexivity|].
      cbn [store]. rewrite S1, filter_twice. apply filter_ext.
      intros x. now rewrite existsb_app, negb_orb. }
  destruct Hstore as (r' & E & S'). exists r'. split; [exact E|].
  assert (K' : keysOf now r'
               = filter (outside (firstn removed (List.map fst sorted)))
                   (List.map fst entries)).
  { rewrite (keysOf_without now (redis c) r' _ S'). fold ks. rewrite <- EK.
    rewrite filter_twice. apply filter_ext.
    intros x. now rewrite existsb_app, negb_orb. }
  assert (Psorted : Permutation (List.map fst sorted) (List.map fst entries))
    by apply Permutation_map, sortByAccess_perm.
  split; [|split].
  - rewrite K'.
    rewrite (length_kept (fun ks x => negb (existsb (jsstring_eqb x) ks))
               (List.map fst entries) (List.map fst sorted) removed).
    + now rewrite length_map.
    + intros l x. apply outside_In.
    + rewrite <- EK. now apply NoDup_filter.
    + exact Psorted.
  - intros k Hk. split; [|split].
    + rewrite (keysOf_without now (redis c) r' _ S') in Hk.
      now apply filter_In in Hk.
    + rewrite (held_without now (redis c) r' _ k S').
      rewrite (keysOf_without now (redis c) r' _ S') in Hk.
      apply filter_In in Hk as [_ Hk]. apply negb_true_iff in Hk. now rewrite Hk.
    + rewrite K' in Hk. apply filter_In in Hk as [Hk _].
      apply in_map_iff in Hk as ([k1 e1] & Hk1 & Hk). cbn [fst] in Hk1. subst k1.
      exists e1. now apply In_entriesAt in Hk.
  - intros k k' e e' Hk Hgone Hkept He He'.
    assert (Hin : In (k, e) entries) by now apply In_entriesAt.
    assert (Hin' : In (k', e') entries).
    { apply In_entriesAt. split; [|exact He'].
      rewrite (keysOf_without now (redis c) r' _ S') in Hkept.
      now apply filter_In in Hkept. }
    rewrite K' in Hgone, Hkept.
    apply filter_In in Hkept as [_ Hkept]. apply outside_In in Hkept.
    assert (Hrem : In k (firstn removed (List.map fst sorted))).
    { destruct (existsb (jsstring_eqb k) (firstn removed (List.map fst sorted)))
        eqn:X; [now apply existsb_key_In|].
      exfalso. apply Hgone. apply filter_In. split.
      - apply in_map_iff. now exists (k, e).
      - now rewrite X. }
    rewrite firstn_map in Hrem, Hkept.
    apply in_map_iff in Hrem as ([k1 e1] & Hk1 & Hrem). cbn [fst] in Hk1. subst k1.
    assert (e1 = e).
    { assert (Hs : In (k, e1) sorted)
        by (rewrite <- (firstn_skipn removed sorted); apply in_or_app; now left).
      apply (Permutation_in _ (sortByAccess_perm entries)) in Hs.
      apply In_entriesAt in Hs as [_ Hs]. congruence. }
    subst e1.
    assert (Hs' : In (k', e') sorted)
      by (apply (Permutation_in _ (Permutation_sym (sortByAccess_perm entries)));
          exact Hin').
    rewrite <- (firstn_skipn removed sorted) in Hs'.
    apply in_app_or in Hs' as [Hs'|Hs'].
    + exfalso. apply Hkept. apply in_map_iff. now exists (k', e').
    + exact (oldestFirst_split removed sorted (sortByAccess_sorted entries)
               (k, e) (k', e') Hrem Hs').
Qed.

(** With entries only under the prefix, and more of them than [maxEntries],
    [prune(maxEntries)] leaves [maxEntries] of them in the store, untouched,
    and no entry that it removes was read after one that it leaves (when
    the store executes the commands). *)
Theorem prune_keeps_most_recent (now n : Z) (c : t) :
  let c' := snd (prune now (Some n) c) in
  isOpen (redis c) = true ->
  faults (redis c) = [] ->
  NoDup (List.map fst (store (redis c))) ->
  (forall k, In k (keysOf now (redis c)) ->
     exists e, held now (redis c) k = Some (StoredEntry e)) ->
  0 < n ->
  n < Z.of_nat (length (keysOf now (redis c))) ->
  fst (prune now (Some n) c) = Returned tt
  /\ log c' = log c
  /\ length (keysOf now (redis c')) = Z.to_nat n
  /\ (forall k, In k (keysOf now (redis c')) ->
        In k (keysOf now (redis c))
        /\ held now (redis c') k = held now (redis c) k)
  /\ (forall k k' e e',
        In k (keysOf now (redis c)) -> ~ In k (keysOf now (redis c')) ->
        In k' (keysOf now (redis c')) ->
        held now (redis c) k = Some (StoredEntry e) ->
        held now (redis c) k' = Some (StoredEntry e') ->
        accessed (metadata e) <= accessed (metadata e')).
Proof.
  cbv zeta. intros O F N H Hn Hlt.
  assert (H' : entriesOrText now (redis c)) by (intros k Hk; left; now apply H).
  assert (Hn' : n <> 0) by lia.
  destruct (prune_outcome now n c O F N H' Hn' Hlt) as (r' & E & Hlen & Hkept & Hord).
  rewrite E. cbn [fst snd log redis]. split; [reflexivity|]. split; [reflexivity|].
  split; [|split; [|exact Hord]].
  - rewrite Hlen, (all_entries_length now (redis c) _ H).
    destruct (Z.ltb_spec (Z.of_nat (length (keysOf now (redis c))) - n) 0); lia.
  - intros k Hk. destruct (Hkept k Hk) as (H1 & H2 & _). now split.
Qed.

(** With fewer entries than [maxEntries], but more keys because of texts
    that do not parse, [prune(maxEntries)] does not stop at deleting the
    texts: the negative end of the [slice] counts from the end, and of [len]
    entries the [2 * len - maxEntries] least recently read are removed, when
    that is positive. *)
Theorem prune_below_limit (now n : Z) (c : t) :
  let c' := snd (prune now (Some n) c) in
  let len := Z.of_nat (length (entriesAt now (redis c) (keysOf now (redis c)))) in
  isOpen (redis c) = true ->
  faults (redis c) = [] ->
  NoDup (List.map fst (store (redis c))) ->
  entriesOrText now (redis c) ->
  len < n ->
  n < Z.of_nat (length (keysOf now (redis c))) ->
  fst (prune now (Some n) c) = Returned tt
  /\ log c' = log c
  /\ Z.of_nat (length (keysOf now (redis c'))) = len - Z.max (2 * len - n) 0
  /\ forall k, In k (keysOf now (redis c')) ->
       exists e, held now (redis c) k = Some (StoredEntry e)
                 /\ held now (redis c') k = Some (StoredEntry e).
Proof.
  cbv zeta. intros O F N H Hn Hlt.
  assert (Hn' : n <> 0) by lia.
  destruct (prune_outcome now n c O F N H Hn' Hlt) as (r' & E & Hlen & Hkept & _).
  rewrite E. cbn [fst snd log redis]. split; [reflexivity|]. split; [reflexivity|].
  split.
  - rewrite Hlen.
    destruct (Z.ltb_spec
                (Z.of_nat (length (entriesAt now (redis c) (keysOf now (redis c)))) - n)
                0); lia.
  - intros k Hk. destruct (Hkept k Hk) as (_ & Hheld & e & He).
    exists e. split; [exact He | congruence].
Qed.

(** Once statistics were saved under the prefix, [prune] fails at the first
    comparison of the sort, which reads the time of last access of a value
    that has none: the error is logged and every entry stays in the store,
    however many there are. *)
Theorem prune_blocked_by_statistics (now n : Z) (c : t) (s : CacheStats)
    (k : jsstring) (e : CacheEntry) :
  let c' := snd (prune now (Some n) c) in
  isOpen (redis c) = true ->
  faults (redis c) = [] ->
  n <> 0 ->
  n < Z.of_nat (length (keysOf now (redis c))) ->
  held now (redis c) statsKey = Some (StoredStats s) ->
  held now (redis c) k = Some (StoredEntry e) ->
  starts_with keyPrefix k = true ->
  fst (prune now (Some n) c) = Returned tt
  /\ log c' = log c ++ [js "Cache prune error:"]
  /\ forall k' e',
       held now (redis c) k' = Some (StoredEntry e') ->
       held now (redis c') k' = Some (StoredEntry e').
Proof.
  cbv zeta. intros O F Hn Hlt Hs He Hp.
  unfold prune. rewrite (CacheFacts.afterConnect_open now c _ O).
  unfold redis_keys. rewrite (command_quiet _ F).
  change (List.map fst (filter _ (store (redis c)))) with (keysOf now (redis c)).
  replace (negb (n =? 0) && (n <? Z.of_nat (length (keysOf now (redis c)))))
    with true
    by (symmetry; apply andb_true_intro; split;
        [now apply negb_true_iff, Z.eqb_neq | now apply Z.ltb_lt]).
  destruct (collectEntries_keeps now (keysOf now (redis c)) [] (redis c) F)
    as (picks & r' & E & F' & K).
  rewrite E. cbn [app].
  assert (Hstats : In (statsKey, StoredStats s) picks).
  { apply (K statsKey (StoredStats s) Hs); [intros x; discriminate|].
    now apply (held_keysOf now (redis c) statsKey (StoredStats s) Hs). }
  assert (Hentry : In (k, StoredEntry e) picks).
  { apply (K k (StoredEntry e) He); [intros x; discriminate|].
    now apply (held_keysOf now (redis c) k (StoredEntry e) He). }
  assert (Hsort : sortEntries picks = Thrown).
  { destruct picks as [|p [|q picks]].
    - destruct Hstats.
    - destruct Hstats as [->|[]]. destruct Hentry as [[=]|[]].
    - destruct p as [kp vp].
      change (sortEntries ((kp, vp) :: q :: picks))
        with (match entriesOnly ((kp, vp) :: q :: picks) with
              | Some es => Returned (List.map fst (sortByAccess es))
              | None => @Thrown (list jsstring)
              end).
      now rewrite (entriesOnly_statistics _ statsKey s Hstats). }
  rewrite Hsort. cbn [fst snd log logError withRedis redis].
  split; [reflexivity|]. split; [reflexivity|].
  intros k' e' Hk'. apply (K k' (StoredEntry e') Hk'). intros x. discriminate.
Qed.

(** Three entries pruned to two: the one read at time 10 goes. *)
Lemma prune_keeps_most_recent_witness :
  length (keysOf 100 (redis (snd (prune 100 (Some 2) MoreSamples.threeEntries))))
  = 2%nat.
Proof.
  refine (proj1 (proj2 (proj2
            (prune_keeps_most_recent 100 2 MoreSamples.threeEntries _ _ _ _ _ _)))).
  - reflexivity.
  - reflexivity.
  - vm_compute. repeat constructor; cbn [In]; intuition discriminate.
  - intros k Hk. vm_compute in Hk.
    destruct Hk as [<-|[<-|[<-|[]]]]; eexists; reflexivity.
  - reflexivity.
  - reflexivity.
Defined.

(** Two entries, two broken values and a limit of three: one entry is left. *)
Lemma prune_below_limit_witness :
  Z.of_nat
    (length (keysOf 100 (redis (snd (prune 100 (Some 3) MoreSamples.withBrokenValues)))))
  = 1.
Proof.
  refine (eq_trans
            (proj1 (proj2 (proj2
               (prune_below_limit 100 3 MoreSamples.withBrokenValues _ _ _ _ _ _))))
            _).
  - reflexivity.
  - reflexivity.
  - vm_compute. repeat constructor; cbn [In]; intuition discriminate.
  - intros k Hk. vm_compute in Hk.
    destruct Hk as [<-|[<-|[<-|[<-|[]]]]];
      ((left; eexists; reflexivity) || (right; reflexivity)).
  - reflexivity.
  - reflexivity.
  - reflexivity.
Defined.

(** Three entries and the saved statistics: nothing is pruned. *)
Lemma prune_blocked_by_statistics_witness :
  log (snd (prune 100 (Some 1) MoreSamples.withStatistics))
  = [js "Cache prune error:"].
Proof.
  refine (proj1 (proj2
            (prune_blocked_by_statistics 100 1 MoreSamples.withStatistics freshStats
               (js "mcpgen:cache:a")
               (mkEntry (js "k") (Samples.response "sunny" (3 # 1000))
                  (mkMetadata 0 30 0 (3 # 1000)))
               _ _ _ _ _ _ _))).
  - reflexivity.
  - reflexivity.
  - discriminate.
  - reflexivity.
  - reflexivity.
  - reflexivity.
  - reflexivity.
Defined.
End PruneProperties.

(* ================================================================== *)
(** ** The statistics of the two caches *)

Module CacheStatistics.
Import SemanticCache SemanticCacheLifecycle.

Local Open Scope Z_scope.




Section Runtime.

Variable toLowerCase : jsstring -> jsstring.
Variable estimateEntrySize : CacheEntry -> Z.

Local Abbreviation get := (SemanticCache.get toLowerCase).
Local Abbreviation set := (SemanticCache.set toLowerCase estimateEntrySize).
Local Abbreviation keyOf := (SemanticCacheCalls.keyOf toLowerCase).
Local Abbreviation setAll := (SemanticCacheCalls.setAll toLowerCase estimateEntrySize).
Local Abbreviation getAll := (SemanticCacheCalls.getAll toLowerCase).

(** *** One get of a connected client *)




(** *** A get that connects first *)




(** *** Sets and gets on a client whose store executes every command *)








End Runtime.



End CacheStatistics.
